(** * Volcengine TTS client: binary frame codec and segment reassembly

    A shallow embedding of [src/pipecat/services/volcengine.py]
    ([VolcengineTTSService.parse_response] and the request/receive loop of
    [VolcengineTTSService.run_tts]) together with the properties of the
    wire protocol that the specification states about it.

    Conventions.
    - A Python [bytes] value is a [list byte]; the integer value of a byte
      is [byte_val].
    - Python integers are [Z]; slices [b[i:j]] are [slice], [b[i:]] is
      [drop] and [b[:j]] is [take].
    - Python exceptions are values of [exn]; code that can raise runs in the
      state-and-error monad [M], whose state holds the file object handed to
      [parse_response] and the [loguru] logger output.
    - [gzip.compress] and [gzip.decompress] belong to the Python standard
      library; they are taken through the interface [Gzip].
    - [numpy] with [resampy], and [pydub], are libraries whose calls can
      raise: the resampling of a segment is the parameter [resample] of
      the loop, and [pydub.AudioSegment] is taken through the interface
      [Pydub].

    The development also covers [src/pipecat/utils/path.py]
    ([get_project_root], [parse_path], [delete_file_by_prefix]), the paths
    of the segment files of [run_tts], and the merge of the segments in
    [src/pipecat/utils/audio.py] ([load_audioseg_from_pcm],
    [merge_pcm_list_into_mp3]), which the loop calls when it ends. *)

From Stdlib Require Import ZArith List Lia Bool Strings.Byte Ascii String.
From Stdlib Require Import DecimalString DecimalNat.
From stdpp Require Import base option list gmap.

Local Open Scope Z_scope.

(** ** Bytes and integer conversions *)

Abbreviation bytes := (list byte).

Definition byte_val (b : byte) : Z := Z.of_N (Byte.to_N b).

(** The byte whose value is [z mod 256]. *)
Definition byte_of_Z (z : Z) : byte :=
  default x00 (Byte.of_N (Z.to_N (z mod 256))).

(** [b[start:stop]] for non-negative [start] and [stop]. *)
Definition slice (start stop : nat) (b : bytes) : bytes :=
  take (stop - start) (drop start b).

(** [int.from_bytes(b, "big", signed=False)]. *)
Definition int_from_bytes (b : bytes) : Z :=
  fold_left (fun acc x => acc * 256 + byte_val x) b 0.

(** [int.from_bytes(b, "big", signed=True)]: two's complement on
    [8 * len(b)] bits; the empty string converts to [0]. *)
Definition int_from_bytes_signed (b : bytes) : Z :=
  let u := int_from_bytes b in
  let bits := 8 * Z.of_nat (length b) in
  if (0 <? bits) && (2 ^ (bits - 1) <=? u) then u - 2 ^ bits else u.

(** The [n] low-order base-256 digits of [z], most significant first. *)
Fixpoint be_digits (n : nat) (z : Z) : bytes :=
  match n with
  | O => []
  | S k => be_digits k (z / 256) ++ [byte_of_Z z]
  end.

(** ** Exceptions and the effect monad *)

Inductive exn : Set :=
  | IndexError            (* indexing a bytes object out of range *)
  | OverflowError         (* int.to_bytes on a value that does not fit *)
  | BadGzipFile           (* gzip.decompress: wrong magic number *)
  | EOFError              (* gzip.decompress: truncated stream *)
  | ZlibError             (* gzip.decompress: corrupt deflate data *)
  | UnicodeDecodeError    (* str(b, "utf-8") on ill-formed input *)
  | ConnectionClosed      (* websockets: recv on a closed connection *)
  | ValueError.           (* resampy, pydub: a value they do not accept *)

Inductive result (A : Type) : Type :=
  | Return (a : A)
  | Raise (e : exn).
Arguments Return {A} a.
Arguments Raise {A} e.

Definition raised {A} (r : result A) : bool :=
  match r with Return _ => false | Raise _ => true end.

(** A Python [str]: its sequence of Unicode code points. *)
Abbreviation str := (list Z).

(** The three [logger.error] calls of the error branch, by their label. *)
Inductive log_entry : Type :=
  | ErrorMessageCode (code : Z)
  | ErrorMessageSize (msg_size : Z)
  | ErrorMessage (error_msg : str).

(** What [parse_response] can touch: the file object it is given (opened
    by the caller in append mode) and the logger. *)
Record world : Type := World {
  file : bytes;
  logged : list log_entry
}.

Definition M (A : Type) : Type := world -> result A * world.

#[export] Instance M_ret : MRet M := fun A a w => (Return a, w).
#[export] Instance M_bind : MBind M := fun A B f m w =>
  match m w with
  | (Return a, w') => f a w'
  | (Raise e, w') => (Raise e, w')
  end.

Definition raise {A} (e : exn) : M A := fun w => (Raise e, w).

Definition lift {A} (r : result A) : M A := fun w => (r, w).

(** [b[i]] *)
Definition index (b : bytes) (i : nat) : M byte :=
  match b !! i with
  | Some x => mret x
  | None => raise IndexError
  end.

(** [file.write(data)] on a file opened with mode ["ab"]. *)
Definition file_write (data : bytes) : M unit :=
  fun w => (Return tt, World (file w ++ data) (logged w)).

(** [logger.error(...)] *)
Definition logger_error (e : log_entry) : M unit :=
  fun w => (Return tt, World (file w) (logged w ++ [e])).

(** [n.to_bytes(length, "big")] (unsigned). *)
Definition to_bytes (z : Z) (n : nat) : result bytes :=
  if (z <? 0) || (256 ^ Z.of_nat n <=? z) then Raise OverflowError
  else Return (be_digits n z).

(** ** UTF-8 decoding: [str(b, "utf-8")]

    The strict decoder: shortest forms only, no surrogates, nothing above
    U+10FFFF. *)

Definition is_cont (b : byte) : bool :=
  (0x80 <=? byte_val b) && (byte_val b <=? 0xBF).

Definition cont_bits (b : byte) : Z := Z.land (byte_val b) 0x3F.

Fixpoint utf8_decode (b : bytes) : option str :=
  match b with
  | [] => Some []
  | b0 :: r0 =>
      let v0 := byte_val b0 in
      if v0 <? 0x80 then cons v0 <$> utf8_decode r0
      else if v0 <? 0xC2 then None
      else if v0 <? 0xE0 then
        match r0 with
        | b1 :: r1 =>
            if is_cont b1
            then cons (Z.shiftl (Z.land v0 0x1F) 6 + cont_bits b1) <$> utf8_decode r1
            else None
        | _ => None
        end
      else if v0 <? 0xF0 then
        match r0 with
        | b1 :: b2 :: r2 =>
            let lo := if v0 =? 0xE0 then 0xA0 else 0x80 in
            let hi := if v0 =? 0xED then 0x9F else 0xBF in
            if (lo <=? byte_val b1) && (byte_val b1 <=? hi) && is_cont b2
            then cons (Z.shiftl (Z.land v0 0x0F) 12 + Z.shiftl (cont_bits b1) 6
                       + cont_bits b2) <$> utf8_decode r2
            else None
        | _ => None
        end
      else if v0 <? 0xF5 then
        match r0 with
        | b1 :: b2 :: b3 :: r3 =>
            let lo := if v0 =? 0xF0 then 0x90 else 0x80 in
            let hi := if v0 =? 0xF4 then 0x8F else 0xBF in
            if (lo <=? byte_val b1) && (byte_val b1 <=? hi) && is_cont b2 && is_cont b3
            then cons (Z.shiftl (Z.land v0 0x07) 18 + Z.shiftl (cont_bits b1) 12
                       + Z.shiftl (cont_bits b2) 6 + cont_bits b3) <$> utf8_decode r3
            else None
        | _ => None
        end
      else None
  end.

Definition str_utf8 (b : bytes) : M str :=
  match utf8_decode b with
  | Some s => mret s
  | None => raise UnicodeDecodeError
  end.

(** The bytes of an ASCII literal, and its code points. *)
Definition bytes_of_string (s : string) : bytes := list_byte_of_string s.
Definition str_of_string (s : string) : str := byte_val <$> bytes_of_string s.

(** ** The gzip interface

    [gzip.compress] and [gzip.decompress] of the Python standard library.
    Two facts about them are used, and only where a statement says so:
    decompression inverts compression, and a non-empty input that does not
    start with the gzip magic number [1f 8b] is rejected with
    [BadGzipFile]. *)

Class Gzip : Type := {
  gzip_compress : bytes -> bytes;
  gzip_decompress : bytes -> result bytes
}.

Class GzipLaws (G : Gzip) : Prop := {
  gzip_decompress_compress :
    forall b, gzip_decompress (gzip_compress b) = Return b;
  gzip_bad_magic :
    forall b, b <> [] -> take 2 b <> [x1f; x8b] ->
      gzip_decompress b = Raise BadGzipFile
}.

(** *** A reference instance

    The gzip container (RFC 1952) without optional header fields, around
    DEFLATE stored blocks (RFC 1951).  It compresses nothing, but what it
    writes is a gzip stream, and it reads back the streams of this shape;
    a stream that uses anything else of the format is rejected.  It serves
    to evaluate the definitions on concrete messages. *)

(** CRC-32 as gzip uses it, bit by bit. *)
Definition crc32_bit (c : Z) : Z :=
  if Z.odd c then Z.lxor (Z.shiftr c 1) 0xEDB88320 else Z.shiftr c 1.
Definition crc32_byte (c : Z) (x : byte) : Z :=
  Nat.iter 8 crc32_bit (Z.lxor c (byte_val x)).
Definition crc32 (b : bytes) : Z :=
  Z.lxor (fold_left crc32_byte b 0xFFFFFFFF) 0xFFFFFFFF.

(** The [n] low-order base-256 digits of [z], least significant first,
    and their value. *)
Fixpoint le_digits (n : nat) (z : Z) : bytes :=
  match n with
  | O => []
  | S k => byte_of_Z z :: le_digits k (z / 256)
  end.
Definition int_from_le (b : bytes) : Z :=
  fold_right (fun x acc => byte_val x + 256 * acc) 0 b.

(** A DEFLATE stored block (BTYPE = 00): the final-block bit, the length
    and its complement on 16 bits, the data. *)
Definition stored_block (final : bool) (data : bytes) : bytes :=
  (if final then x01 else x00)
    :: le_digits 2 (Z.of_nat (length data))
    ++ le_digits 2 (65535 - Z.of_nat (length data)) ++ data.

(** The data cut in stored blocks of at most 65535 bytes; [fuel] bounds
    the number of blocks. *)
Fixpoint stored_blocks (fuel : nat) (b : bytes) : bytes :=
  match fuel with
  | O => stored_block true b
  | S fuel =>
      if Z.of_nat (length b) <=? 65535 then stored_block true b
      else stored_block false (take (Z.to_nat 65535) b)
             ++ stored_blocks fuel (drop (Z.to_nat 65535) b)
  end.

(** The member header (method 8, no flags, no time, unknown system), the
    blocks, and the trailer: CRC-32 and length modulo 2^32. *)
Definition stored_compress (b : bytes) : bytes :=
  [x1f; x8b; x08; x00; x00; x00; x00; x00; x00; xff]
    ++ stored_blocks (length b) b
    ++ le_digits 4 (crc32 b) ++ le_digits 4 (Z.of_nat (length b)).

(** Reading stored blocks back: the data and what follows the final
    block. *)
Fixpoint inflate_stored (fuel : nat) (d : bytes) : result (bytes * bytes) :=
  match fuel with
  | O => Raise EOFError
  | S fuel =>
      match d with
      | h :: l0 :: l1 :: n0 :: n1 :: rest =>
          let len := byte_val l0 + 256 * byte_val l1 in
          let nlen := byte_val n0 + 256 * byte_val n1 in
          if negb (Z.land (Z.shiftr (byte_val h) 1) 3 =? 0) then Raise ZlibError
          else if negb (len + nlen =? 65535) then Raise ZlibError
          else if Z.of_nat (length rest) <? len then Raise EOFError
          else
            let data := take (Z.to_nat len) rest in
            let rest := drop (Z.to_nat len) rest in
            if Z.odd (byte_val h) then Return (data, rest)
            else
              match inflate_stored fuel rest with
              | Return (out, rest) => Return (data ++ out, rest)
              | Raise e => Raise e
              end
      | _ => Raise EOFError
      end
  end.

(** A member after its magic number. *)
Definition stored_member (d : bytes) : result bytes :=
  match d with
  | cm :: flg :: _ :: _ :: _ :: _ :: _ :: _ :: body =>
      if negb (byte_val cm =? 8) then Raise BadGzipFile
      else if negb (byte_val flg =? 0) then Raise ZlibError
      else
        match inflate_stored (S (length body)) body with
        | Return (out, [c0; c1; c2; c3; s0; s1; s2; s3]) =>
            if negb (int_from_le [c0; c1; c2; c3] =? crc32 out mod 2 ^ 32)
            then Raise BadGzipFile
            else if negb (int_from_le [s0; s1; s2; s3]
                          =? Z.of_nat (length out) mod 2 ^ 32)
            then Raise BadGzipFile
            else Return out
        | Return _ => Raise EOFError
        | Raise e => Raise e
        end
  | _ => Raise EOFError
  end.

(** As [gzip.decompress] does, the empty input gives the empty output and
    any other input without the magic number is rejected. *)
Definition stored_decompress (d : bytes) : result bytes :=
  match d with
  | [] => Return []
  | x1f :: x8b :: d => stored_member d
  | _ => Raise BadGzipFile
  end.

Definition stored_gzip : Gzip :=
  {| gzip_compress := stored_compress; gzip_decompress := stored_decompress |}.

(** ** Response frames: [parse_response] *)

Record frame : Type := Frame {
  protocol_version : Z;
  header_size : Z;
  message_type : Z;
  message_type_specific_flags : Z;
  serialization_method : Z;
  message_compression : Z;
  reserved : Z;
  header_extensions : bytes;
  payload : bytes
}.

(** Lines 159-167 of [parse_response]: the header fields, the header
    extension and the payload.  Indexing raises [IndexError]; slicing
    never does. *)
Definition decode_header (res : bytes) : M frame :=
  r0 ← index res 0;
  r1 ← index res 1;
  r2 ← index res 2;
  r3 ← index res 3;
  let header_size := Z.land (byte_val r0) 0x0f in
  mret {| protocol_version := Z.shiftr (byte_val r0) 4;
          header_size := header_size;
          message_type := Z.shiftr (byte_val r1) 4;
          message_type_specific_flags := Z.land (byte_val r1) 0x0f;
          serialization_method := Z.shiftr (byte_val r2) 4;
          message_compression := Z.land (byte_val r2) 0x0f;
          reserved := byte_val r3;
          header_extensions := slice 4 (Z.to_nat (header_size * 4)) res;
          payload := drop (Z.to_nat (header_size * 4)) res |}.

Section Protocol.
Context `{Gzip}.

(** [if message_compression == 1: data = gzip.decompress(data)] *)
Definition decompress_if_flagged (message_compression : Z) (data : bytes)
  : M bytes :=
  if message_compression =? 1 then lift (gzip_decompress data)
  else mret data.

(** [data] as it is after [if message_compression == 1: ...]. *)
Definition flagged_data (message_compression : Z) (data : bytes)
  : result bytes :=
  if message_compression =? 1 then gzip_decompress data else Return data.

(** Lines 178-214 of [parse_response]: the branch on the message type.
    The value returned is the caller's [done]. *)
Definition dispatch (fr : frame) : M bool :=
  let payload := payload fr in
  if message_type fr =? 0xb then
    if message_type_specific_flags fr =? 0 then mret false
    else
      let sequence_number := int_from_bytes_signed (take 4 payload) in
      let payload_size := int_from_bytes (slice 4 8 payload) in
      let payload := drop 8 payload in
      file_write payload;;
      if sequence_number <? 0 then mret true else mret false
  else if message_type fr =? 0xf then
    let code := int_from_bytes (take 4 payload) in
    let msg_size := int_from_bytes (slice 4 8 payload) in
    let error_msg := drop 8 payload in
    error_msg ← decompress_if_flagged (message_compression fr) error_msg;
    error_msg ← str_utf8 error_msg;
    logger_error (ErrorMessageCode code);;
    logger_error (ErrorMessageSize msg_size);;
    logger_error (ErrorMessage error_msg);;
    mret true
  else if message_type fr =? 0xc then
    let msg_size := int_from_bytes (take 4 payload) in
    let payload := drop 4 payload in
    payload ← decompress_if_flagged (message_compression fr) payload;
    mret true  (* no return in this branch: the final [return True], line 214 *)
  else
    mret true.

Definition parse_response (res : bytes) : M bool :=
  fr ← decode_header res;
  dispatch fr.

End Protocol.

(** ** Paths: [src/pipecat/utils/path.py] and the segment files of [run_tts]

    A path is a Python [str], the list of its code points.  [os.path.join]
    is the one of [posixpath]. *)

(** [s.startswith(p)] *)
Fixpoint str_startswith (p s : str) : bool :=
  match p, s with
  | [], _ => true
  | _ :: _, [] => false
  | x :: p', y :: s' => (x =? y) && str_startswith p' s'
  end.

(** [s.endswith(p)] *)
Definition str_endswith (p s : str) : bool := str_startswith (rev p) (rev s).

(** [s.find(sub)]: the lowest index at which [sub] occurs in [s], or -1. *)
Fixpoint str_find_from (sub s : str) (i : Z) : Z :=
  if str_startswith sub s then i
  else match s with
       | [] => -1
       | _ :: s' => str_find_from sub s' (i + 1)
       end.

Definition str_find (sub s : str) : Z := str_find_from sub s 0.

(** [s[:i]], for any integer [i]. *)
Definition str_upto (i : Z) (s : str) : str :=
  if i <? 0 then take (Z.to_nat (Z.of_nat (length s) + i)) s
  else take (Z.to_nat i) s.

(** [s.replace(old, new)]: every occurrence, from the left, without
    overlap; [skip] counts the characters of an occurrence still to be
    passed over. *)
Fixpoint str_replace_go (old new : str) (skip : nat) (s : str) : str :=
  match s with
  | [] => []
  | c :: r =>
      match skip with
      | S k => str_replace_go old new k r
      | O =>
          if str_startswith old s
          then new ++ str_replace_go old new (length old - 1) r
          else c :: str_replace_go old new 0 r
      end
  end.

Definition str_replace (old new s : str) : str :=
  match old with
  | [] => new ++ concat ((fun c => c :: new) <$> s)
  | _ :: _ => str_replace_go old new 0 s
  end.

(** [s.split(sep)] for a separator of one character. *)
Fixpoint str_split (sep : Z) (s : str) : list str :=
  match s with
  | [] => [[]]
  | c :: r =>
      if c =? sep then [] :: str_split sep r
      else match str_split sep r with
           | w :: ws => (c :: w) :: ws
           | [] => [[c]]
           end
  end.

(** The character ["/"]. *)
Definition slash : Z := 47.

(** One round of the loop of [posixpath.join]. *)
Definition join_step (path b : str) : str :=
  if str_startswith [slash] b then b
  else if bool_decide (path = []) || str_endswith [slash] path then path ++ b
  else path ++ slash :: b.

(** [os.path.join(a, *p)] *)
Definition os_path_join (a : str) (p : list str) : str :=
  fold_left join_step p a.

Definition PROJECT_ROOT_NAME : str := str_of_string "pipecat".

(** [get_project_root], from the directory [cur_path] of the module
    ([os.path.abspath(os.path.dirname(__file__))]). *)
Definition get_project_root (cur_path : str) : str :=
  str_upto (str_find PROJECT_ROOT_NAME cur_path) cur_path
    ++ PROJECT_ROOT_NAME.

Definition project_root_marker : str := str_of_string "{project_root}/".

(** [parse_path] *)
Definition parse_path (cur_path path : str) : str :=
  if str_startswith project_root_marker path then
    let project_root := get_project_root cur_path in
    let path := str_replace project_root_marker [] path in
    let path := str_split slash path in
    os_path_join project_root path
  else path.

(** [str(n)] for a natural number. *)
Definition str_of_nat (n : nat) : str :=
  str_of_string (NilEmpty.string_of_uint (Nat.to_uint n)).

(** Lines 100, 103 and 132 of [run_tts]: the save path for the identifier
    [tts_id], the prefix of its files and the segment file number [idx]. *)
Definition save_path_of (cur_path tts_id : str) : str :=
  parse_path cur_path
    (str_of_string "{project_root}/var/temp/" ++ tts_id
       ++ str_of_string ".mp3").

Definition file_prefix_of (save_path : str) : str :=
  str_replace (str_of_string ".mp3") [] save_path.

Definition seg_path_of (save_path : str) (idx : nat) : str :=
  str_replace (str_of_string ".mp3")
    (str_of_string "." ++ str_of_nat idx ++ str_of_string ".pcm") save_path.

(** [sub] occurs in [s] at the index [k] and at no lower index. *)
Definition first_at (sub s : str) (k : nat) : Prop :=
  str_startswith sub (drop k s) = true /\
  forall j : nat, (j < k)%nat -> str_startswith sub (drop j s) = false.

(** ** Deleting the files of an earlier session: [delete_file_by_prefix] *)

(** The lines printed by [delete_file_by_prefix]. *)
Inductive printed : Type :=
  | Deleted (file : str)
  | FailedToDelete (file : str).

Definition printed_file (line : printed) : str :=
  match line with Deleted file | FailedToDelete file => file end.

Section Delete.

(** [glob.glob(pattern)] on a file system, and whether [os.remove] is
    allowed to remove a file that exists. *)
Variable glob : gmap str bytes -> str -> list str.
Variable removable : str -> bool.

(** [os.remove(file)]; [None] when it raises (the file does not exist or
    may not be removed). *)
Definition os_remove (file : str) (fs : gmap str bytes)
  : option (gmap str bytes) :=
  match fs !! file with
  | Some _ => if removable file then Some (delete file fs) else None
  | None => None
  end.

(** The body of the loop: [try: os.remove(file) ... except Exception]. *)
Definition delete_step (st : gmap str bytes * list printed) (file : str)
  : gmap str bytes * list printed :=
  match os_remove file (fst st) with
  | Some fs => (fs, snd st ++ [Deleted file])
  | None => (fst st, snd st ++ [FailedToDelete file])
  end.

Definition delete_file_by_prefix (prefix : str) (fs : gmap str bytes)
  : gmap str bytes * list printed :=
  fold_left delete_step (glob fs (prefix ++ str_of_string "*")) (fs, []).

End Delete.

(** ** Merging the segments: [src/pipecat/utils/audio.py]

    [pydub.AudioSegment] is a library class: its constructor, its
    addition, its truth value and its [export] are parameters, each free
    to raise an exception of the library. *)

Inductive tried (E A : Type) : Type :=
  | Done (a : A)
  | Raised (e : E).
Arguments Done {E A} a.
Arguments Raised {E A} e.

Inductive audio_exn (E : Type) : Type :=
  | FileNotFoundError
  | AttributeError
  | LibraryError (e : E).
Arguments FileNotFoundError {E}.
Arguments AttributeError {E}.
Arguments LibraryError {E} e.

Module Audio.
Section Merge.
Context {E A T : Type}.

(** [AudioSegment(data=, sample_width=, frame_rate=, channels=)] *)
Variable audio_segment : bytes -> Z -> Z -> Z -> tried E A.
(** [audio_full + audio_seg] *)
Variable add : A -> A -> tried E A.
(** [bool(audio_full)] *)
Variable truth : A -> bool.
(** [audio_full.export(mp3_path, format="mp3", ...)] *)
Variable export : A -> str -> tried E T.

Variable fs : gmap str bytes.

Definition load_audioseg_from_pcm (path : str)
    (sample_rate channels bit_depth : Z) : tried (audio_exn E) A :=
  match fs !! path with
  | None => Raised FileNotFoundError
  | Some data =>
      match audio_segment data (bit_depth / 8) sample_rate channels with
      | Done audio => Done audio
      | Raised e => Raised (LibraryError e)
      end
  end.

(** The loop of [merge_pcm_list_into_mp3], from the value of [audio_full]
    ([None] is Python's [None]). *)
Fixpoint merge_loop (pcm_segs : list str) (audio_full : option A)
    (sample_rate channels bit_depth : Z) : tried (audio_exn E) (option A) :=
  match pcm_segs with
  | [] => Done audio_full
  | pcm_seg :: pcm_segs =>
      match load_audioseg_from_pcm pcm_seg sample_rate channels bit_depth with
      | Raised e => Raised e
      | Done audio_seg =>
          match audio_full with
          | None =>                      (* [not None] *)
              merge_loop pcm_segs (Some audio_seg)
                sample_rate channels bit_depth
          | Some audio =>
              if negb (truth audio)      (* [not audio_full] *)
              then merge_loop pcm_segs (Some audio_seg)
                     sample_rate channels bit_depth
              else
                match add audio audio_seg with
                | Done audio =>
                    merge_loop pcm_segs (Some audio)
                      sample_rate channels bit_depth
                | Raised e => Raised (LibraryError e)
                end
          end
      end
  end.

Definition merge_pcm_list_into_mp3 (pcm_segs : list str) (mp3_path : str)
    (sample_rate channels bit_depth : Z) : tried (audio_exn E) T :=
  match merge_loop pcm_segs None sample_rate channels bit_depth with
  | Raised e => Raised e
  | Done None => Raised AttributeError
  | Done (Some audio_full) =>
      match export audio_full mp3_path with
      | Done r => Done r
      | Raised e => Raised (LibraryError e)
      end
  end.

(** The audio of segments in a row: [a + b1 + b2 + ...]. *)
Fixpoint add_all (a : A) (rest : list A) : tried E A :=
  match rest with
  | [] => Done a
  | b :: rest =>
      match add a b with
      | Done c => add_all c rest
      | Raised e => Raised e
      end
  end.

End Merge.
End Audio.

(** ** The request frame and the receive loop: [run_tts] *)

(** [self.default_header] *)
Definition default_header : bytes := [x11; x10; x11; x00].

(** A frame handed to the pipeline by [yield]. *)
Inductive pipeline_frame : Type :=
  | AudioRawFrame (audio : bytes) (sample_rate : Z) (num_channels : Z).

(** [pydub.AudioSegment] as [merge_pcm_list_into_mp3] uses it: the class,
    what [export] returns, and its constructor, addition, truth value and
    [export], each free to raise. *)
Class Pydub : Type := {
  AudioSegment : Type;
  Exported : Type;
  pydub_segment : bytes -> Z -> Z -> Z -> tried exn AudioSegment;
  pydub_add : AudioSegment -> AudioSegment -> tried exn AudioSegment;
  pydub_truth : AudioSegment -> bool;
  pydub_export : AudioSegment -> str -> tried exn Exported
}.

(** How the generator ends: [Completed] when the loop reaches [break],
    after [merge_pcm_list_into_mp3] has returned; [Failed e] when the
    exception [e] leaves the loop from [ws.recv], from [parse_response] or
    from the resampling of a segment; [MergeFailed e] when the exception
    [e] leaves [merge_pcm_list_into_mp3]. *)
Inductive outcome : Type :=
  | Completed
  | Failed (e : exn)
  | MergeFailed (e : audio_exn exn).

(** The local variables and the effects of one call of [run_tts].  The
    segment file [seg_path] is the save path with [.mp3] replaced by
    [.{idx}.pcm]; it is identified with its index.  [files] maps each
    segment file that exists to its content; [merged] holds the list
    handed to [merge_pcm_list_into_mp3] once that call has returned. *)
Record session : Type := Session {
  idx : nat;
  seg_list : list nat;
  files : gmap nat bytes;
  logs : list log_entry;
  sent : list bytes;
  yielded : list pipeline_frame;
  merged : option (list nat)
}.

(** The save path is fresh (it is named after a new UUID, and files with
    its prefix are deleted first): no segment file exists yet. *)
Definition session_start : session :=
  {| idx := 0; seg_list := []; files := ∅; logs := []; sent := [];
     yielded := []; merged := None |}.

(** [idx += 1; seg_list.append(seg_path)] *)
Definition next_segment (seg_path : nat) (s : session) : session :=
  {| idx := S (idx s); seg_list := seg_list s ++ [seg_path];
     files := files s; logs := logs s; sent := sent s;
     yielded := yielded s; merged := merged s |}.

(** [yield frame] *)
Definition yield (frame : pipeline_frame) (s : session) : session :=
  {| idx := idx s; seg_list := seg_list s; files := files s;
     logs := logs s; sent := sent s; yielded := yielded s ++ [frame];
     merged := merged s |}.

(** The session once [merge_pcm_list_into_mp3(seg_list, save_path)] has
    returned. *)
Definition merge_returned (s : session) : session :=
  {| idx := idx s; seg_list := seg_list s; files := files s;
     logs := logs s; sent := sent s; yielded := yielded s;
     merged := Some (seg_list s) |}.

Section Session.
Context `{Gzip} {P : Pydub}.

(** The threshold argument of [run_tts]. *)
Variable seg_size : Z.

(** [np.fromfile(seg_path, dtype=np.int16)], [resampy.resample(_, 24000,
    16000)] and [.astype(np.int16).tobytes()], on the content of a segment
    file that holds a sample.  [resampy.resample] raises: a signal too
    short for the ratio is a [ValueError]. *)
Variable resample : bytes -> result bytes.

(** The directory of [path.py],
    [os.path.abspath(os.path.dirname(__file__))], and the identifier
    drawn at line 99, [str(uuid.uuid4())].  They make the save path of
    line 100, [save_path_of cur_path tts_id]; it ends with [.mp3], so
    that the segment files of line 132 are distinct and a segment file
    stands for its number. *)
Variable cur_path : str.
Variable tts_id : str.

(** Lines 116-120: the request frame for the encoded JSON document. *)
Definition full_client_request (payload_bytes : bytes) : result bytes :=
  let payload_bytes := gzip_compress payload_bytes in
  match to_bytes (Z.of_nat (length payload_bytes)) 4 with
  | Return size => Return (default_header ++ size ++ payload_bytes)
  | Raise e => Raise e
  end.

(** Lines 138-148: the segment file is finished.  The segment is counted
    and listed first; an exception of the resampling leaves from here,
    before anything is yielded. *)
Definition close_segment (seg_path : nat) (content : bytes) (s : session)
  : result unit * session :=
  let s := next_segment seg_path s in
  let audio_np_len := Z.of_nat (length content) / 2 in
  if 0 <? audio_np_len then
    match resample content with
    | Raise e => (Raise e, s)
    | Return resampled_audio_bytes =>
        (Return tt, yield (AudioRawFrame resampled_audio_bytes 16000 1) s)
    end
  else (Return tt, s).

(** Lines 130-148: one iteration of the loop on the received message
    [res], up to the test of [done] at line 150. *)
Definition recv_step (res : bytes) (s : session) : result bool * session :=
  let seg_path := idx s in
  (* open(seg_path, "ab"): created when absent, written at its end *)
  let '(r, w) :=
    parse_response res (World (default [] (files s !! seg_path)) (logs s)) in
  let s := {| idx := idx s; seg_list := seg_list s;
              files := <[seg_path := file w]> (files s);
              logs := logged w; sent := sent s; yielded := yielded s;
              merged := merged s |} in
  match r with
  | Raise e => (Raise e, s)
  | Return done =>
      if done || (seg_size <? Z.of_nat (length (file w)))
      then match close_segment seg_path (file w) s with
           | (Raise e, s) => (Raise e, s)
           | (Return _, s) => (Return done, s)
           end
      else (Return done, s)
  end.

(** The segment files as [merge_pcm_list_into_mp3] finds them: the file
    numbered [i] is at the path [seg_path_of save_path i]. *)
Definition seg_files (s : session) : gmap str bytes :=
  let save_path := save_path_of cur_path tts_id in
  kmap (seg_path_of save_path) (files s).

(** Line 151: [merge_pcm_list_into_mp3(seg_list, save_path)], with the
    default sample rate, channels and bit depth of its signature. *)
Definition merge_seg_list (s : session) : tried (audio_exn exn) Exported :=
  let save_path := save_path_of cur_path tts_id in
  Audio.merge_pcm_list_into_mp3
    pydub_segment pydub_add pydub_truth pydub_export (seg_files s)
    (seg_path_of save_path <$> seg_list s) save_path 24000 1 16.

(** Lines 129-153: [incoming] is what the successive [ws.recv()] return;
    when it is exhausted the connection is closed. *)
Fixpoint recv_loop (incoming : list bytes) (s : session)
  : outcome * session :=
  match incoming with
  | [] => (Failed ConnectionClosed, s)
  | res :: incoming =>
      match recv_step res s with
      | (Raise e, s) => (Failed e, s)
      | (Return true, s) =>
          match merge_seg_list s with
          | Raised e => (MergeFailed e, s)
          | Done _ => (Completed, merge_returned s)
          end
      | (Return false, s) => recv_loop incoming s
      end
  end.

(** [run_tts], from the encoded request document
    [str.encode(json.dumps(submit_request_json))]: the request frame is
    sent, then the loop runs. *)
Definition run_tts (payload_bytes : bytes) (incoming : list bytes)
  : outcome * session :=
  match full_client_request payload_bytes with
  | Raise e => (Failed e, session_start)
  | Return req =>
      recv_loop incoming
        {| idx := 0; seg_list := []; files := ∅; logs := [];
           sent := [req]; yielded := []; merged := None |}
  end.

(** The content of the closed segments, in the order of [seg_list]. *)
Definition segments (s : session) : list bytes :=
  (fun seg_path => default [] (files s !! seg_path)) <$> seg_list s.

End Session.

(** The result and the effects of [parse_response] on a message, from an
    empty file and an empty log. *)
Section Effects.
Context `{Gzip}.

Definition done_of (res : bytes) : result bool :=
  fst (parse_response res (World [] [])).

Definition audio_of (res : bytes) : bytes :=
  file (snd (parse_response res (World [] []))).

Definition logged_of (res : bytes) : list log_entry :=
  logged (snd (parse_response res (World [] []))).

Definition header_of (res : bytes) : result frame :=
  fst (decode_header res (World [] [])).

(** An acknowledgement: an audio-only response without sequence number. *)
Definition is_ack (res : bytes) : bool :=
  match header_of res with
  | Return fr =>
      (message_type fr =? 0xb) && (message_type_specific_flags fr =? 0)
  | Raise _ => false
  end.

(** The session after [parse_response] has run on [res]: the current
    segment file has grown by the audio of [res]. *)
Definition after_parse (res : bytes) (s : session) : session :=
  {| idx := idx s; seg_list := seg_list s;
     files := <[idx s := default [] (files s !! idx s) ++ audio_of res]> (files s);
     logs := logs s ++ logged_of res; sent := sent s; yielded := yielded s;
     merged := merged s |}.

(** The content of the current segment file (empty when it does not
    exist yet). *)
Definition current (s : session) : bytes := default [] (files s !! idx s).

End Effects.

(** ** Segments *)

(** The segment files closed so far have indices below [idx], and no
    segment file exists beyond the current one. *)
Definition session_inv (s : session) : Prop :=
  Forall (fun seg_path => (seg_path < idx s)%nat) (seg_list s) /\
  forall i : nat, (idx s < i)%nat -> files s !! i = None.

(** [len(audio_np) > 0]: the segment holds a 16-bit sample. *)
Definition has_sample (seg : bytes) : bool :=
  0 <? Z.of_nat (length seg) / 2.

(** The exception with which the resampling of a closed segment leaves,
    if any; a segment without sample is not resampled. *)
Definition resample_error (resample : bytes -> result bytes) (seg : bytes)
  : option exn :=
  if has_sample seg then
    match resample seg with
    | Return _ => None
    | Raise e => Some e
    end
  else None.

(** The frame yielded for a closed segment: none when it holds no sample
    or when its resampling raises. *)
Definition frame_of (resample : bytes -> result bytes) (seg : bytes)
  : list pipeline_frame :=
  if has_sample seg then
    match resample seg with
    | Return resampled_audio_bytes =>
        [AudioRawFrame resampled_audio_bytes 16000 1]
    | Raise _ => []
    end
  else [].

(** The frames yielded for a list of closed segments. *)
Definition frames_of (resample : bytes -> result bytes) (segs : list bytes)
  : list pipeline_frame :=
  concat (frame_of resample <$> segs).

(** The session after the segment of content [content] has been closed,
    whether its resampling raised or not. *)
Definition after_close (resample : bytes -> result bytes) (content : bytes)
    (s : session) : session :=
  {| idx := S (idx s); seg_list := seg_list s ++ [idx s];
     files := files s; logs := logs s; sent := sent s;
     yielded := yielded s ++ frame_of resample content;
     merged := merged s |}.


(** ** Messages used as examples *)

(** An audio-only response with a sequence number and its audio. *)
Definition audio_only_response (flags sequence_number : Z) (audio : bytes)
  : bytes :=
  [x11; byte_of_Z (0xb0 + flags); x10; x00]
    ++ be_digits 4 sequence_number
    ++ be_digits 4 (Z.of_nat (length audio)) ++ audio.

(** An error response; [msg] is the message as it travels. *)
Definition error_response (compression code : Z) (msg : bytes) : bytes :=
  [x11; xf0; byte_of_Z (0x10 + compression); x00]
    ++ be_digits 4 code ++ be_digits 4 (Z.of_nat (length msg)) ++ msg.

(** A frontend response; [msg] is the message as it travels. *)
Definition frontend_response (compression : Z) (msg : bytes) : bytes :=
  [x11; xc0; byte_of_Z (0x10 + compression); x00]
    ++ be_digits 4 (Z.of_nat (length msg)) ++ msg.

(** An acknowledgement. *)
Definition ack_response : bytes := [x11; xb0; x10; x00].

Definition world_start : world := World [] [].

(** An audio-only response with sequence number 1 whose payload stops in
    the middle of the declared size. *)
Definition short_audio_response : bytes :=
  [x11; xb1; x10; x00; x00; x00; x00; x01; x05].

(** The error response of the specification: code 55, message
    "invalid voice", compressed. *)
Definition invalid_voice_response : bytes :=
  error_response 1 55 (stored_compress (bytes_of_string "invalid voice")).

(** Four bytes that declare a header of 15 units, that is 60 bytes. *)
Definition oversized_header_response : bytes := [x1f; xb0; x00; x00].

(** A message of type [0x1]: the header the client itself sends. *)
Definition full_client_request_header : bytes := [x11; x10; x11; x00].

(** An uncompressed frontend response, and the last audio of a stream:
    two samples. *)
Definition frontend_example : bytes :=
  frontend_response 0 (bytes_of_string "{}").
Definition last_audio_example : bytes :=
  audio_only_response 1 (-1) [x01; x02; x03; x04].


(** A resampler for the examples.  Like [resampy.resample(_, 24000,
    16000)] it returns two samples for three and raises [ValueError] when
    that leaves no sample, as it does for a signal of one sample; the
    samples it returns are the leading ones. *)
Definition resample_example (pcm : bytes) : result bytes :=
  let n := Z.of_nat (length pcm) / 2 in
  let m := n * 16000 / 24000 in
  if m <? 1 then Raise ValueError
  else Return (take (Z.to_nat (2 * m)) pcm).

(** A [pydub] for the examples.  An [AudioSegment] is its raw data; the
    constructor raises [ValueError] on data that is no whole number of
    frames; the truth value is that of [len()], the duration in
    milliseconds, which rounds to 0 up to 12 frames of two bytes at 24000
    frames per second; the addition concatenates; [export] returns the
    data. *)
Definition pydub_example : Pydub :=
  {| AudioSegment := bytes;
     Exported := bytes;
     pydub_segment data sample_width frame_rate channels :=
       if Z.of_nat (length data) mod (sample_width * channels) =? 0
       then Done data else Raised ValueError;
     pydub_add a b := Done (a ++ b);
     pydub_truth a := 12 <? Z.of_nat (length a) / 2;
     pydub_export a mp3_path := Done a |}.

(** The directory of the module and the identifier of the examples. *)
Definition cur_path_example : str :=
  str_of_string "/srv/pipecat/src/pipecat/utils".
Definition tts_id_example : str :=
  str_of_string "2f1e4fc2-7d3a-4b0c-9b65-0c1f6d1c2a77".

(** * Properties *)

(** ** Bytes and integers *)

Lemma byte_val_range (b : byte) : 0 <= byte_val b < 256.
Proof.
  unfold byte_val. pose proof (Byte.to_N_bounded b) as Hb. lia.
Qed.

Lemma byte_val_of_Z (z : Z) : byte_val (byte_of_Z z) = z mod 256.
Proof.
  unfold byte_of_Z, byte_val.
  assert (Hr : 0 <= z mod 256 < 256) by (apply Z.mod_pos_bound; lia).
  destruct (Byte.of_N (Z.to_N (z mod 256))) as [b|] eqn:Hb.
  - apply Byte.to_of_N in Hb. simpl. rewrite Hb. lia.
  - apply Byte.of_N_None_iff in Hb. lia.
Qed.

Lemma byte_of_Z_val (b : byte) : byte_of_Z (byte_val b) = b.
Proof.
  unfold byte_of_Z. pose proof (byte_val_range b) as Hr.
  rewrite Z.mod_small by lia. unfold byte_val.
  rewrite N2Z.id, Byte.of_to_N. reflexivity.
Qed.

Lemma length_be_digits (n : nat) (z : Z) : length (be_digits n z) = n.
Proof.
  revert z. induction n as [|n IH]; intros z; simpl; [reflexivity|].
  rewrite length_app, IH. simpl. lia.
Qed.

Lemma int_from_bytes_snoc (b : bytes) (x : byte) :
  int_from_bytes (b ++ [x]) = int_from_bytes b * 256 + byte_val x.
Proof. unfold int_from_bytes. rewrite fold_left_app. reflexivity. Qed.

Lemma int_from_bytes_range (b : bytes) :
  0 <= int_from_bytes b < 256 ^ Z.of_nat (length b).
Proof.
  induction b as [|x b IH] using rev_ind.
  - simpl. unfold int_from_bytes. simpl. lia.
  - rewrite int_from_bytes_snoc, length_app. simpl length.
    rewrite Nat2Z.inj_add, Z.pow_add_r by lia.
    change (256 ^ Z.of_nat 1) with 256.
    pose proof (byte_val_range x). nia.
Qed.

(** Decoding the [n] big-endian digits of [z] gives [z] modulo [256^n]. *)
Lemma int_from_bytes_be_digits (n : nat) (z : Z) :
  int_from_bytes (be_digits n z) = z mod 256 ^ Z.of_nat n.
Proof.
  revert z. induction n as [|n IH]; intros z.
  - simpl. rewrite Z.mod_1_r. reflexivity.
  - cbn [be_digits]. rewrite int_from_bytes_snoc, IH, byte_val_of_Z.
    rewrite Nat2Z.inj_succ, Z.pow_succ_r by lia.
    rewrite Z.rem_mul_r by lia. lia.
Qed.

Lemma to_bytes_ok (z : Z) (n : nat) :
  0 <= z < 256 ^ Z.of_nat n ->
  to_bytes z n = Return (be_digits n z) /\
  int_from_bytes (be_digits n z) = z.
Proof.
  intros Hz. unfold to_bytes.
  destruct (z <? 0) eqn:H0; [lia|].
  destruct (256 ^ Z.of_nat n <=? z) eqn:H1; [lia|].
  split; [reflexivity|].
  rewrite int_from_bytes_be_digits. apply Z.mod_small. lia.
Qed.

(** ** The reference gzip instance *)

Lemma int_from_le_digits (n : nat) (z : Z) :
  int_from_le (le_digits n z) = z mod 256 ^ Z.of_nat n.
Proof.
  revert z. induction n as [|n IH]; intros z.
  - simpl. rewrite Z.mod_1_r. reflexivity.
  - cbn [le_digits int_from_le fold_right].
    fold (int_from_le (le_digits n (z / 256))).
    rewrite IH, byte_val_of_Z.
    rewrite Nat2Z.inj_succ, Z.pow_succ_r by lia.
    rewrite Z.rem_mul_r by lia. reflexivity.
Qed.

Lemma inflate_stored_block (final : bool) (data tail : bytes) (fuel : nat) :
  Z.of_nat (length data) <= 65535 ->
  inflate_stored (S fuel) (stored_block final data ++ tail) =
  if final then Return (data, tail)
  else match inflate_stored fuel tail with
       | Return (out, rest) => Return (data ++ out, rest)
       | Raise e => Raise e
       end.
Proof.
  intros Hlen. set (len := Z.of_nat (length data)) in *.
  assert (Hlen0 : 0 <= len) by (subst len; lia).
  unfold stored_block. fold len. cbn [le_digits app inflate_stored].
  rewrite !byte_val_of_Z.
  assert (E1 : len mod 256 + 256 * (len / 256 mod 256) = len).
  { rewrite <- Z.rem_mul_r by lia. apply Z.mod_small. lia. }
  assert (E2 : (65535 - len) mod 256 + 256 * ((65535 - len) / 256 mod 256)
               = 65535 - len).
  { rewrite <- Z.rem_mul_r by lia. apply Z.mod_small. lia. }
  rewrite E1, E2.
  assert (Hty : (Z.land (Z.shiftr (byte_val (if final then x01 else x00)) 1) 3
                 =? 0) = true) by (destruct final; reflexivity).
  rewrite Hty. cbn [negb].
  replace (len + (65535 - len) =? 65535) with true
    by (symmetry; apply Z.eqb_eq; lia).
  cbn [negb].
  replace (Z.of_nat (length (data ++ tail)) <? len) with false
    by (symmetry; apply Z.ltb_ge; rewrite length_app; subst len; lia).
  replace (Z.to_nat len) with (length data) by (subst len; lia).
  rewrite take_app_length, drop_app_length.
  destruct final; reflexivity.
Qed.

Lemma inflate_stored_blocks (fuel : nat) :
  forall (b tail : bytes) (fuel' : nat),
    (length b <= fuel)%nat ->
    (length b <= fuel')%nat ->
    inflate_stored (S fuel') (stored_blocks fuel b ++ tail) = Return (b, tail).
Proof.
  induction fuel as [|fuel IH]; intros b tail fuel' Hfuel Hfuel'.
  - cbn [stored_blocks]. rewrite (inflate_stored_block true) by lia.
    reflexivity.
  - cbn [stored_blocks].
    destruct (Z.of_nat (length b) <=? 65535) eqn:Hshort.
    + rewrite (inflate_stored_block true) by lia. reflexivity.
    + apply Z.leb_gt in Hshort.
      rewrite <- app_assoc.
      rewrite (inflate_stored_block false)
        by (rewrite length_take; lia).
      destruct fuel' as [|fuel']; [lia|].
      rewrite IH by (rewrite length_drop; lia).
      rewrite take_drop. reflexivity.
Qed.

Lemma length_stored_blocks (fuel : nat) (b : bytes) :
  (length b <= length (stored_blocks fuel b))%nat.
Proof.
  revert b. induction fuel as [|fuel IH]; intros b; cbn [stored_blocks].
  - unfold stored_block. cbn [length le_digits app]. lia.
  - destruct (Z.of_nat (length b) <=? 65535).
    + unfold stored_block. cbn [length le_digits app]. lia.
    + rewrite length_app. unfold stored_block. cbn [length le_digits app].
      pose proof (IH (drop (Z.to_nat 65535) b)) as Hrest.
      rewrite length_drop in Hrest. rewrite length_take. lia.
Qed.

Lemma stored_decompress_compress (b : bytes) :
  stored_decompress (stored_compress b) = Return b.
Proof.
  unfold stored_compress. cbn [app stored_decompress stored_member].
  change (byte_val x08 =? 8) with true. change (byte_val x00 =? 0) with true.
  cbn [negb].
  rewrite inflate_stored_blocks;
    [| lia
     | rewrite length_app;
       pose proof (length_stored_blocks (length b) b); lia].
  cbn [le_digits app].
  change [byte_of_Z (crc32 b); byte_of_Z (crc32 b / 256);
          byte_of_Z (crc32 b / 256 / 256);
          byte_of_Z (crc32 b / 256 / 256 / 256)]
    with (le_digits 4 (crc32 b)).
  change [byte_of_Z (Z.of_nat (length b));
          byte_of_Z (Z.of_nat (length b) / 256);
          byte_of_Z (Z.of_nat (length b) / 256 / 256);
          byte_of_Z (Z.of_nat (length b) / 256 / 256 / 256)]
    with (le_digits 4 (Z.of_nat (length b))).
  rewrite !int_from_le_digits. change (256 ^ Z.of_nat 4) with (2 ^ 32).
  rewrite !Z.eqb_refl. reflexivity.
Qed.

Lemma stored_bad_magic (b : bytes) :
  b <> [] -> take 2 b <> [x1f; x8b] -> stored_decompress b = Raise BadGzipFile.
Proof.
  intros Hne Hmagic.
  destruct b as [|b0 [|b1 data]]; [congruence | |].
  - destruct b0; reflexivity.
  - destruct b0; try reflexivity.
    destruct b1; try reflexivity.
    exfalso; apply Hmagic; reflexivity.
Qed.

Lemma stored_gzip_laws : GzipLaws stored_gzip.
Proof.
  split; [exact stored_decompress_compress | exact stored_bad_magic].
Qed.

(** ** The effect monad *)

Ltac unfold_M :=
  unfold decompress_if_flagged, str_utf8, index, file_write, logger_error in *;
  unfold mbind, M_bind, mret, M_ret, raise, lift in *.

Lemma world_eta (w : world) : World (file w) (logged w) = w.
Proof. destruct w; reflexivity. Qed.

(** ** Decoding the header *)

Lemma decode_header_short (res : bytes) (w : world) :
  (length res < 4)%nat -> decode_header res w = (Raise IndexError, w).
Proof.
  intros Hlen. unfold decode_header.
  destruct res as [|r0 [|r1 [|r2 [|r3 rest]]]]; simpl in Hlen;
    try reflexivity; lia.
Qed.

Lemma decode_header_cons (r0 r1 r2 r3 : byte) (rest : bytes) (w : world) :
  let res := r0 :: r1 :: r2 :: r3 :: rest in
  let header_size := Z.land (byte_val r0) 0x0f in
  decode_header res w =
  (Return {| protocol_version := Z.shiftr (byte_val r0) 4;
             header_size := header_size;
             message_type := Z.shiftr (byte_val r1) 4;
             message_type_specific_flags := Z.land (byte_val r1) 0x0f;
             serialization_method := Z.shiftr (byte_val r2) 4;
             message_compression := Z.land (byte_val r2) 0x0f;
             reserved := byte_val r3;
             header_extensions := slice 4 (Z.to_nat (header_size * 4)) res;
             payload := drop (Z.to_nat (header_size * 4)) res |}, w).
Proof. reflexivity. Qed.

(** Decoding reads, it has no effect: its result does not depend on the
    state and the state is unchanged. *)
Lemma decode_header_pure (res : bytes) (w : world) :
  decode_header res w = (header_of res, w).
Proof.
  unfold header_of.
  destruct (Nat.lt_ge_cases (length res) 4) as [Hlt|Hge].
  - rewrite !decode_header_short by assumption. reflexivity.
  - destruct res as [|r0 [|r1 [|r2 [|r3 rest]]]]; simpl in Hge; try lia.
    reflexivity.
Qed.

Lemma header_of_Return (res : bytes) (fr : frame) :
  header_of res = Return fr ->
  (4 <= length res)%nat /\
  payload fr = drop (Z.to_nat (header_size fr * 4)) res /\
  header_extensions fr = slice 4 (Z.to_nat (header_size fr * 4)) res /\
  0 <= header_size fr < 16.
Proof.
  intros Hfr.
  destruct (Nat.lt_ge_cases (length res) 4) as [Hlt|Hge].
  - unfold header_of in Hfr. rewrite decode_header_short in Hfr by assumption.
    discriminate.
  - split; [assumption|].
    destruct res as [|r0 [|r1 [|r2 [|r3 rest]]]]; simpl in Hge; try lia.
    unfold header_of in Hfr. rewrite decode_header_cons in Hfr.
    injection Hfr as <-. cbn [payload header_extensions header_size].
    repeat split; try reflexivity.
    + apply Z.land_nonneg. right. lia.
    + change 0x0f with (Z.ones 4). rewrite Z.land_ones by lia.
      apply Z.mod_pos_bound. lia.
Qed.

Section ParseResponse.
Context `{Gzip}.

(** [parse_response] only appends to the file and to the log, and what
    it returns and appends depends on the message alone. *)
Lemma dispatch_effects (fr : frame) (w : world) :
  dispatch fr w =
  (fst (dispatch fr (World [] [])),
   World (file w ++ file (snd (dispatch fr (World [] []))))
         (logged w ++ logged (snd (dispatch fr (World [] []))))).
Proof.
  unfold dispatch. unfold_M.
  repeat match goal with
         | |- context [if ?c then _ else _] => destruct c
         | |- context [gzip_decompress ?d] => destruct (gzip_decompress d)
         | |- context [utf8_decode ?d] => destruct (utf8_decode d)
         end;
    cbn [fst snd file logged app]; rewrite ?app_nil_r, ?world_eta;
    try reflexivity; rewrite <- ?app_assoc; reflexivity.
Qed.

Lemma parse_response_dispatch (res : bytes) (w : world) :
  parse_response res w =
  match header_of res with
  | Return fr => dispatch fr w
  | Raise e => (Raise e, w)
  end.
Proof.
  unfold parse_response. unfold mbind, M_bind.
  rewrite decode_header_pure. destruct (header_of res); reflexivity.
Qed.

Lemma parse_response_effects (res : bytes) (w : world) :
  parse_response res w =
  (done_of res, World (file w ++ audio_of res) (logged w ++ logged_of res)).
Proof.
  unfold done_of, audio_of, logged_of.
  rewrite !parse_response_dispatch.
  destruct (header_of res) as [fr|e].
  - apply dispatch_effects.
  - cbn [fst snd file logged]. rewrite !app_nil_r, world_eta. reflexivity.
Qed.

End ParseResponse.

(** ** Signed sequence numbers *)

(** A 32-bit signed integer is recovered from its four big-endian
    two's-complement digits. *)
Lemma int_from_bytes_signed_be_digits_4 (z : Z) :
  - 2 ^ 31 <= z < 2 ^ 31 -> int_from_bytes_signed (be_digits 4 z) = z.
Proof.
  intros Hz. unfold int_from_bytes_signed.
  rewrite int_from_bytes_be_digits, length_be_digits.
  change (8 * Z.of_nat 4) with 32. change (256 ^ Z.of_nat 4) with (2 ^ 32).
  change (32 - 1) with 31. cbn [andb Z.ltb Z.compare].
  destruct (Z.lt_ge_cases z 0) as [Hneg|Hpos].
  - assert (Hm : z mod 2 ^ 32 = z + 2 ^ 32).
    { symmetry. apply Z.mod_unique with (q := -1); lia. }
    rewrite Hm. destruct (2 ^ 31 <=? z + 2 ^ 32) eqn:Hc; lia.
  - rewrite Z.mod_small by lia.
    destruct (2 ^ 31 <=? z) eqn:Hc; lia.
Qed.

Lemma int_from_bytes_signed_range_4 (b : bytes) :
  length b = 4%nat -> - 2 ^ 31 <= int_from_bytes_signed b < 2 ^ 31.
Proof.
  intros Hlen. unfold int_from_bytes_signed.
  pose proof (int_from_bytes_range b) as Hr. rewrite Hlen in *.
  change (8 * Z.of_nat 4) with 32. change (256 ^ Z.of_nat 4) with (2 ^ 32) in Hr.
  change (32 - 1) with 31. cbn [andb Z.ltb Z.compare].
  destruct (2 ^ 31 <=? int_from_bytes b) eqn:Hc; lia.
Qed.

Lemma byte_of_Z_congr (z z' : Z) :
  z mod 256 = z' mod 256 -> byte_of_Z z = byte_of_Z z'.
Proof. intros Hz. unfold byte_of_Z. rewrite Hz. reflexivity. Qed.

(** The digits of [z] depend on [z] modulo [256^n] only. *)
Lemma be_digits_mod (n : nat) (z : Z) :
  be_digits n (z mod 256 ^ Z.of_nat n) = be_digits n z.
Proof.
  revert z. induction n as [|n IH]; intros z; [reflexivity|].
  cbn [be_digits].
  rewrite Nat2Z.inj_succ, Z.pow_succ_r by lia.
  assert (Hp : 0 < 256 ^ Z.of_nat n) by (apply Z.pow_pos_nonneg; lia).
  rewrite Z.rem_mul_r by lia.
  pose proof (Z.mod_pos_bound z 256 ltac:(lia)) as Hm.
  f_equal.
  - rewrite <- (IH (z / 256)). f_equal.
    rewrite Z.mul_comm, Z.div_add by lia.
    rewrite Z.div_small by lia. lia.
  - f_equal. apply byte_of_Z_congr.
    rewrite Z.mul_comm, Z.mod_add by lia. apply Z.mod_mod. lia.
Qed.

Lemma be_digits_int_from_bytes (b : bytes) :
  be_digits (length b) (int_from_bytes b) = b.
Proof.
  induction b as [|x b IH] using rev_ind; [reflexivity|].
  rewrite length_app, Nat.add_1_r, int_from_bytes_snoc. cbn [length be_digits].
  pose proof (byte_val_range x) as Hx.
  f_equal.
  - rewrite Z.add_comm, Z.div_add by lia. rewrite Z.div_small by lia.
    exact IH.
  - f_equal. rewrite <- (byte_of_Z_val x) at 2. apply byte_of_Z_congr.
    rewrite Z.add_comm, Z.mod_add by lia. reflexivity.
Qed.

(** Every four bytes are the digits of their signed value. *)
Lemma be_digits_int_from_bytes_signed_4 (b : bytes) :
  length b = 4%nat -> be_digits 4 (int_from_bytes_signed b) = b.
Proof.
  intros Hlen. rewrite <- (be_digits_int_from_bytes b) at 2. rewrite Hlen.
  unfold int_from_bytes_signed. rewrite Hlen.
  destruct ((0 <? 8 * Z.of_nat 4) && _); [|reflexivity].
  rewrite <- be_digits_mod, <- (be_digits_mod 4 (int_from_bytes b)). f_equal.
  change (256 ^ Z.of_nat 4) with (2 ^ 32). change (8 * Z.of_nat 4) with 32.
  rewrite <- (Z.mod_add _ 1 (2 ^ 32)) by lia. f_equal. lia.
Qed.

(** ** Audio-only responses *)

Section AudioOnly.
Context `{Gzip}.

Lemma dispatch_ack (fr : frame) (w : world) :
  message_type fr = 0xb -> message_type_specific_flags fr = 0 ->
  dispatch fr w = (Return false, w).
Proof. intros Ht Hf. unfold dispatch. rewrite Ht, Hf. reflexivity. Qed.

Lemma dispatch_audio (fr : frame) (w : world) :
  message_type fr = 0xb -> message_type_specific_flags fr <> 0 ->
  dispatch fr w =
  (Return (int_from_bytes_signed (take 4 (payload fr)) <? 0),
   World (file w ++ drop 8 (payload fr)) (logged w)).
Proof.
  intros Ht Hf. unfold dispatch. rewrite Ht.
  apply Z.eqb_neq in Hf. rewrite Hf. cbn [Z.eqb Pos.eqb]. unfold_M.
  destruct (int_from_bytes_signed (take 4 (payload fr)) <? 0); reflexivity.
Qed.

End AudioOnly.

(** C1. An audio-only response (message type [0xb]) with a non-zero flags
    nibble whose payload starts with the four big-endian two's-complement
    bytes of the sequence number [seq], for any 32-bit [seq] (so also for
    -1, 0, 1, INT32_MIN and INT32_MAX), is interpreted without exception,
    and the value returned is [True] if and only if [seq < 0]. *)
Theorem C1_audio_terminal_iff_sequence_negative
    `{Gzip} (res : bytes) (fr : frame) (w : world) (seq : Z) :
  header_of res = Return fr ->
  message_type fr = 0xb ->
  message_type_specific_flags fr <> 0 ->
  - 2 ^ 31 <= seq <= 2 ^ 31 - 1 ->
  take 4 (payload fr) = be_digits 4 seq ->
  exists done : bool,
    parse_response res w =
      (Return done, World (file w ++ drop 8 (payload fr)) (logged w)) /\
    (done = true <-> seq < 0).
Proof.
  intros Hfr Ht Hf Hseq Hhead.
  exists (seq <? 0). split.
  - rewrite parse_response_dispatch, Hfr, dispatch_audio by assumption.
    rewrite Hhead, int_from_bytes_signed_be_digits_4 by lia. reflexivity.
  - apply Z.ltb_lt.
Qed.

Lemma C1_witness :
  exists done : bool,
    parse_response (H := stored_gzip)
      (audio_only_response 1 (- 2 ^ 31) [x01; x02]) world_start =
      (Return done, World [x01; x02] []) /\
    (done = true <-> - 2 ^ 31 < 0).
Proof.
  apply (C1_audio_terminal_iff_sequence_negative (H := stored_gzip)
           (audio_only_response 1 (- 2 ^ 31) [x01; x02])
           (Frame 1 1 0xb 1 1 0 0 []
              (be_digits 4 (- 2 ^ 31) ++ be_digits 4 2 ++ [x01; x02]))
           world_start (- 2 ^ 31)).
  - reflexivity.
  - reflexivity.
  - discriminate.
  - lia.
  - reflexivity.
Defined.

(** The boundary sequence numbers, by evaluation. *)
Example audio_terminal_boundaries :
  done_of (H := stored_gzip) (audio_only_response 1 (-1) []) = Return true /\
  done_of (H := stored_gzip) (audio_only_response 1 0 []) = Return false /\
  done_of (H := stored_gzip) (audio_only_response 1 1 []) = Return false /\
  done_of (H := stored_gzip) (audio_only_response 1 (- 2 ^ 31) []) = Return true /\
  done_of (H := stored_gzip) (audio_only_response 1 (2 ^ 31 - 1) []) = Return false.
Proof. repeat split; vm_compute; reflexivity. Qed.

Lemma int_from_bytes_signed_nil : int_from_bytes_signed [] = 0.
Proof. reflexivity. Qed.

(** C10. An audio-only response with a non-zero flags nibble and fewer
    than 8 payload bytes is interpreted without exception: the sequence
    number and the declared size are the conversions of the prefix slices
    that are there (0 for an empty slice), the audio written is
    [payload[8:]], which is empty, and the response is not terminal when
    the sequence number is not negative.  The declared size is not
    compared with anything: two such responses, of any length, that differ
    in [payload[4:8]] only are interpreted alike. *)
Theorem C10_short_audio_payload_accepted
    `{Gzip} (res : bytes) (fr : frame) (w : world) :
  header_of res = Return fr ->
  message_type fr = 0xb ->
  message_type_specific_flags fr <> 0 ->
  (length (payload fr) < 8)%nat ->
  let sequence_number := int_from_bytes_signed (take 4 (payload fr)) in
  let payload_size := int_from_bytes (slice 4 8 (payload fr)) in
  parse_response res w =
    (Return (sequence_number <? 0),
     World (file w ++ drop 8 (payload fr)) (logged w)) /\
  drop 8 (payload fr) = [] /\
  (0 <= sequence_number -> parse_response res w = (Return false, w)) /\
  (payload fr = [] -> sequence_number = 0) /\
  ((length (payload fr) <= 4)%nat -> payload_size = 0) /\
  (forall (res' : bytes) (fr' : frame),
      header_of res' = Return fr' ->
      message_type fr' = 0xb ->
      message_type_specific_flags fr' <> 0 ->
      take 4 (payload fr') = take 4 (payload fr) ->
      drop 8 (payload fr') = drop 8 (payload fr) ->
      parse_response res' w = parse_response res w).
Proof.
  intros Hfr Ht Hf Hlen sequence_number payload_size.
  assert (Hdrop : drop 8 (payload fr) = []) by (apply drop_ge; lia).
  assert (Hrun : parse_response res w =
                 (Return (sequence_number <? 0),
                  World (file w ++ drop 8 (payload fr)) (logged w))).
  { rewrite parse_response_dispatch, Hfr. apply dispatch_audio; assumption. }
  repeat split.
  - exact Hrun.
  - exact Hdrop.
  - intros Hpos. rewrite Hrun, Hdrop, app_nil_r, world_eta.
    destruct (sequence_number <? 0) eqn:Hc; [lia | reflexivity].
  - intros Hnil. subst sequence_number. rewrite Hnil. reflexivity.
  - intros Hle. subst payload_size. unfold slice.
    rewrite drop_ge by lia. reflexivity.
  - intros res' fr' Hfr' Ht' Hf' Hhead Htail.
    rewrite Hrun, parse_response_dispatch, Hfr', dispatch_audio by assumption.
    subst sequence_number. rewrite Hhead, Htail. reflexivity.
Qed.

Lemma C10_witness :
  parse_response (H := stored_gzip) short_audio_response world_start =
    (Return false, World [] []) /\
  int_from_bytes (slice 4 8 [x00; x00; x00; x01; x05]) = 5 /\
  drop 8 [x00; x00; x00; x01; x05] = [].
Proof.
  pose proof (C10_short_audio_payload_accepted (H := stored_gzip)
                short_audio_response
                (Frame 1 1 0xb 1 1 0 0 [] [x00; x00; x00; x01; x05])
                world_start eq_refl eq_refl ltac:(discriminate)
                ltac:(simpl; lia)) as (Hrun & Hdrop & _).
  split; [exact Hrun|]. split; [reflexivity | exact Hdrop].
Defined.

(** ** Error, frontend and other responses *)

Section OtherResponses.
Context `{Gzip}.

Lemma decompress_if_flagged_run (c : Z) (data : bytes) (w : world) :
  decompress_if_flagged c data w = (flagged_data c data, w).
Proof.
  unfold decompress_if_flagged, flagged_data.
  destruct (c =? 1); reflexivity.
Qed.

Lemma dispatch_error (fr : frame) (w : world) (msg : bytes) (s : str) :
  message_type fr = 0xf ->
  flagged_data (message_compression fr) (drop 8 (payload fr)) = Return msg ->
  utf8_decode msg = Some s ->
  dispatch fr w =
  (Return true,
   World (file w)
     (logged w ++
      [ErrorMessageCode (int_from_bytes (take 4 (payload fr)));
       ErrorMessageSize (int_from_bytes (slice 4 8 (payload fr)));
       ErrorMessage s])).
Proof.
  intros Ht Hmsg Hs. unfold dispatch. rewrite Ht. cbn [Z.eqb Pos.eqb].
  unfold mbind, M_bind. rewrite decompress_if_flagged_run, Hmsg.
  unfold str_utf8. rewrite Hs. unfold_M. cbn [file logged].
  rewrite <- !app_assoc. reflexivity.
Qed.

Lemma dispatch_frontend (fr : frame) (w : world) :
  message_type fr = 0xc ->
  dispatch fr w =
  match flagged_data (message_compression fr) (drop 4 (payload fr)) with
  | Return _ => (Return true, w)
  | Raise e => (Raise e, w)
  end.
Proof.
  intros Ht. unfold dispatch. rewrite Ht. cbn [Z.eqb Pos.eqb].
  unfold mbind, M_bind. rewrite decompress_if_flagged_run.
  destruct (flagged_data _ _); reflexivity.
Qed.

Lemma dispatch_other (fr : frame) (w : world) :
  message_type fr <> 0xb -> message_type fr <> 0xc -> message_type fr <> 0xf ->
  dispatch fr w = (Return true, w).
Proof.
  intros Hb Hc Hf. unfold dispatch.
  apply Z.eqb_neq in Hb, Hc, Hf. rewrite Hb, Hc, Hf. reflexivity.
Qed.

End OtherResponses.

Lemma take_drop_be_digits_4 (a b : Z) (rest : bytes) :
  take 4 (be_digits 4 a ++ be_digits 4 b ++ rest) = be_digits 4 a /\
  slice 4 8 (be_digits 4 a ++ be_digits 4 b ++ rest) = be_digits 4 b /\
  drop 8 (be_digits 4 a ++ be_digits 4 b ++ rest) = rest.
Proof.
  pose proof (length_be_digits 4 a) as Ha.
  pose proof (length_be_digits 4 b) as Hb.
  unfold slice. split; [|split].
  - rewrite take_app_length'; [reflexivity | assumption].
  - rewrite drop_app_length' by assumption.
    rewrite take_app_length'; [reflexivity | simpl; assumption].
  - rewrite app_assoc. rewrite drop_app_length'; [reflexivity|].
    rewrite length_app. lia.
Qed.

(** C2 (as the code has it).  An error response (message type [0xf])
    raises nothing of its own: when its message, gzip-decompressed exactly
    when the compression nibble is 1, is well-formed UTF-8, the 4-byte
    big-endian unsigned error code, the declared size and the decoded
    message are logged and [True] (terminal) is returned.  In particular
    the response with code 55 and the gzip-compressed message
    "invalid voice" logs code 55 and the message "invalid voice". *)
Theorem C2_error_response_logged_and_terminal
    `{Gzip} (res : bytes) (fr : frame) (w : world) (msg : bytes) (s : str) :
  GzipLaws H ->
  header_of res = Return fr ->
  message_type fr = 0xf ->
  (if message_compression fr =? 1
   then gzip_decompress (drop 8 (payload fr))
   else Return (drop 8 (payload fr))) = Return msg ->
  utf8_decode msg = Some s ->
  parse_response res w =
    (Return true,
     World (file w)
       (logged w ++
        [ErrorMessageCode (int_from_bytes (take 4 (payload fr)));
         ErrorMessageSize (int_from_bytes (slice 4 8 (payload fr)));
         ErrorMessage s])) /\
  0 <= int_from_bytes (take 4 (payload fr)) < 2 ^ 32 /\
  let invalid_voice := gzip_compress (bytes_of_string "invalid voice") in
  parse_response (error_response 1 55 invalid_voice) w =
    (Return true,
     World (file w)
       (logged w ++
        [ErrorMessageCode 55;
         ErrorMessageSize (Z.of_nat (length invalid_voice) mod 2 ^ 32);
         ErrorMessage (str_of_string "invalid voice")])).
Proof.
  intros Hlaws Hfr Ht Hmsg Hs. split; [|split].
  - rewrite parse_response_dispatch, Hfr.
    apply dispatch_error with (msg := msg); assumption.
  - pose proof (int_from_bytes_range (take 4 (payload fr))) as Hr.
    assert (Hl : (length (take 4 (payload fr)) <= 4)%nat)
      by (rewrite length_take; lia).
    assert (256 ^ Z.of_nat (length (take 4 (payload fr))) <= 256 ^ 4)
      by (apply Z.pow_le_mono_r; lia).
    change (2 ^ 32) with (256 ^ 4). lia.
  - intros invalid_voice.
    rewrite parse_response_dispatch. unfold error_response.
    change (header_of ([x11; xf0; byte_of_Z (0x10 + 1); x00] ++
              be_digits 4 55 ++
              be_digits 4 (Z.of_nat (length invalid_voice)) ++ invalid_voice))
      with (Return (Frame 1 1 0xf 0 1 1 0 []
              (be_digits 4 55 ++
               be_digits 4 (Z.of_nat (length invalid_voice)) ++ invalid_voice))).
    pose proof (take_drop_be_digits_4 55 (Z.of_nat (length invalid_voice))
                  invalid_voice) as (Htake & Hslice & Hdrop).
    rewrite dispatch_error
      with (msg := bytes_of_string "invalid voice")
           (s := str_of_string "invalid voice").
    + cbn [payload]. rewrite Htake, Hslice.
      rewrite (int_from_bytes_be_digits 4 (Z.of_nat _)). reflexivity.
    + reflexivity.
    + cbn [payload message_compression]. rewrite Hdrop.
      unfold flagged_data. cbn [Z.eqb Pos.eqb]. subst invalid_voice.
      apply gzip_decompress_compress.
    + reflexivity.
Qed.

Lemma C2_witness :
  parse_response (H := stored_gzip) invalid_voice_response world_start =
  (Return true,
   World []
     [ErrorMessageCode 55; ErrorMessageSize 36;
      ErrorMessage (str_of_string "invalid voice")]).
Proof.
  apply (C2_error_response_logged_and_terminal (H := stored_gzip)
           invalid_voice_response
           (Frame 1 1 0xf 0 1 1 0 []
              (be_digits 4 55 ++ be_digits 4 36
                 ++ stored_compress (bytes_of_string "invalid voice")))
           world_start (bytes_of_string "invalid voice")
           (str_of_string "invalid voice"));
    [exact stored_gzip_laws | reflexivity ..].
Defined.

(** The error response of the specification's example is interpreted
    without exception: no [ProtocolError] is raised. *)
Lemma C2_error_response_does_not_raise :
  done_of (H := stored_gzip) invalid_voice_response = Return true /\
  raised (done_of (H := stored_gzip) invalid_voice_response) = false /\
  logged_of (H := stored_gzip) invalid_voice_response =
    [ErrorMessageCode 55; ErrorMessageSize 36;
     ErrorMessage (str_of_string "invalid voice")].
Proof. split; [|split]; vm_compute; reflexivity. Qed.

(** ** One iteration of the receive loop *)

Lemma has_sample_length (seg : bytes) :
  has_sample seg = true <-> (2 <= length seg)%nat.
Proof.
  unfold has_sample. rewrite Z.ltb_lt. split.
  - intros Hpos.
    destruct (Nat.le_gt_cases 2 (length seg)) as [|Hlt]; [assumption|].
    rewrite Z.div_small in Hpos by lia. lia.
  - intros Hge.
    assert (1 <= Z.of_nat (length seg) / 2)
      by (apply Z.div_le_lower_bound; lia). lia.
Qed.

Section Loop.
Context `{Gzip} {P : Pydub}.
Variable seg_size : Z.
Variable resample : bytes -> result bytes.
Variables cur_path tts_id : str.

(** Closing a segment counts and lists it whether the resampling raises
    or not; a frame is yielded only when it does not. *)
Lemma close_segment_effects (content : bytes) (s : session) :
  close_segment resample (idx s) content s =
  (match resample_error resample content with
   | Some e => Raise e
   | None => Return tt
   end, after_close resample content s).
Proof.
  unfold close_segment, resample_error, after_close, frame_of, has_sample,
    next_segment, yield.
  cbn [idx seg_list files logs sent yielded merged].
  destruct (0 <? Z.of_nat (length content) / 2);
    [destruct (resample content)|]; rewrite ?app_nil_r; reflexivity.
Qed.

Lemma recv_step_effects (res : bytes) (s : session) :
  recv_step seg_size resample res s =
  match done_of res with
  | Raise e => (Raise e, after_parse res s)
  | Return done =>
      if done || (seg_size <? Z.of_nat (length (current s ++ audio_of res)))
      then (match resample_error resample (current s ++ audio_of res) with
            | Some e => Raise e
            | None => Return done
            end,
            after_close resample (current s ++ audio_of res)
              (after_parse res s))
      else (Return done, after_parse res s)
  end.
Proof.
  unfold recv_step. rewrite parse_response_effects. cbn [file logged].
  destruct (done_of res) as [done|e]; [|reflexivity].
  fold (current s).
  destruct (done || _); [|reflexivity].
  match goal with
  | |- context [close_segment resample ?p ?c ?s'] =>
      change (close_segment resample p c s')
        with (close_segment resample (idx (after_parse res s))
                (current s ++ audio_of res) (after_parse res s))
  end.
  rewrite close_segment_effects.
  destruct (resample_error resample _); reflexivity.
Qed.

(** [merge_pcm_list_into_mp3] reads the segment files and their list. *)
Lemma merge_seg_list_returned (s : session) :
  merge_seg_list cur_path tts_id (merge_returned s) =
  merge_seg_list cur_path tts_id s.
Proof. reflexivity. Qed.

(** A message on which [parse_response] returns [True] ends the loop:
    the current segment is closed; then the exception of its resampling
    leaves, or the segments are merged and the exception of the merge
    leaves, or the loop breaks.  Nothing more is received. *)
Lemma recv_loop_done (res : bytes) (incoming : list bytes) (s : session) :
  done_of res = Return true ->
  recv_loop seg_size resample cur_path tts_id (res :: incoming) s =
  match resample_error resample (current s ++ audio_of res) with
  | Some e =>
      (Failed e,
       after_close resample (current s ++ audio_of res) (after_parse res s))
  | None =>
      match merge_seg_list cur_path tts_id
              (after_close resample (current s ++ audio_of res)
                 (after_parse res s)) with
      | Raised e =>
          (MergeFailed e,
           after_close resample (current s ++ audio_of res)
             (after_parse res s))
      | Done _ =>
          (Completed,
           merge_returned
             (after_close resample (current s ++ audio_of res)
                (after_parse res s)))
      end
  end.
Proof.
  intros Hdone. cbn [recv_loop]. rewrite recv_step_effects, Hdone.
  cbn [orb]. destruct (resample_error resample _); reflexivity.
Qed.

(** A message on which [parse_response] returns [False]. *)
Lemma recv_loop_more (res : bytes) (incoming : list bytes) (s : session) :
  done_of res = Return false ->
  recv_loop seg_size resample cur_path tts_id (res :: incoming) s =
  if seg_size <? Z.of_nat (length (current s ++ audio_of res)) then
    match resample_error resample (current s ++ audio_of res) with
    | Some e =>
        (Failed e,
         after_close resample (current s ++ audio_of res)
           (after_parse res s))
    | None =>
        recv_loop seg_size resample cur_path tts_id incoming
          (after_close resample (current s ++ audio_of res)
             (after_parse res s))
    end
  else recv_loop seg_size resample cur_path tts_id incoming (after_parse res s).
Proof.
  intros Hdone. cbn [recv_loop]. rewrite recv_step_effects, Hdone.
  cbn [orb]. destruct (seg_size <? _); [|reflexivity].
  destruct (resample_error resample _); reflexivity.
Qed.

Lemma recv_loop_raise (res : bytes) (incoming : list bytes) (s : session)
    (e : exn) :
  done_of res = Raise e ->
  recv_loop seg_size resample cur_path tts_id (res :: incoming) s =
  (Failed e, after_parse res s).
Proof.
  intros Hdone. cbn [recv_loop]. rewrite recv_step_effects, Hdone.
  reflexivity.
Qed.

Lemma done_of_dispatch (res : bytes) (fr : frame) :
  header_of res = Return fr ->
  done_of res = fst (dispatch fr world_start).
Proof.
  intros Hfr. unfold done_of. rewrite parse_response_dispatch, Hfr.
  reflexivity.
Qed.

(** How the loop ends on a message on which [parse_response] returns
    [True]: what follows the message is not received, the current segment
    is closed, and the outcome is that of the resampling of the segment
    and then of the merge. *)
Lemma recv_loop_terminal (res : bytes) (incoming : list bytes) (s : session) :
  done_of res = Return true ->
  recv_loop seg_size resample cur_path tts_id (res :: incoming) s =
    recv_loop seg_size resample cur_path tts_id [res] s /\
  idx (snd (recv_loop seg_size resample cur_path tts_id (res :: incoming) s)) =
    S (idx s) /\
  seg_list (snd (recv_loop seg_size resample cur_path tts_id (res :: incoming) s)) =
    seg_list s ++ [idx s] /\
  fst (recv_loop seg_size resample cur_path tts_id (res :: incoming) s) =
    match resample_error resample (current s ++ audio_of res) with
    | Some e => Failed e
    | None =>
        match merge_seg_list cur_path tts_id
                (snd (recv_loop seg_size resample cur_path tts_id
                        (res :: incoming) s)) with
        | Raised e => MergeFailed e
        | Done _ => Completed
        end
    end.
Proof.
  intros Hdone. rewrite !recv_loop_done by assumption.
  split; [reflexivity|].
  destruct (resample_error resample _) as [e|];
    [repeat split|].
  destruct (merge_seg_list cur_path tts_id _) as [r|e] eqn:Hmerge;
    cbn [fst snd]; rewrite ?merge_seg_list_returned, Hmerge;
    repeat split.
Qed.

End Loop.

(** C3 (as the code has it).  A frontend response (message type [0xc])
    whose payload after the 4-byte size is accepted by the decompression
    (gzip when the compression nibble is 1, none otherwise) writes no
    audio and logs nothing, its payload is discarded, and [True] is
    returned: the response is terminal.  The receive loop closes the
    current segment and ends without receiving anything more: with the
    exception of the resampling of that segment, or else with the
    exception of the merge, or else completed. *)
Theorem C3_frontend_response_discarded_and_terminal
    `{Gzip} {P : Pydub} (seg_size : Z) (resample : bytes -> result bytes)
    (cur_path tts_id : str) (res : bytes) (fr : frame) (w : world) (d : bytes)
    (incoming : list bytes) (s : session) :
  header_of res = Return fr ->
  message_type fr = 0xc ->
  (if message_compression fr =? 1
   then gzip_decompress (drop 4 (payload fr))
   else Return (drop 4 (payload fr))) = Return d ->
  parse_response res w = (Return true, w) /\
  audio_of res = [] /\
  recv_loop seg_size resample cur_path tts_id (res :: incoming) s =
    recv_loop seg_size resample cur_path tts_id [res] s /\
  idx (snd (recv_loop seg_size resample cur_path tts_id (res :: incoming) s)) =
    S (idx s) /\
  seg_list (snd (recv_loop seg_size resample cur_path tts_id (res :: incoming) s)) =
    seg_list s ++ [idx s] /\
  fst (recv_loop seg_size resample cur_path tts_id (res :: incoming) s) =
    match resample_error resample (current s) with
    | Some e => Failed e
    | None =>
        match merge_seg_list cur_path tts_id
                (snd (recv_loop seg_size resample cur_path tts_id
                        (res :: incoming) s)) with
        | Raised e => MergeFailed e
        | Done _ => Completed
        end
    end.
Proof.
  intros Hfr Ht Hd.
  assert (Hrun : forall w', parse_response res w' = (Return true, w')).
  { intros w'. rewrite parse_response_dispatch, Hfr, dispatch_frontend
      by assumption.
    unfold flagged_data. rewrite Hd. reflexivity. }
  assert (Hdone : done_of res = Return true).
  { unfold done_of. rewrite Hrun. reflexivity. }
  assert (Haudio : audio_of res = []).
  { unfold audio_of. rewrite Hrun. reflexivity. }
  split; [apply Hrun|]. split; [exact Haudio|].
  pose proof (recv_loop_terminal seg_size resample cur_path tts_id res incoming s
                Hdone) as Hend.
  rewrite Haudio, app_nil_r in Hend. exact Hend.
Qed.

Lemma C3_witness :
  parse_response (H := stored_gzip)
    (frontend_response 1 (stored_compress (bytes_of_string "{}")))
    world_start = (Return true, world_start) /\
  fst (recv_loop (H := stored_gzip) (P := pydub_example) 0 resample_example
         cur_path_example tts_id_example
         [frontend_response 1 (stored_compress (bytes_of_string "{}"));
          last_audio_example] session_start) = Completed.
Proof.
  pose proof (C3_frontend_response_discarded_and_terminal
                (H := stored_gzip) (P := pydub_example) 0 resample_example
                cur_path_example tts_id_example
                (frontend_response 1 (stored_compress (bytes_of_string "{}")))
                (Frame 1 1 0xc 0 1 1 0 []
                   (be_digits 4 25 ++ stored_compress (bytes_of_string "{}")))
                world_start (bytes_of_string "{}")
                [last_audio_example] session_start
                eq_refl eq_refl eq_refl) as (Hrun & _ & _ & _ & _ & Hloop).
  split; [exact Hrun|]. rewrite Hloop. reflexivity.
Defined.

(** A frontend response is terminal: [parse_response] returns [True] on
    it, and the audio that follows it is never received. *)
Lemma C3_frontend_response_is_terminal :
  done_of (H := stored_gzip) frontend_example = Return true /\
  fst (recv_loop (H := stored_gzip) (P := pydub_example) 0 resample_example
         cur_path_example tts_id_example
         [frontend_example; last_audio_example] session_start) = Completed /\
  yielded (snd (recv_loop (H := stored_gzip) (P := pydub_example) 0
                  resample_example cur_path_example tts_id_example
                  [frontend_example; last_audio_example] session_start)) =
    [] /\
  yielded (snd (recv_loop (H := stored_gzip) (P := pydub_example) 0
                  resample_example cur_path_example tts_id_example
                  [last_audio_example] session_start)) =
    [AudioRawFrame [x01; x02] 16000 1].
Proof. split; [|split; [|split]]; vm_compute; reflexivity. Qed.

(** C8 (as the code has it).  A response whose message type is none of
    [0xb], [0xc] and [0xf] raises nothing: [True] (terminal) is returned,
    nothing is written or logged, and the receive loop ends as it does
    after the last audio: it closes the current segment, receives nothing
    more, and ends with the exception of the resampling of that segment,
    or else with the exception of the merge, or else completed. *)
Theorem C8_other_message_type_terminal_without_exception
    `{Gzip} {P : Pydub} (seg_size : Z) (resample : bytes -> result bytes)
    (cur_path tts_id : str) (res : bytes) (fr : frame) (w : world)
    (incoming : list bytes) (s : session) :
  header_of res = Return fr ->
  message_type fr <> 0xb ->
  message_type fr <> 0xc ->
  message_type fr <> 0xf ->
  parse_response res w = (Return true, w) /\
  raised (fst (parse_response res w)) = false /\
  recv_loop seg_size resample cur_path tts_id (res :: incoming) s =
    recv_loop seg_size resample cur_path tts_id [res] s /\
  idx (snd (recv_loop seg_size resample cur_path tts_id (res :: incoming) s)) =
    S (idx s) /\
  seg_list (snd (recv_loop seg_size resample cur_path tts_id (res :: incoming) s)) =
    seg_list s ++ [idx s] /\
  fst (recv_loop seg_size resample cur_path tts_id (res :: incoming) s) =
    match resample_error resample (current s) with
    | Some e => Failed e
    | None =>
        match merge_seg_list cur_path tts_id
                (snd (recv_loop seg_size resample cur_path tts_id
                        (res :: incoming) s)) with
        | Raised e => MergeFailed e
        | Done _ => Completed
        end
    end.
Proof.
  intros Hfr Hb Hc Hf.
  assert (Hrun : forall w', parse_response res w' = (Return true, w')).
  { intros w'. rewrite parse_response_dispatch, Hfr.
    apply dispatch_other; assumption. }
  assert (Hdone : done_of res = Return true).
  { unfold done_of. rewrite Hrun. reflexivity. }
  assert (Haudio : audio_of res = []).
  { unfold audio_of. rewrite Hrun. reflexivity. }
  split; [apply Hrun|]. split; [rewrite Hrun; reflexivity|].
  pose proof (recv_loop_terminal seg_size resample cur_path tts_id res incoming s
                Hdone) as Hend.
  rewrite Haudio, app_nil_r in Hend. exact Hend.
Qed.

Lemma C8_witness :
  parse_response (H := stored_gzip) full_client_request_header world_start =
    (Return true, world_start) /\
  fst (recv_loop (H := stored_gzip) (P := pydub_example) 0 resample_example
         cur_path_example tts_id_example [full_client_request_header] session_start) =
    Completed.
Proof.
  pose proof (C8_other_message_type_terminal_without_exception
                (H := stored_gzip) (P := pydub_example) 0 resample_example
                cur_path_example tts_id_example
                full_client_request_header (Frame 1 1 1 0 1 1 0 [] [])
                world_start [] session_start eq_refl
                ltac:(discriminate) ltac:(discriminate) ltac:(discriminate))
    as (Hrun & _ & _ & _ & _ & Hloop).
  split; [exact Hrun|]. rewrite Hloop. reflexivity.
Defined.

(** A response of message type [0x1] is interpreted without exception:
    no [UnknownMessageType] is raised. *)
Lemma C8_other_message_type_does_not_raise :
  header_of full_client_request_header =
    Return (Frame 1 1 1 0 1 1 0 [] []) /\
  done_of (H := stored_gzip) full_client_request_header = Return true /\
  raised (done_of (H := stored_gzip) full_client_request_header) = false.
Proof. split; [|split]; reflexivity. Qed.

(** C5 (as the code has it).  Decoding fails exactly when the buffer is
    shorter than 4 bytes, with the [IndexError] of the indexing of the
    header bytes (so a 3-byte response raises [IndexError]), and then
    [parse_response] fails in the same way, leaving file and log as they
    were.  A declared header size that exceeds the buffer is no failure:
    the slices are cut at the end of the buffer, the header extension is
    [res[4:]] and the payload is empty. *)
Theorem C5_decode_fails_iff_shorter_than_four_bytes
    `{Gzip} (res : bytes) (w : world) :
  (raised (fst (decode_header res w)) = true <-> (length res < 4)%nat) /\
  ((length res < 4)%nat ->
     decode_header res w = (Raise IndexError, w) /\
     parse_response res w = (Raise IndexError, w)) /\
  (forall fr : frame,
     header_of res = Return fr ->
     Z.of_nat (length res) < header_size fr * 4 ->
     decode_header res w = (Return fr, w) /\
     header_extensions fr = drop 4 res /\
     payload fr = []).
Proof.
  split; [|split].
  - destruct (Nat.lt_ge_cases (length res) 4) as [Hlt|Hge].
    + rewrite decode_header_short by assumption. split; [auto | reflexivity].
    + destruct res as [|r0 [|r1 [|r2 [|r3 rest]]]]; simpl in Hge; try lia.
      rewrite decode_header_cons. cbn [fst raised length].
      split; [discriminate | lia].
  - intros Hlt. split; [apply decode_header_short; assumption|].
    rewrite parse_response_dispatch. unfold header_of.
    rewrite decode_header_short by assumption. reflexivity.
  - intros fr Hfr Hsize.
    destruct (header_of_Return res fr Hfr) as (Hlen & Hpay & Hext & Hhs).
    split; [rewrite decode_header_pure, Hfr; reflexivity|]. split.
    + rewrite Hext. unfold slice. apply take_ge.
      rewrite length_drop. lia.
    + rewrite Hpay. apply drop_ge. lia.
Qed.

Lemma C5_witness :
  parse_response (H := stored_gzip) [x11; xb1; x10] world_start =
    (Raise IndexError, world_start) /\
  payload (Frame 1 15 0xb 0 0 0 0 [] []) = [].
Proof.
  pose proof (C5_decode_fails_iff_shorter_than_four_bytes (H := stored_gzip)
                [x11; xb1; x10] world_start) as (_ & Hshort & _).
  pose proof (C5_decode_fails_iff_shorter_than_four_bytes (H := stored_gzip)
                oversized_header_response world_start) as (_ & _ & Hlong).
  split.
  - apply Hshort. simpl. lia.
  - apply (Hlong (Frame 1 15 0xb 0 0 0 0 [] []) eq_refl). simpl. lia.
Defined.

(** A buffer of four bytes that declares a header of 60 bytes is decoded
    and interpreted (as an acknowledgement) without exception. *)
Lemma C5_oversized_header_size_is_accepted :
  header_of oversized_header_response =
    Return (Frame 1 15 0xb 0 0 0 0 [] []) /\
  Z.of_nat (length oversized_header_response) < 15 * 4 /\
  raised (fst (decode_header oversized_header_response world_start)) =
    false /\
  parse_response (H := stored_gzip) oversized_header_response world_start =
    (Return false, world_start).
Proof. split; [|split; [|split]]; reflexivity. Qed.

(** ** The request frame *)

Section Request.
Context `{Gzip}.

Lemma full_client_request_ok (payload_bytes : bytes) :
  Z.of_nat (length (gzip_compress payload_bytes)) < 2 ^ 32 ->
  full_client_request payload_bytes =
  Return (default_header
            ++ be_digits 4 (Z.of_nat (length (gzip_compress payload_bytes)))
            ++ gzip_compress payload_bytes).
Proof.
  intros Hlen. unfold full_client_request.
  destruct (to_bytes_ok (Z.of_nat (length (gzip_compress payload_bytes))) 4)
    as [Hto _]; [change (256 ^ Z.of_nat 4) with (2 ^ 32); lia|].
  rewrite Hto. reflexivity.
Qed.


Lemma header_of_request (size rest : bytes) :
  length size = 4%nat ->
  header_of (default_header ++ size ++ rest) =
  Return (Frame 1 1 1 0 1 1 0 [] (size ++ rest)).
Proof.
  intros Hsize.
  destruct size as [|s0 [|s1 [|s2 [|s3 [|]]]]]; try discriminate.
  reflexivity.
Qed.

End Request.




(** C7 (as the code has it).  The payload decoded from a request frame is
    everything after the 4-byte header, so it begins with the 4-byte
    length of the compressed document.  Decompressing what follows that
    length, [payload[4:]], recovers the request document. *)
Theorem C7_request_roundtrip_after_length_prefix
    `{Gzip} (payload_bytes : bytes) (w : world) :
  GzipLaws H ->
  Z.of_nat (length (gzip_compress payload_bytes)) < 2 ^ 32 ->
  exists (req : bytes) (fr : frame),
    full_client_request payload_bytes = Return req /\
    decode_header req w = (Return fr, w) /\
    header_size fr = 1 /\
    message_compression fr = 1 /\
    payload fr =
      be_digits 4 (Z.of_nat (length (gzip_compress payload_bytes)))
        ++ gzip_compress payload_bytes /\
    int_from_bytes (take 4 (payload fr)) =
      Z.of_nat (length (gzip_compress payload_bytes)) /\
    gzip_decompress (drop 4 (payload fr)) = Return payload_bytes.
Proof.
  intros Hlaws Hlen.
  set (gz := gzip_compress payload_bytes) in *.
  exists (default_header ++ be_digits 4 (Z.of_nat (length gz)) ++ gz).
  exists (Frame 1 1 1 0 1 1 0 [] (be_digits 4 (Z.of_nat (length gz)) ++ gz)).
  pose proof (length_be_digits 4 (Z.of_nat (length gz))) as Hsize.
  split; [apply full_client_request_ok; assumption|].
  split.
  { rewrite decode_header_pure, header_of_request by assumption.
    reflexivity. }
  cbn [header_size message_compression payload].
  repeat (split; [reflexivity|]).
  split.
  - rewrite take_app_length' by assumption.
    rewrite int_from_bytes_be_digits. apply Z.mod_small.
    change (256 ^ Z.of_nat 4) with (2 ^ 32). lia.
  - rewrite drop_app_length' by assumption.
    apply gzip_decompress_compress.
Qed.

Lemma C7_witness :
  exists (req : bytes) (fr : frame),
    full_client_request (H := stored_gzip) (bytes_of_string "hello") =
      Return req /\
    decode_header req world_start = (Return fr, world_start) /\
    gzip_decompress (Gzip := stored_gzip) (drop 4 (payload fr)) =
      Return (bytes_of_string "hello").
Proof.
  destruct (C7_request_roundtrip_after_length_prefix (H := stored_gzip)
              (bytes_of_string "hello") world_start)
    as (req & fr & Hreq & Hdec & _ & _ & _ & _ & Hback);
    [exact stored_gzip_laws | simpl; lia |].
  exists req, fr. split; [exact Hreq|]. split; [exact Hdec | exact Hback].
Defined.

(** The payload decoded from a request frame does not start with the
    gzip magic number as long as the compressed document is shorter than
    [0x1f000000] bytes: decompressing the payload itself fails. *)
Lemma request_payload_is_not_gzip `{Gzip} (payload_bytes : bytes) :
  GzipLaws H ->
  Z.of_nat (length (gzip_compress payload_bytes)) < 0x1f000000 ->
  gzip_decompress
    (be_digits 4 (Z.of_nat (length (gzip_compress payload_bytes)))
       ++ gzip_compress payload_bytes) = Raise BadGzipFile.
Proof.
  intros Hlaws Hlen.
  set (n := Z.of_nat (length (gzip_compress payload_bytes))) in *.
  assert (Hn : 0 <= n) by (subst n; lia).
  apply gzip_bad_magic.
  - cbn [be_digits app]. discriminate.
  - cbn [be_digits app take]. intros Heq.
    injection Heq as H0 _.
    apply (f_equal byte_val) in H0. rewrite byte_val_of_Z in H0.
    change (byte_val x1f) with 31 in H0.
    assert (Hq : 0 <= n / 256 / 256 / 256 < 31).
    { rewrite !Z.div_div by lia. split.
      - apply Z.div_pos; lia.
      - apply Z.div_lt_upper_bound; lia. }
    rewrite Z.mod_small in H0 by lia. lia.
Qed.

(** Decoding the request frame for "hello" and decompressing the decoded
    payload fails: the payload starts with the length, not with gzip
    data. *)
Lemma C7_decoded_payload_is_not_gzip :
  full_client_request (H := stored_gzip) (bytes_of_string "hello") =
    Return ([x11; x10; x11; x00; x00; x00; x00; x1c]
              ++ stored_compress (bytes_of_string "hello")) /\
  header_of ([x11; x10; x11; x00; x00; x00; x00; x1c]
               ++ stored_compress (bytes_of_string "hello")) =
    Return (Frame 1 1 1 0 1 1 0 []
              ([x00; x00; x00; x1c]
                 ++ stored_compress (bytes_of_string "hello"))) /\
  gzip_decompress (Gzip := stored_gzip)
    ([x00; x00; x00; x1c] ++ stored_compress (bytes_of_string "hello")) =
    Raise BadGzipFile /\
  gzip_decompress (Gzip := stored_gzip)
    (stored_compress (bytes_of_string "hello")) =
    Return (bytes_of_string "hello").
Proof. split; [|split; [|split]]; vm_compute; reflexivity. Qed.

(** * Further properties of [parse_response] *)

Section Dispatch.
Context `{Gzip}.

(** A message on which [parse_response] raises leaves no trace: nothing
    is written and nothing is logged. *)
Lemma dispatch_raise_pure (fr : frame) (e : exn) :
  fst (dispatch fr (World [] [])) = Raise e ->
  snd (dispatch fr (World [] [])) = World [] [].
Proof.
  unfold dispatch. unfold_M.
  repeat match goal with
         | |- context [if ?c then _ else _] => destruct c
         | |- context [gzip_decompress ?d] => destruct (gzip_decompress d)
         | |- context [utf8_decode ?d] => destruct (utf8_decode d)
         end;
    cbn [fst snd]; intros Hr; try discriminate Hr; reflexivity.
Qed.

Lemma raise_effects (res : bytes) (e : exn) :
  done_of res = Raise e -> audio_of res = [] /\ logged_of res = [].
Proof.
  unfold done_of, audio_of, logged_of. rewrite parse_response_dispatch.
  destruct (header_of res) as [fr|e'].
  - intros Hr. rewrite (dispatch_raise_pure fr e Hr). split; reflexivity.
  - intros _. split; reflexivity.
Qed.

(** What is written comes from an audio-only response with a sequence
    number; what is logged comes from an error response. *)
Lemma dispatch_writers (fr : frame) :
  (file (snd (dispatch fr (World [] []))) <> [] ->
   message_type fr = 0xb /\ message_type_specific_flags fr <> 0 /\
   file (snd (dispatch fr (World [] []))) = drop 8 (payload fr) /\
   logged (snd (dispatch fr (World [] []))) = []) /\
  (logged (snd (dispatch fr (World [] []))) <> [] ->
   message_type fr = 0xf /\
   file (snd (dispatch fr (World [] []))) = [] /\
   fst (dispatch fr (World [] [])) = Return true).
Proof.
  unfold dispatch. unfold_M.
  destruct (message_type fr =? 0xb) eqn:Hb.
  - apply Z.eqb_eq in Hb.
    destruct (message_type_specific_flags fr =? 0) eqn:Hf.
    + cbn [fst snd file logged]. split; intros Hne; congruence.
    + apply Z.eqb_neq in Hf.
      destruct (int_from_bytes_signed (take 4 (payload fr)) <? 0);
        cbn [fst snd file logged app];
        (split; [intros _; repeat split; assumption | intros Hne; congruence]).
  - destruct (message_type fr =? 0xf) eqn:Hf.
    + apply Z.eqb_eq in Hf.
      destruct (message_compression fr =? 1);
        [destruct (gzip_decompress (drop 8 (payload fr))) as [msg|e]|];
        try (set (msg := drop 8 (payload fr)));
        try destruct (utf8_decode msg);
        cbn [fst snd file logged app];
        (split; [intros Hne; congruence
                | intros Hne; try congruence; repeat split; assumption]).
    + destruct (message_type fr =? 0xc);
        [destruct (message_compression fr =? 1);
           [destruct (gzip_decompress (drop 4 (payload fr)))|]|];
        cbn [fst snd file logged]; split; intros Hne; congruence.
Qed.

End Dispatch.

(** X8.  Audio is written by nothing but an audio-only response with a
    non-zero flags nibble, and then it is [payload[8:]] and nothing is
    logged; the log is written by nothing but an error response, which
    writes no audio and is terminal. *)
Theorem X8_only_audio_responses_write_and_only_error_responses_log
    `{Gzip} (res : bytes) :
  (audio_of res <> [] ->
   exists fr : frame,
     header_of res = Return fr /\
     message_type fr = 0xb /\
     message_type_specific_flags fr <> 0 /\
     audio_of res = drop 8 (payload fr) /\
     logged_of res = []) /\
  (logged_of res <> [] ->
   exists fr : frame,
     header_of res = Return fr /\
     message_type fr = 0xf /\
     audio_of res = [] /\
     done_of res = Return true).
Proof.
  unfold audio_of, logged_of, done_of. rewrite parse_response_dispatch.
  destruct (header_of res) as [fr|e].
  - destruct (dispatch_writers fr) as [Hw Hl]. split.
    + intros Hne. exists fr. split; [reflexivity|]. apply Hw, Hne.
    + intros Hne. exists fr. split; [reflexivity|]. apply Hl, Hne.
  - cbn [fst snd file logged]. split; intros Hne; congruence.
Qed.

Lemma X8_witness :
  exists fr : frame,
    header_of last_audio_example = Return fr /\
    message_type fr = 0xb /\
    message_type_specific_flags fr <> 0 /\
    audio_of (H := stored_gzip) last_audio_example = drop 8 (payload fr) /\
    logged_of (H := stored_gzip) last_audio_example = [].
Proof.
  apply (X8_only_audio_responses_write_and_only_error_responses_log
           (H := stored_gzip) last_audio_example).
  discriminate.
Defined.

(** X9.  An error response whose message cannot be read is not
    reported.  If [gzip.decompress] raises on the message (compression
    nibble 1), or if the message is not well-formed UTF-8, that exception
    leaves [parse_response] and the session fails with it; the error code
    sent by the server is not logged. *)
Theorem X9_unreadable_error_response_fails_unreported
    `{Gzip} {P : Pydub} (seg_size : Z) (resample : bytes -> result bytes)
    (cur_path tts_id : str) (res : bytes) (fr : frame) (e : exn) (w : world)
    (incoming : list bytes) :
  header_of res = Return fr ->
  message_type fr = 0xf ->
  match (if message_compression fr =? 1
         then gzip_decompress (drop 8 (payload fr))
         else Return (drop 8 (payload fr))) with
  | Raise e' => e = e'
  | Return msg => utf8_decode msg = None /\ e = UnicodeDecodeError
  end ->
  parse_response res w = (Raise e, w) /\
  fst (recv_loop seg_size resample cur_path tts_id (res :: incoming)
         session_start) = Failed e /\
  logs (snd (recv_loop seg_size resample cur_path tts_id (res :: incoming)
               session_start)) = [].
Proof.
  intros Hfr Ht Hbad.
  assert (Hrun : forall w', parse_response res w' = (Raise e, w')).
  { intros w'. rewrite parse_response_dispatch, Hfr.
    unfold dispatch. rewrite Ht. cbn [Z.eqb Pos.eqb].
    unfold mbind, M_bind. rewrite decompress_if_flagged_run.
    unfold flagged_data.
    destruct (if message_compression fr =? 1
              then gzip_decompress (drop 8 (payload fr))
              else Return (drop 8 (payload fr))) as [msg|e'].
    - destruct Hbad as [Hs ->]. unfold str_utf8. rewrite Hs. reflexivity.
    - subst e'. reflexivity. }
  assert (Hdone : done_of res = Raise e).
  { unfold done_of. rewrite Hrun. reflexivity. }
  split; [apply Hrun|].
  rewrite (recv_loop_raise seg_size resample cur_path tts_id res incoming
             session_start e Hdone).
  destruct (raise_effects res e Hdone) as [_ Hlog].
  cbn [fst snd logs after_parse session_start]. rewrite Hlog.
  split; reflexivity.
Qed.

Lemma X9_witness :
  parse_response (H := stored_gzip) (error_response 0 55 [xff]) world_start =
    (Raise UnicodeDecodeError, world_start) /\
  parse_response (H := stored_gzip) (error_response 1 55 [x1f; x8b])
    world_start = (Raise EOFError, world_start).
Proof.
  split.
  - apply (X9_unreadable_error_response_fails_unreported
             (H := stored_gzip) (P := pydub_example) 0 resample_example
             cur_path_example tts_id_example
             (error_response 0 55 [xff])
             (Frame 1 1 0xf 0 1 0 0 []
                (be_digits 4 55 ++ be_digits 4 1 ++ [xff]))
             UnicodeDecodeError world_start []);
      [reflexivity | reflexivity | split; reflexivity].
  - apply (X9_unreadable_error_response_fails_unreported
             (H := stored_gzip) (P := pydub_example) 0 resample_example
             cur_path_example tts_id_example
             (error_response 1 55 [x1f; x8b])
             (Frame 1 1 0xf 0 1 1 0 []
                (be_digits 4 55 ++ be_digits 4 2 ++ [x1f; x8b]))
             EOFError world_start []); reflexivity.
Defined.

(** X10.  A frontend response with the compression nibble 1 whose data
    (after the 4-byte size) is not empty and does not start with the gzip
    magic number is not terminal in the way of C3: [gzip.decompress]
    raises [BadGzipFile], and the session fails without merging. *)
Theorem X10_frontend_response_without_gzip_data_fails
    `{Gzip} {P : Pydub} (seg_size : Z) (resample : bytes -> result bytes)
    (cur_path tts_id : str) (res : bytes) (fr : frame) (w : world)
    (incoming : list bytes) :
  GzipLaws H ->
  header_of res = Return fr ->
  message_type fr = 0xc ->
  message_compression fr = 1 ->
  drop 4 (payload fr) <> [] ->
  take 2 (drop 4 (payload fr)) <> [x1f; x8b] ->
  parse_response res w = (Raise BadGzipFile, w) /\
  fst (recv_loop seg_size resample cur_path tts_id (res :: incoming)
         session_start) = Failed BadGzipFile /\
  merged (snd (recv_loop seg_size resample cur_path tts_id (res :: incoming)
                 session_start)) = None.
Proof.
  intros Hlaws Hfr Ht Hc Hne Hmagic.
  assert (Hrun : forall w', parse_response res w' = (Raise BadGzipFile, w')).
  { intros w'. rewrite parse_response_dispatch, Hfr, dispatch_frontend
      by assumption.
    unfold flagged_data. rewrite Hc. cbn [Z.eqb Pos.eqb].
    rewrite gzip_bad_magic by assumption. reflexivity. }
  split; [apply Hrun|].
  rewrite recv_loop_raise with (e := BadGzipFile);
    [split; reflexivity|].
  unfold done_of. rewrite Hrun. reflexivity.
Qed.

Lemma X10_witness :
  parse_response (H := stored_gzip)
    (frontend_response 1 (bytes_of_string "{}")) world_start =
    (Raise BadGzipFile, world_start) /\
  fst (recv_loop (H := stored_gzip) (P := pydub_example) 0 resample_example
         cur_path_example tts_id_example
         (frontend_response 1 (bytes_of_string "{}") :: [])
         session_start) = Failed BadGzipFile /\
  merged (snd (recv_loop (H := stored_gzip) (P := pydub_example) 0
                 resample_example cur_path_example tts_id_example
                 (frontend_response 1 (bytes_of_string "{}") :: [])
                 session_start)) = None.
Proof.
  apply (X10_frontend_response_without_gzip_data_fails (H := stored_gzip)
           (P := pydub_example) 0 resample_example cur_path_example tts_id_example
           (frontend_response 1 (bytes_of_string "{}"))
           (Frame 1 1 0xc 0 1 1 0 []
              (be_digits 4 2 ++ bytes_of_string "{}"))
           world_start []).
  - exact stored_gzip_laws.
  - reflexivity.
  - reflexivity.
  - reflexivity.
  - discriminate.
  - discriminate.
Defined.

(** ** The header, read back *)

Lemma byte_nibbles (b : byte) :
  0 <= Z.shiftr (byte_val b) 4 < 16 /\
  0 <= Z.land (byte_val b) 0x0f < 16 /\
  byte_of_Z (16 * Z.shiftr (byte_val b) 4 + Z.land (byte_val b) 0x0f) = b.
Proof.
  pose proof (byte_val_range b) as Hb.
  rewrite Z.shiftr_div_pow2 by lia.
  change 0x0f with (Z.ones 4). rewrite Z.land_ones by lia.
  change (2 ^ 4) with 16.
  pose proof (Z.div_mod (byte_val b) 16 ltac:(lia)) as Hdm.
  pose proof (Z.mod_pos_bound (byte_val b) 16 ltac:(lia)) as Hm.
  split; [split; [apply Z.div_pos; lia | apply Z.div_lt_upper_bound; lia]|].
  split; [exact Hm|].
  rewrite <- Hdm. apply byte_of_Z_val.
Qed.

(** X11.  Decoding loses nothing of a message.  The six header fields
    are nibbles, and the first four bytes are rebuilt from the fields as
    [16 * high + low]; when the header size is at least 1 the header
    extension followed by the payload is the message after its first four
    bytes, and when the header size nibble is 0 the payload is the whole
    message, its four header bytes included. *)
Theorem X11_decoding_partitions_the_message (res : bytes) (fr : frame) :
  header_of res = Return fr ->
  (0 <= protocol_version fr < 16 /\ 0 <= header_size fr < 16 /\
   0 <= message_type fr < 16 /\ 0 <= message_type_specific_flags fr < 16 /\
   0 <= serialization_method fr < 16 /\ 0 <= message_compression fr < 16 /\
   0 <= reserved fr < 256) /\
  take 4 res =
    [byte_of_Z (16 * protocol_version fr + header_size fr);
     byte_of_Z (16 * message_type fr + message_type_specific_flags fr);
     byte_of_Z (16 * serialization_method fr + message_compression fr);
     byte_of_Z (reserved fr)] /\
  (1 <= header_size fr -> header_extensions fr ++ payload fr = drop 4 res) /\
  (header_size fr = 0 -> header_extensions fr = [] /\ payload fr = res).
Proof.
  intros Hfr.
  destruct (header_of_Return res fr Hfr) as (Hlen & Hpay & Hext & Hhs).
  destruct res as [|r0 [|r1 [|r2 [|r3 rest]]]]; simpl in Hlen; try lia.
  unfold header_of in Hfr. rewrite decode_header_cons in Hfr.
  injection Hfr as Hfr.
  destruct (byte_nibbles r0) as (H0h & H0l & H0).
  destruct (byte_nibbles r1) as (H1h & H1l & H1).
  destruct (byte_nibbles r2) as (H2h & H2l & H2).
  pose proof (byte_val_range r3) as H3.
  split; [|split; [|split]].
  - rewrite <- Hfr. cbn [protocol_version header_size message_type
      message_type_specific_flags serialization_method message_compression
      reserved]. repeat split; lia.
  - rewrite <- Hfr. cbn [protocol_version header_size message_type
      message_type_specific_flags serialization_method message_compression
      reserved take]. rewrite H0, H1, H2, byte_of_Z_val. reflexivity.
  - intros Hone. rewrite Hext, Hpay. unfold slice.
    replace (Z.to_nat (header_size fr * 4))
      with (4 + (Z.to_nat (header_size fr * 4) - 4))%nat at 2 by lia.
    rewrite <- drop_drop. apply take_drop.
  - intros Hzero. rewrite Hext, Hpay, Hzero. split; reflexivity.
Qed.

Lemma X11_witness :
  take 4 short_audio_response =
    [byte_of_Z (16 * 1 + 1); byte_of_Z (16 * 0xb + 1); byte_of_Z (16 * 1 + 0);
     byte_of_Z 0] /\
  [] ++ [x00; x00; x00; x01; x05] = drop 4 short_audio_response.
Proof.
  destruct (X11_decoding_partitions_the_message short_audio_response
              (Frame 1 1 0xb 1 1 0 0 [] [x00; x00; x00; x01; x05]) eq_refl)
    as (_ & Hhead & Hrest & _).
  split; [exact Hhead | apply Hrest; simpl; lia].
Defined.

(** * Paths *)

(** ** Strings *)

Lemma str_startswith_spec (p s : str) :
  str_startswith p s = true <-> exists r, s = p ++ r.
Proof.
  revert s. induction p as [|x p IH]; intros s.
  - split; [intros _; exists s; reflexivity | reflexivity].
  - destruct s as [|y s]; cbn [str_startswith].
    + split; [discriminate | intros [r Hr]; discriminate].
    + rewrite andb_true_iff, Z.eqb_eq, IH. split.
      * intros [-> [r ->]]. exists r. reflexivity.
      * intros [r Hr]. injection Hr as -> ->. split; [reflexivity|].
        exists r. reflexivity.
Qed.

Lemma str_startswith_app (p r : str) : str_startswith p (p ++ r) = true.
Proof. apply str_startswith_spec. exists r. reflexivity. Qed.

Lemma str_find_from_cases (sub s : str) (i : Z) :
  (str_find_from sub s i = -1 /\
   forall j : nat, str_startswith sub (drop j s) = false) \/
  (exists k : nat,
     str_find_from sub s i = i + Z.of_nat k /\ first_at sub s k /\
     (k <= length s)%nat).
Proof.
  revert i. induction s as [|c s IH]; intros i; cbn [str_find_from].
  - destruct (str_startswith sub []) eqn:Hs.
    + right. exists 0%nat. split; [lia|]. split; [|simpl; lia].
      split; [exact Hs | intros j Hj; lia].
    + left. split; [reflexivity|]. intros j. rewrite drop_nil. exact Hs.
  - destruct (str_startswith sub (c :: s)) eqn:Hs.
    + right. exists 0%nat. split; [lia|]. split; [|simpl; lia].
      split; [exact Hs | intros j Hj; lia].
    + destruct (IH (i + 1)) as [[Hnone Hall]|(k & Hk & [Hat Hmin] & Hlen)].
      * left. split; [exact Hnone|].
        intros [|j]; [exact Hs | apply Hall].
      * right. exists (S k). split; [lia|]. split; [|simpl; lia].
        split; [exact Hat|].
        intros [|j] Hj; [exact Hs | apply Hmin; lia].
Qed.

Lemma str_find_cases (sub s : str) :
  (str_find sub s = -1 /\
   forall j : nat, str_startswith sub (drop j s) = false) \/
  (exists k : nat,
     str_find sub s = Z.of_nat k /\ first_at sub s k /\ (k <= length s)%nat).
Proof.
  unfold str_find.
  destruct (str_find_from_cases sub s 0) as [Hnone|(k & Hk & Hrest)].
  - left. exact Hnone.
  - right. exists k. split; [lia | exact Hrest].
Qed.

(** [str.find] returns -1 exactly when there is no occurrence. *)
Lemma str_find_none (sub s : str) :
  str_find sub s = -1 <-> forall pre post, s <> pre ++ sub ++ post.
Proof.
  split.
  - intros Hfind pre post Heq.
    destruct (str_find_cases sub s) as [[_ Hall]|(k & Hk & _)]; [|lia].
    specialize (Hall (length pre)). rewrite Heq in Hall.
    rewrite drop_app_length, str_startswith_app in Hall. discriminate.
  - intros Hno.
    destruct (str_find_cases sub s) as [[Hnone _]|(k & _ & [Hat _] & _)];
      [exact Hnone|].
    apply str_startswith_spec in Hat. destruct Hat as [r Hr].
    exfalso. apply (Hno (take k s) r).
    rewrite <- Hr. symmetry. apply take_drop.
Qed.

Lemma str_find_first (sub s pre post : str) :
  s = pre ++ sub ++ post ->
  exists k : nat,
    str_find sub s = Z.of_nat k /\ first_at sub s k /\
    (k <= length pre)%nat.
Proof.
  intros Heq.
  destruct (str_find_cases sub s) as [[_ Hall]|(k & Hk & Hfirst & _)].
  - specialize (Hall (length pre)). rewrite Heq in Hall.
    rewrite drop_app_length, str_startswith_app in Hall. discriminate.
  - exists k. split; [exact Hk|]. split; [exact Hfirst|].
    destruct Hfirst as [_ Hmin].
    destruct (Nat.le_gt_cases k (length pre)) as [Hle|Hgt]; [exact Hle|].
    specialize (Hmin (length pre) Hgt). rewrite Heq in Hmin.
    rewrite drop_app_length, str_startswith_app in Hmin. discriminate.
Qed.

(** X12.  When the directory of the module contains the name [pipecat],
    the project root is the shortest prefix of that directory that ends
    with the name: the first occurrence counts, not the last. *)
Theorem X12_project_root_is_the_shortest_prefix_ending_with_the_name
    (cur_path pre post : str) :
  cur_path = pre ++ PROJECT_ROOT_NAME ++ post ->
  exists pre' post' : str,
    cur_path = pre' ++ PROJECT_ROOT_NAME ++ post' /\
    get_project_root cur_path = pre' ++ PROJECT_ROOT_NAME /\
    (length pre' <= length pre)%nat /\
    forall j : nat, (j < length pre')%nat ->
      str_startswith PROJECT_ROOT_NAME (drop j cur_path) = false.
Proof.
  intros Heq.
  destruct (str_find_first PROJECT_ROOT_NAME cur_path pre post Heq)
    as (k & Hk & [Hat Hmin] & Hle).
  apply str_startswith_spec in Hat. destruct Hat as [post' Hpost'].
  assert (Hklen : (k <= length cur_path)%nat).
  { rewrite Heq, length_app. lia. }
  exists (take k cur_path), post'.
  split; [rewrite <- Hpost'; symmetry; apply take_drop|].
  split.
  { unfold get_project_root, str_upto. rewrite Hk.
    destruct (Z.of_nat k <? 0) eqn:Hneg; [lia|].
    rewrite Nat2Z.id. reflexivity. }
  rewrite length_take. split; [lia|].
  intros j Hj. apply Hmin. lia.
Qed.

Lemma X12_witness :
  exists pre' post' : str,
    str_of_string "/home/pipecat_ci/src/pipecat/utils" =
      pre' ++ PROJECT_ROOT_NAME ++ post' /\
    get_project_root (str_of_string "/home/pipecat_ci/src/pipecat/utils") =
      pre' ++ PROJECT_ROOT_NAME /\
    (length pre' <= length (str_of_string "/home/pipecat_ci/src/"))%nat.
Proof.
  destruct (X12_project_root_is_the_shortest_prefix_ending_with_the_name
              (str_of_string "/home/pipecat_ci/src/pipecat/utils")
              (str_of_string "/home/pipecat_ci/src/")
              (str_of_string "/utils") eq_refl)
    as (pre' & post' & Hcur & Hroot & Hlen & _).
  exists pre', post'. split; [exact Hcur|]. split; [exact Hroot | exact Hlen].
Defined.

(** The shortest prefix, on an example: a directory name that merely
    starts with the name is taken for the project root. *)
Example project_root_first_occurrence :
  get_project_root (str_of_string "/home/pipecat_ci/src/pipecat/utils") =
  str_of_string "/home/pipecat".
Proof. vm_compute. reflexivity. Qed.

(** X13.  When the name does not occur in the directory of the module,
    [str.find] returns -1 and the slice [cur_path[:-1]] drops the last
    character: the project root is the directory without its last
    character, followed by the name. *)
Theorem X13_project_root_when_the_name_is_absent (cur_path : str) :
  str_find PROJECT_ROOT_NAME cur_path = -1 ->
  (forall pre post, cur_path <> pre ++ PROJECT_ROOT_NAME ++ post) /\
  get_project_root cur_path =
    take (length cur_path - 1) cur_path ++ PROJECT_ROOT_NAME.
Proof.
  intros Hfind. split; [apply str_find_none; exact Hfind|].
  unfold get_project_root, str_upto. rewrite Hfind.
  cbn [Z.ltb Z.compare]. f_equal. f_equal. lia.
Qed.

Lemma X13_witness :
  get_project_root (str_of_string "/opt/app") =
  str_of_string "/opt/ap" ++ PROJECT_ROOT_NAME.
Proof.
  destruct (X13_project_root_when_the_name_is_absent
              (str_of_string "/opt/app") eq_refl) as [_ Hroot].
  exact Hroot.
Defined.

(** ** Splitting and joining *)

Lemma str_startswith_slash (w : str) :
  Forall (fun c => c <> slash) w -> str_startswith [slash] w = false.
Proof.
  intros Hw. destruct w as [|c w]; [reflexivity|].
  cbn [str_startswith]. apply Forall_cons in Hw. destruct Hw as [Hc _].
  apply Z.eqb_neq in Hc. rewrite Z.eqb_sym, Hc. reflexivity.
Qed.

Lemma str_endswith_slash (s : str) :
  str_endswith [slash] s = true <-> exists r, s = r ++ [slash].
Proof.
  unfold str_endswith. cbn [rev app]. rewrite str_startswith_spec. split.
  - intros [r Hr]. exists (rev r).
    rewrite <- (rev_involutive s), Hr. cbn [rev app]. reflexivity.
  - intros [r ->]. exists (rev r). rewrite rev_app_distr. reflexivity.
Qed.

(** The components of a split contain no separator. *)
Lemma str_split_components (sep : Z) (s : str) :
  str_split sep s <> [] /\
  Forall (fun w => Forall (fun c => c <> sep) w) (str_split sep s).
Proof.
  induction s as [|c s [IHne IH]]; cbn [str_split].
  - split; [discriminate | repeat constructor].
  - destruct (c =? sep) eqn:Hc.
    + split; [discriminate|]. constructor; [constructor | exact IH].
    + apply Z.eqb_neq in Hc.
      destruct (str_split sep s) as [|w ws]; [congruence|].
      split; [discriminate|].
      apply Forall_cons in IH. destruct IH as [Hw Hws].
      constructor; [constructor; assumption | exact Hws].
Qed.

Lemma str_split_word (sep : Z) (u : str) :
  Forall (fun c => c <> sep) u -> str_split sep u = [u].
Proof.
  induction 1 as [|c u Hc _ IH]; [reflexivity|].
  cbn [str_split]. apply Z.eqb_neq in Hc. rewrite Hc, IH. reflexivity.
Qed.

Lemma str_split_app (sep : Z) (u r : str) :
  Forall (fun c => c <> sep) u ->
  str_split sep (u ++ sep :: r) = u :: str_split sep r.
Proof.
  induction 1 as [|c u Hc _ IH]; cbn [app str_split].
  - rewrite Z.eqb_refl. reflexivity.
  - apply Z.eqb_neq in Hc. rewrite Hc, IH. reflexivity.
Qed.

(** Joining components that do not start with the separator only
    extends the path. *)
Lemma os_path_join_extends (p : list str) (a : str) :
  Forall (fun w => str_startswith [slash] w = false) p ->
  exists r, os_path_join a p = a ++ r.
Proof.
  intros Hp. revert a. unfold os_path_join.
  induction Hp as [|w p Hw _ IH]; intros a; cbn [fold_left].
  - exists []. rewrite app_nil_r. reflexivity.
  - unfold join_step at 2. rewrite Hw.
    destruct (bool_decide (a = []) || str_endswith [slash] a).
    + destruct (IH (a ++ w)) as [r Hr]. exists (w ++ r).
      rewrite Hr, <- app_assoc. reflexivity.
    + destruct (IH (a ++ slash :: w)) as [r Hr]. exists (slash :: w ++ r).
      rewrite Hr, <- app_assoc. reflexivity.
Qed.

Lemma join_step_word (a u : str) :
  a <> [] -> str_endswith [slash] a = false ->
  str_startswith [slash] u = false ->
  join_step a u = a ++ slash :: u.
Proof.
  intros Ha Hend Hu. unfold join_step. rewrite Hu, Hend.
  rewrite bool_decide_eq_false_2 by assumption. reflexivity.
Qed.

(** Joining the components of a relative path without empty component
    before its end puts the path behind the root. *)
Lemma os_path_join_split (rest : str) :
  forall (u a : str),
    a <> [] -> str_endswith [slash] a = false ->
    Forall (fun c => c <> slash) u ->
    str_startswith [slash] (u ++ rest) = false ->
    (forall j : nat, str_startswith [slash; slash] (drop j rest) = false) ->
    os_path_join a (str_split slash (u ++ rest)) = a ++ slash :: u ++ rest.
Proof.
  induction rest as [|c r IH]; intros u a Ha Hend Hu Hstart Hdouble.
  - rewrite app_nil_r in *. rewrite str_split_word by assumption.
    unfold os_path_join. cbn [fold_left].
    apply join_step_word; assumption.
  - assert (Hdouble' :
      forall j : nat, str_startswith [slash; slash] (drop j r) = false).
    { intros j. apply (Hdouble (S j)). }
    destruct (Z.eq_dec c slash) as [->|Hc].
    + assert (Hune : u <> []).
      { intros ->. cbn in Hstart. discriminate. }
      rewrite str_split_app by assumption.
      unfold os_path_join. cbn [fold_left].
      rewrite join_step_word;
        [| assumption | assumption | apply str_startswith_slash; exact Hu].
      fold (os_path_join (a ++ slash :: u) (str_split slash r)).
      change r with ([] ++ r) at 1.
      rewrite IH.
      * cbn [app]. rewrite <- app_assoc. reflexivity.
      * destruct a; discriminate.
      * destruct (str_endswith [slash] (a ++ slash :: u)) eqn:He;
          [|reflexivity].
        apply str_endswith_slash in He. destruct He as [q Hq].
        exfalso.
        destruct (exists_last Hune) as (u' & x & ->).
        rewrite app_comm_cons, app_assoc in Hq.
        apply app_inj_tail in Hq. destruct Hq as [_ Hx].
        apply Forall_app in Hu. destruct Hu as [_ Hu].
        apply Forall_cons in Hu. destruct Hu as [Hu _]. congruence.
      * constructor.
      * cbn [app]. specialize (Hdouble 0%nat). rewrite drop_0 in Hdouble.
        destruct r as [|c' r']; [reflexivity|].
        cbn [str_startswith] in Hdouble |- *.
        rewrite Z.eqb_refl in Hdouble. exact Hdouble.
      * exact Hdouble'.
    + replace (u ++ c :: r) with ((u ++ [c]) ++ r)
        by (rewrite <- app_assoc; reflexivity).
      rewrite IH.
      * rewrite <- app_assoc. reflexivity.
      * assumption.
      * assumption.
      * apply Forall_app. split; [assumption | repeat constructor; assumption].
      * rewrite <- app_assoc. exact Hstart.
      * exact Hdouble'.
Qed.

(** ** Replacing *)

Lemma str_replace_go_nil (old new : str) (k : nat) :
  str_replace_go old new k [] = [].
Proof. reflexivity. Qed.

Lemma str_replace_go_skip (old new u v : str) :
  str_replace_go old new (length u) (u ++ v) = str_replace_go old new 0 v.
Proof. induction u as [|c u IH]; [reflexivity | exact IH]. Qed.

(** At an occurrence: the replacement, then the rest. *)
Lemma str_replace_go_at (c : Z) (o new v : str) :
  str_replace_go (c :: o) new 0 ((c :: o) ++ v) =
  new ++ str_replace_go (c :: o) new 0 v.
Proof.
  cbn [app str_replace_go].
  change (c :: o ++ v) with ((c :: o) ++ v).
  rewrite str_startswith_app.
  replace (length (c :: o) - 1)%nat with (length o) by (simpl; lia).
  rewrite str_replace_go_skip. reflexivity.
Qed.

(** Before the first occurrence nothing changes. *)
Lemma str_replace_go_before (old new : str) (k : nat) :
  forall s : str,
    (k <= length s)%nat ->
    (forall j : nat, (j < k)%nat -> str_startswith old (drop j s) = false) ->
    str_replace_go old new 0 s = take k s ++ str_replace_go old new 0 (drop k s).
Proof.
  induction k as [|k IH]; intros s Hlen Hbefore; [reflexivity|].
  destruct s as [|c s]; [simpl in Hlen; lia|].
  cbn [str_replace_go take drop app].
  pose proof (Hbefore 0%nat ltac:(lia)) as H0. rewrite drop_0 in H0.
  rewrite H0. f_equal. apply IH.
  - simpl in Hlen. lia.
  - intros j Hj. apply (Hbefore (S j)). lia.
Qed.

Lemma str_replace_go_absent (old new s : str) :
  (forall j : nat, str_startswith old (drop j s) = false) ->
  str_replace_go old new 0 s = s.
Proof.
  intros Habs.
  rewrite (str_replace_go_before old new (length s) s);
    [| lia | intros j _; apply Habs].
  rewrite take_ge, drop_ge by lia. apply app_nil_r.
Qed.

Lemma str_startswith_absent_head (x : Z) (o s : str) :
  Forall (fun c => c <> x) s ->
  forall j : nat, str_startswith (x :: o) (drop j s) = false.
Proof.
  intros Hs j.
  assert (Hd : Forall (fun c => c <> x) (drop j s)) by (apply Forall_drop, Hs).
  destruct (drop j s) as [|c r]; [reflexivity|].
  cbn [str_startswith]. apply Forall_cons in Hd. destruct Hd as [Hc _].
  apply Z.eqb_neq in Hc. rewrite Z.eqb_sym, Hc. reflexivity.
Qed.

Lemma project_root_shape (cur_path : str) :
  get_project_root cur_path <> [] /\
  str_endswith [slash] (get_project_root cur_path) = false.
Proof.
  unfold get_project_root.
  set (x := str_upto _ _). split.
  - destruct x; discriminate.
  - destruct (str_endswith [slash] (x ++ PROJECT_ROOT_NAME)) eqn:He;
      [|reflexivity].
    apply str_endswith_slash in He. destruct He as [r Hr].
    change PROJECT_ROOT_NAME
      with (str_of_string "pipeca" ++ [116]) in Hr.
    rewrite app_assoc in Hr. apply app_inj_tail in Hr.
    destruct Hr as [_ Hr]. discriminate Hr.
Qed.

(** X14.  A path that starts with [{project_root}/] is resolved to the
    project root, a ["/"] and a remainder, whatever follows the marker:
    the components come from a split at ["/"], so none of them restarts
    the path from the root of the file system.  The components are not
    interpreted: [..] is kept as it is, so the result can still name a
    file outside the project root. *)
Theorem X14_parse_path_begins_with_the_project_root (cur_path path : str) :
  str_startswith project_root_marker path = true ->
  exists rest : str,
    parse_path cur_path path = get_project_root cur_path ++ slash :: rest.
Proof.
  intros Hstart. unfold parse_path. rewrite Hstart.
  destruct (str_split_components slash
              (str_replace project_root_marker [] path)) as [Hne Hall].
  destruct (str_split slash (str_replace project_root_marker [] path))
    as [|w ws]; [congruence|].
  apply Forall_cons in Hall. destruct Hall as [Hw Hws].
  destruct (project_root_shape cur_path) as [Hroot Hend].
  unfold os_path_join. cbn [fold_left].
  rewrite join_step_word
    by (try assumption; apply str_startswith_slash, Hw).
  destruct (os_path_join_extends ws
              (get_project_root cur_path ++ slash :: w)) as [r Hr].
  { eapply Forall_impl; [exact Hws|].
    intros u Hu. apply str_startswith_slash, Hu. }
  unfold os_path_join in Hr. rewrite Hr. exists (w ++ r).
  rewrite <- app_assoc. reflexivity.
Qed.

Lemma X14_witness :
  exists rest : str,
    parse_path (str_of_string "/srv/pipecat/src/pipecat/utils")
      (str_of_string "{project_root}//etc/passwd") =
    get_project_root (str_of_string "/srv/pipecat/src/pipecat/utils")
      ++ slash :: rest.
Proof.
  apply (X14_parse_path_begins_with_the_project_root
           (str_of_string "/srv/pipecat/src/pipecat/utils")
           (str_of_string "{project_root}//etc/passwd")).
  reflexivity.
Defined.

(** The two cases, by evaluation: an absolute remainder stays behind the
    root, and [..] is kept uninterpreted. *)
Example parse_path_absolute_remainder :
  parse_path (str_of_string "/srv/pipecat/src/pipecat/utils")
    (str_of_string "{project_root}//etc/passwd") =
  str_of_string "/srv/pipecat/etc/passwd".
Proof. vm_compute. reflexivity. Qed.

Example parse_path_keeps_parent_components :
  parse_path (str_of_string "/srv/pipecat/src/pipecat/utils")
    (str_of_string "{project_root}/../../etc/passwd") =
  str_of_string "/srv/pipecat/../../etc/passwd".
Proof. vm_compute. reflexivity. Qed.

(** X15.  For a relative path [rest] without ["{"], that does not start
    with ["/"] and contains no ["//"], [{project_root}/rest] is resolved
    to the project root, a ["/"], and [rest] unchanged. *)
Theorem X15_parse_path_of_a_plain_relative_path (cur_path rest : str) :
  Forall (fun c => c <> 123) rest ->
  str_startswith [slash] rest = false ->
  str_find [slash; slash] rest = -1 ->
  parse_path cur_path (project_root_marker ++ rest) =
  get_project_root cur_path ++ slash :: rest.
Proof.
  intros Hbrace Hstart Hdouble.
  unfold parse_path. rewrite str_startswith_app.
  assert (Hrep : str_replace project_root_marker []
                   (project_root_marker ++ rest) = rest).
  { unfold str_replace.
    change project_root_marker
      with (123 :: str_of_string "project_root}/") at 1 2 3.
    rewrite str_replace_go_at. cbn [app].
    apply str_replace_go_absent, str_startswith_absent_head, Hbrace. }
  rewrite Hrep.
  destruct (project_root_shape cur_path) as [Hne Hend].
  change rest with ([] ++ rest) at 1.
  rewrite os_path_join_split; try assumption; [reflexivity | constructor |].
  destruct (str_find_cases [slash; slash] rest) as [[_ Hall]|(k & Hk & _)];
    [exact Hall | lia].
Qed.

Lemma X15_witness :
  parse_path (str_of_string "/srv/pipecat/src/pipecat/utils")
    (project_root_marker ++ str_of_string "var/temp/x.mp3") =
  get_project_root (str_of_string "/srv/pipecat/src/pipecat/utils")
    ++ slash :: str_of_string "var/temp/x.mp3".
Proof.
  apply (X15_parse_path_of_a_plain_relative_path
           (str_of_string "/srv/pipecat/src/pipecat/utils")
           (str_of_string "var/temp/x.mp3")).
  - repeat constructor; discriminate.
  - reflexivity.
  - reflexivity.
Defined.

(** Where the simple form does not hold: a doubled ["/"] is dropped. *)
Example parse_path_drops_doubled_slash :
  parse_path (str_of_string "/srv/pipecat/src")
    (str_of_string "{project_root}/var//temp") =
  str_of_string "/srv/pipecat/var/temp".
Proof. vm_compute. reflexivity. Qed.

(** ** Segment files *)

Lemma byte_val_inj (a b : byte) : byte_val a = byte_val b -> a = b.
Proof.
  intros Hab. rewrite <- (byte_of_Z_val a), <- (byte_of_Z_val b), Hab.
  reflexivity.
Qed.

Lemma str_of_string_inj (a b : string) :
  str_of_string a = str_of_string b -> a = b.
Proof.
  unfold str_of_string, bytes_of_string. intros Hab.
  assert (Hbytes : list_byte_of_string a = list_byte_of_string b).
  { revert Hab. generalize (list_byte_of_string a) (list_byte_of_string b).
    induction l as [|x l IH]; intros [|y l'] Hl; try discriminate;
      [reflexivity|].
    cbn [fmap list_fmap] in Hl. injection Hl as Hxy Hl.
    f_equal; [apply byte_val_inj, Hxy | apply IH, Hl]. }
  rewrite <- (string_of_list_byte_of_string a),
    <- (string_of_list_byte_of_string b), Hbytes. reflexivity.
Qed.

Lemma str_of_nat_inj (i j : nat) : str_of_nat i = str_of_nat j -> i = j.
Proof.
  unfold str_of_nat. intros Hij. apply str_of_string_inj in Hij.
  apply DecimalNat.Unsigned.to_uint_inj.
  assert (Hu : Some (Nat.to_uint i) = Some (Nat.to_uint j)).
  { rewrite <- !NilEmpty.usu, Hij. reflexivity. }
  injection Hu as Hu. exact Hu.
Qed.

(** The characters of [str(n)] are decimal digits. *)
Lemma str_of_nat_digits (n : nat) :
  Forall (fun c => 48 <= c <= 57) (str_of_nat n).
Proof.
  unfold str_of_nat. generalize (Nat.to_uint n). intros d.
  induction d as [|d IH|d IH|d IH|d IH|d IH|d IH|d IH|d IH|d IH|d IH];
    [constructor | ..];
    (constructor; [vm_compute; split; discriminate | exact IH]).
Qed.

(** Two strings of digits followed by the same non-digit: the digits agree. *)
Lemma digits_then_dot (d1 d2 r1 r2 : str) (x : Z) :
  Forall (fun c => 48 <= c <= 57) d1 ->
  Forall (fun c => 48 <= c <= 57) d2 ->
  ~ (48 <= x <= 57) ->
  d1 ++ x :: r1 = d2 ++ x :: r2 -> d1 = d2.
Proof.
  intros H1. revert d2. induction H1 as [|c d1 Hc _ IH]; intros d2 H2 Hx Heq.
  - destruct H2 as [|c' d2 Hc' _]; [reflexivity|].
    cbn [app] in Heq. injection Heq as -> _. contradiction.
  - destruct H2 as [|c' d2 Hc' H2].
    + cbn [app] in Heq. injection Heq as -> _. contradiction.
    + cbn [app] in Heq. injection Heq as -> Heq. f_equal.
      apply IH; assumption.
Qed.

Lemma seg_path_of_first (save_path : str) (idx k : nat) (post : str) :
  first_at (str_of_string ".mp3") save_path k ->
  drop k save_path = str_of_string ".mp3" ++ post ->
  seg_path_of save_path idx =
  take k save_path
    ++ (str_of_string "." ++ str_of_nat idx ++ str_of_string ".pcm")
    ++ str_replace (str_of_string ".mp3")
         (str_of_string "." ++ str_of_nat idx ++ str_of_string ".pcm") post.
Proof.
  intros [_ Hmin] Hdrop. unfold seg_path_of, str_replace.
  change (str_of_string ".mp3") with (46 :: str_of_string "mp3") in *.
  assert (Hk : (k <= length save_path)%nat).
  { destruct (Nat.le_gt_cases k (length save_path)) as [|Hgt]; [assumption|].
    rewrite drop_ge in Hdrop by lia. discriminate. }
  rewrite (str_replace_go_before _ _ k save_path Hk Hmin), Hdrop.
  rewrite str_replace_go_at. reflexivity.
Qed.

(** The segment paths of a save path in which [.mp3] occurs. *)
Lemma seg_path_of_distinct (save_path : str) (k i j : nat) :
  first_at (str_of_string ".mp3") save_path k ->
  seg_path_of save_path i = seg_path_of save_path j ->
  i = j.
Proof.
  intros Hfirst Hsame.
  pose proof Hfirst as [Hat _].
  apply str_startswith_spec in Hat. destruct Hat as [post' Hpost'].
  rewrite (seg_path_of_first save_path i k post' Hfirst Hpost') in Hsame.
  rewrite (seg_path_of_first save_path j k post' Hfirst Hpost') in Hsame.
  apply app_inv_head in Hsame.
  rewrite <- !app_assoc in Hsame.
  cbn [str_of_string fmap list_fmap app] in Hsame.
  change (byte_val <$> bytes_of_string ".") with [46] in Hsame.
  cbn [app] in Hsame. injection Hsame as Hsame.
  change (byte_val <$> bytes_of_string ".pcm")
    with (46 :: str_of_string "pcm") in Hsame.
  cbn [app] in Hsame.
  apply str_of_nat_inj.
  eapply digits_then_dot; [apply str_of_nat_digits .. | | exact Hsame].
  vm_compute. intros [Hlow _]. apply Hlow. reflexivity.
Qed.

(** [".mp3" in save_path] makes the segment paths an injection of the
    segment numbers. *)
Lemma seg_path_of_inj (save_path : str) :
  str_find (str_of_string ".mp3") save_path <> -1 ->
  Inj (=) (=) (seg_path_of save_path).
Proof.
  intros Hfind i j Hsame.
  destruct (str_find_cases (str_of_string ".mp3") save_path)
    as [[Hnone _]|(k & _ & Hfirst & _)]; [congruence|].
  exact (seg_path_of_distinct save_path k i j Hfirst Hsame).
Qed.

(** X16.  The segment files of a session are distinct: for a save path
    that contains [.mp3], the segment paths of two different indices
    differ, so no segment is written over another. *)
Theorem X16_segment_paths_are_distinct
    (save_path pre post : str) (i j : nat) :
  save_path = pre ++ str_of_string ".mp3" ++ post ->
  seg_path_of save_path i = seg_path_of save_path j ->
  i = j.
Proof.
  intros Heq Hsame.
  destruct (str_find_first (str_of_string ".mp3") save_path pre post Heq)
    as (k & _ & Hfirst & _).
  exact (seg_path_of_distinct save_path k i j Hfirst Hsame).
Qed.

Lemma X16_witness :
  seg_path_of (str_of_string "/srv/a.mp3/x.mp3") 0 <>
  seg_path_of (str_of_string "/srv/a.mp3/x.mp3") 10.
Proof.
  intros Hsame.
  pose proof (X16_segment_paths_are_distinct
                (str_of_string "/srv/a.mp3/x.mp3") (str_of_string "/srv/a")
                (str_of_string "/x.mp3") 0 10 eq_refl Hsame) as Hij.
  discriminate Hij.
Defined.

(** X17.  When [.mp3] occurs in the save path only as its suffix, the
    prefix of the files of the session is the save path without the
    suffix and the segment file number [idx] is that prefix followed by
    [.idx.pcm]: every segment file starts with the prefix, which is what
    [delete_file_by_prefix] is called with before the session. *)
Theorem X17_segment_paths_extend_the_file_prefix (base : str) (idx : nat) :
  str_find (str_of_string ".mp3") (base ++ str_of_string ".mp3") =
    Z.of_nat (length base) ->
  file_prefix_of (base ++ str_of_string ".mp3") = base /\
  seg_path_of (base ++ str_of_string ".mp3") idx =
    base ++ str_of_string "." ++ str_of_nat idx ++ str_of_string ".pcm" /\
  str_startswith (file_prefix_of (base ++ str_of_string ".mp3"))
    (seg_path_of (base ++ str_of_string ".mp3") idx) = true.
Proof.
  intros Hfind.
  assert (Hfirst : first_at (str_of_string ".mp3")
                     (base ++ str_of_string ".mp3") (length base)).
  { destruct (str_find_cases (str_of_string ".mp3")
                (base ++ str_of_string ".mp3"))
      as [[Hnone _]|(k & Hk & Hfirst & _)];
      [rewrite Hnone in Hfind; lia|].
    rewrite Hk in Hfind. apply Nat2Z.inj in Hfind. subst k. exact Hfirst. }
  assert (Hseg : forall new,
    str_replace (str_of_string ".mp3") new (base ++ str_of_string ".mp3") =
    base ++ new).
  { intros new. unfold str_replace.
    change (str_of_string ".mp3") with (46 :: str_of_string "mp3") in *.
    destruct Hfirst as [_ Hmin].
    assert (Hlen : Nat.le (length base)
                     (length (base ++ 46 :: str_of_string "mp3")))
      by (rewrite length_app; apply Nat.le_add_r).
    rewrite (str_replace_go_before _ _ (length base) _ Hlen Hmin).
    rewrite take_app_length, drop_app_length.
    rewrite <- (app_nil_r (46 :: str_of_string "mp3")) at 2.
    rewrite str_replace_go_at. cbn [str_replace_go].
    rewrite app_nil_r. reflexivity. }
  assert (Hprefix : file_prefix_of (base ++ str_of_string ".mp3") = base).
  { unfold file_prefix_of. rewrite Hseg. apply app_nil_r. }
  split; [exact Hprefix|]. split.
  - unfold seg_path_of. apply Hseg.
  - rewrite Hprefix. unfold seg_path_of. rewrite Hseg.
    apply str_startswith_app.
Qed.

Lemma X17_witness :
  file_prefix_of (str_of_string "/srv/var/temp/x" ++ str_of_string ".mp3") =
    str_of_string "/srv/var/temp/x" /\
  seg_path_of (str_of_string "/srv/var/temp/x" ++ str_of_string ".mp3") 12 =
    str_of_string "/srv/var/temp/x" ++ str_of_string "."
      ++ str_of_nat 12 ++ str_of_string ".pcm".
Proof.
  destruct (X17_segment_paths_extend_the_file_prefix
              (str_of_string "/srv/var/temp/x") 12 eq_refl)
    as (Hprefix & Hseg & _).
  split; [exact Hprefix | exact Hseg].
Defined.

(** Where the prefix fails: with a second [.mp3] in the save path the
    segment files do not start with the prefix. *)
Example segment_path_outside_the_prefix :
  str_startswith (file_prefix_of (str_of_string "/srv/a.mp3/x.mp3"))
    (seg_path_of (str_of_string "/srv/a.mp3/x.mp3") 0) = false.
Proof. vm_compute. reflexivity. Qed.

(** ** The save path *)

(** A word that ends with a character does not occur in a string
    without that character. *)
Lemma str_startswith_needs_last (o : str) (x : Z) (s : str) :
  Forall (fun c => c <> x) s ->
  forall j : nat, str_startswith (o ++ [x]) (drop j s) = false.
Proof.
  intros Hs j.
  destruct (str_startswith (o ++ [x]) (drop j s)) eqn:Hat; [|reflexivity].
  apply str_startswith_spec in Hat. destruct Hat as [r Hr].
  assert (Hd : Forall (fun c => c <> x) (drop j s))
    by (apply Forall_drop, Hs).
  rewrite Hr, <- app_assoc in Hd.
  apply Forall_app in Hd. destruct Hd as [_ Hd].
  cbn [app] in Hd. apply Forall_cons in Hd. destruct Hd as [Hx _].
  congruence.
Qed.

(** Replacing the occurrences of a word that ends with ["/"] keeps a
    suffix without ["/"]: no occurrence reaches into it. *)
Lemma str_replace_go_keeps_suffix (o new suf : str) :
  Forall (fun c => c <> slash) suf ->
  forall (s : str) (k : nat),
    (k <= length s)%nat ->
    exists u : str,
      str_replace_go (o ++ [slash]) new k (s ++ suf) = u ++ suf.
Proof.
  intros Hsuf. induction s as [|c s IH]; intros k Hk.
  - assert (k = 0%nat) by (simpl in Hk; lia). subst k. cbn [app].
    exists []. apply str_replace_go_absent, str_startswith_needs_last, Hsuf.
  - destruct k as [|k]; cbn [app str_replace_go];
      [|apply IH; simpl in Hk; lia].
    destruct (str_startswith (o ++ [slash]) (c :: s ++ suf)) eqn:Hat.
    + assert (Hfit : (length (o ++ [slash]) - 1 <= length s)%nat).
      { apply str_startswith_spec in Hat. destruct Hat as [r Hr].
        change (c :: s ++ suf) with ((c :: s) ++ suf) in Hr.
        apply app_eq_app in Hr.
        destruct Hr as [l [[Hs _]|[Ho Hl]]].
        - apply (f_equal length) in Hs. rewrite !length_app in Hs.
          rewrite !length_app. simpl in Hs |- *. lia.
        - destruct l as [|x l].
          { apply (f_equal length) in Ho. rewrite !length_app in Ho.
            rewrite !length_app. simpl in Ho |- *. lia. }
          exfalso.
          assert (Hne : x :: l <> []) by discriminate.
          destruct (exists_last Hne) as (l' & y & Hy).
          rewrite Hy, app_assoc in Ho. apply app_inj_tail in Ho.
          destruct Ho as [_ <-].
          rewrite Hl, Hy, <- app_assoc in Hsuf.
          apply Forall_app in Hsuf. destruct Hsuf as [_ Hsuf].
          apply Forall_app in Hsuf. destruct Hsuf as [Hsuf _].
          apply Forall_cons in Hsuf. destruct Hsuf as [Hsuf _].
          congruence. }
      destruct (IH _ Hfit) as [u Hu]. exists (new ++ u).
      rewrite Hu, app_assoc. reflexivity.
    + destruct (IH 0%nat ltac:(lia)) as [u Hu]. exists (c :: u).
      rewrite Hu. reflexivity.
Qed.

(** The last component of a split holds the suffix behind the last
    separator. *)
Lemma str_split_last (suf u : str) :
  Forall (fun c => c <> slash) suf ->
  exists (ws : list str) (w : str),
    str_split slash (u ++ suf) = ws ++ [w ++ suf].
Proof.
  intros Hsuf. induction u as [|c u (ws & w & IH)].
  - exists [], []. cbn [app]. apply str_split_word, Hsuf.
  - cbn [app str_split]. rewrite IH. destruct (c =? slash).
    + exists ([] :: ws), w. reflexivity.
    + destruct ws as [|w0 ws]; cbn [app].
      * exists [], (c :: w). reflexivity.
      * exists ((c :: w0) :: ws), w. reflexivity.
Qed.

(** A join ends with its last component, when that does not start
    with ["/"]. *)
Lemma os_path_join_last (a : str) (ws : list str) (w : str) :
  str_startswith [slash] w = false ->
  exists base : str, os_path_join a (ws ++ [w]) = base ++ w.
Proof.
  intros Hw. unfold os_path_join. rewrite fold_left_app.
  cbn [fold_left]. unfold join_step at 1. rewrite Hw.
  destruct (bool_decide (fold_left join_step ws a = [])
            || str_endswith [slash] (fold_left join_step ws a)).
  - eexists. reflexivity.
  - exists (fold_left join_step ws a ++ [slash]).
    rewrite <- app_assoc. reflexivity.
Qed.

Lemma str_replace_marker (new s : str) :
  str_replace project_root_marker new s =
  str_replace_go (str_of_string "{project_root}" ++ [slash]) new 0 s.
Proof. reflexivity. Qed.

(** Line 100: whatever the directory of the module and the identifier,
    the save path ends with [.mp3]. *)
Lemma save_path_of_suffix (cur_path tts_id : str) :
  exists base : str,
    save_path_of cur_path tts_id = base ++ str_of_string ".mp3".
Proof.
  assert (Hsuf : Forall (fun c => c <> slash) (str_of_string ".mp3"))
    by (repeat constructor; discriminate).
  unfold save_path_of, parse_path.
  change (str_of_string "{project_root}/var/temp/")
    with (project_root_marker ++ str_of_string "var/temp/").
  rewrite <- app_assoc, str_startswith_app, str_replace_marker.
  rewrite !app_assoc.
  destruct (str_replace_go_keeps_suffix (str_of_string "{project_root}") []
              (str_of_string ".mp3") Hsuf
              ((project_root_marker ++ str_of_string "var/temp/") ++ tts_id)
              0 (Nat.le_0_l _)) as [u Hu].
  rewrite Hu.
  destruct (str_split_last (str_of_string ".mp3") u Hsuf)
    as (ws & w & Hsplit).
  destruct (str_split_components slash (u ++ str_of_string ".mp3"))
    as [_ Hall].
  rewrite Hsplit in Hall |- *.
  apply Forall_app in Hall. destruct Hall as [_ Hw].
  apply Forall_cons in Hw. destruct Hw as [Hw _].
  destruct (os_path_join_last (get_project_root cur_path) ws
              (w ++ str_of_string ".mp3") (str_startswith_slash _ Hw))
    as [base Hbase].
  exists (base ++ w). rewrite Hbase, <- app_assoc. reflexivity.
Qed.

(** [".mp3" in save_path] *)
Lemma save_path_of_mp3 (cur_path tts_id : str) :
  str_find (str_of_string ".mp3") (save_path_of cur_path tts_id) <> -1.
Proof.
  intros Hnone. destruct (save_path_of_suffix cur_path tts_id) as [base Hb].
  apply (proj1 (str_find_none _ _) Hnone base []).
  rewrite app_nil_r. exact Hb.
Qed.

(** X25.  The save path of a session ends with [.mp3], whatever the
    directory of the module and whatever the identifier put in it: the
    marker that [parse_path] removes ends with ["/"] and the components
    are split at ["/"], so neither reaches into the suffix.  Hence the
    segments of one session always have distinct files. *)
Theorem X25_the_save_path_ends_with_mp3 (cur_path tts_id : str) :
  (exists base : str,
      save_path_of cur_path tts_id = base ++ str_of_string ".mp3") /\
  forall i j : nat,
    seg_path_of (save_path_of cur_path tts_id) i =
      seg_path_of (save_path_of cur_path tts_id) j ->
    i = j.
Proof.
  split; [apply save_path_of_suffix|].
  intros i j Hsame.
  exact (seg_path_of_inj _ (save_path_of_mp3 cur_path tts_id) i j Hsame).
Qed.

(** Two save paths, by evaluation: for a UUID, and for an identifier that
    itself contains the marker and a ["/"]. *)
Example save_path_example_uuid :
  save_path_of (str_of_string "/srv/pipecat/src/pipecat/utils")
    (str_of_string "2f1e4fc2-7d3a-4b0c-9b65-0c1f6d1c2a77") =
  str_of_string
    "/srv/pipecat/var/temp/2f1e4fc2-7d3a-4b0c-9b65-0c1f6d1c2a77.mp3".
Proof. vm_compute. reflexivity. Qed.

Example save_path_example_marker :
  save_path_of (str_of_string "/srv/pipecat/src/pipecat/utils")
    (str_of_string "a{project_root}/b") =
  str_of_string "/srv/pipecat/var/temp/ab.mp3".
Proof. vm_compute. reflexivity. Qed.

(** * Deleting and merging *)

Section DeleteFacts.
Variable glob : gmap str bytes -> str -> list str.
Variable removable : str -> bool.

Lemma delete_step_lookup (st : gmap str bytes * list printed) (file p : str) :
  fst (delete_step removable st file) !! p =
  if bool_decide (p = file) && removable p then None else fst st !! p.
Proof.
  unfold delete_step, os_remove.
  destruct (bool_decide (p = file)) eqn:Hp.
  - apply bool_decide_eq_true in Hp. subst p. cbn [andb].
    destruct (fst st !! file) eqn:Hf; [destruct (removable file)|];
      cbn [fst].
    + apply lookup_delete_eq.
    + exact Hf.
    + destruct (removable file); exact Hf.
  - apply bool_decide_eq_false in Hp. cbn [andb].
    destruct (fst st !! file); [destruct (removable file)|]; cbn [fst];
      try reflexivity.
    apply lookup_delete_ne. congruence.
Qed.

Lemma delete_fold (files : list str) :
  forall st : gmap str bytes * list printed,
    (forall p : str,
        fst (fold_left (delete_step removable) files st) !! p =
        if bool_decide (p ∈ files) && removable p then None
        else fst st !! p) /\
    printed_file <$> snd (fold_left (delete_step removable) files st) =
      (printed_file <$> snd st) ++ files.
Proof.
  induction files as [|file files IH]; intros st; cbn [fold_left].
  - split; [intros p; reflexivity | rewrite app_nil_r; reflexivity].
  - destruct (IH (delete_step removable st file)) as [Hfs Hout]. split.
    + intros p. rewrite Hfs, delete_step_lookup.
      destruct (removable p); rewrite ?andb_true_r, ?andb_false_r;
        [|reflexivity].
      destruct (bool_decide (p ∈ files)) eqn:Hin.
      * apply bool_decide_eq_true in Hin.
        rewrite bool_decide_eq_true_2 by (right; exact Hin). reflexivity.
      * apply bool_decide_eq_false in Hin.
        destruct (bool_decide (p = file)) eqn:Hp.
        -- apply bool_decide_eq_true in Hp. subst p.
           rewrite bool_decide_eq_true_2 by left. reflexivity.
        -- apply bool_decide_eq_false in Hp.
           rewrite bool_decide_eq_false_2; [reflexivity|].
           intros Hcons. apply elem_of_cons in Hcons.
           destruct Hcons; contradiction.
    + rewrite Hout. unfold delete_step.
      destruct (os_remove removable file (fst st)); cbn [snd];
        rewrite fmap_app, <- app_assoc; reflexivity.
Qed.

End DeleteFacts.

(** X18.  [delete_file_by_prefix] removes the files found by the glob
    that [os.remove] can remove, and nothing else: every other file is
    left as it was, a file that cannot be removed does not stop the
    removal of the ones after it, and one line is printed per file found,
    in order. *)
Theorem X18_delete_file_by_prefix_removes_what_it_can
    (glob : gmap str bytes -> str -> list str) (removable : str -> bool)
    (prefix : str) (fs : gmap str bytes) :
  let files := glob fs (prefix ++ str_of_string "*") in
  let r := delete_file_by_prefix glob removable prefix fs in
  (forall p : str,
      fst r !! p =
      if bool_decide (p ∈ files) && removable p then None else fs !! p) /\
  printed_file <$> snd r = files.
Proof.
  intros files r. subst r. unfold delete_file_by_prefix. fold files.
  destruct (delete_fold removable files (fs, [])) as [Hfs Hout].
  split; [exact Hfs | exact Hout].
Qed.

(** The loop, by evaluation: the second file cannot be removed, the
    third is removed all the same. *)
Example delete_file_by_prefix_example :
  delete_file_by_prefix
    (fun _ _ => [[1]; [2]; [3]]) (fun p => negb (bool_decide (p = [2])))
    [] (<[[1] := []]> (<[[2] := []]> (<[[3] := []]> (<[[4] := []]> ∅)))) =
  (<[[2] := []]> (<[[4] := []]> ∅),
   [Deleted [1]; FailedToDelete [2]; Deleted [3]]).
Proof. vm_compute. reflexivity. Qed.

Section MergeFacts.
Context {E A T : Type}.
Variable audio_segment : bytes -> Z -> Z -> Z -> tried E A.
Variable add : A -> A -> tried E A.
Variable truth : A -> bool.
Variable export : A -> str -> tried E T.
Variable fs : gmap str bytes.
Variables sample_rate channels bit_depth : Z.

(** While the audio merged so far counts as true, the loop adds. *)
Lemma merge_loop_adds (pcm_segs : list str) (segs : list A) :
  (forall a b c : A, truth a = true -> add a b = Done c -> truth c = true) ->
  Forall2
    (fun p b =>
       Audio.load_audioseg_from_pcm audio_segment fs p
         sample_rate channels bit_depth = Done b) pcm_segs segs ->
  forall a : A,
    truth a = true ->
    Audio.merge_loop audio_segment add truth fs pcm_segs (Some a)
      sample_rate channels bit_depth =
    match Audio.add_all add a segs with
    | Done c => Done (Some c)
    | Raised e => Raised (LibraryError e)
    end.
Proof.
  intros Hgrow Hload.
  induction Hload as [|p b pcm_segs segs Hp _ IH]; intros a Ha;
    [reflexivity|].
  cbn [Audio.merge_loop Audio.add_all]. rewrite Hp, Ha. cbn [negb].
  destruct (add a b) as [c|e] eqn:Hadd; [|reflexivity].
  apply IH. exact (Hgrow a b c Ha Hadd).
Qed.

(** An audio merged so far that counts as false counts for nothing. *)
Lemma merge_loop_false (pcm_segs : list str) (a : A) :
  truth a = false ->
  pcm_segs <> [] ->
  Audio.merge_loop audio_segment add truth fs pcm_segs (Some a)
    sample_rate channels bit_depth =
  Audio.merge_loop audio_segment add truth fs pcm_segs None
    sample_rate channels bit_depth.
Proof.
  intros Ha Hne. destruct pcm_segs as [|p pcm_segs]; [congruence|].
  cbn [Audio.merge_loop]. rewrite Ha. cbn [negb]. reflexivity.
Qed.

End MergeFacts.

(** X20.  When every segment file exists and loads, the first segment
    counts as true, and adding to an audio that counts as true gives one
    that does, the merge exports the segments added from left to right,
    in the order of the list; a failure of an addition or of the export is
    the failure of the merge. *)
Theorem X20_merge_exports_the_segments_in_order
    {E A T : Type} (audio_segment : bytes -> Z -> Z -> Z -> tried E A)
    (add : A -> A -> tried E A) (truth : A -> bool)
    (export : A -> str -> tried E T) (fs : gmap str bytes)
    (mp3_path : str) (sample_rate channels bit_depth : Z)
    (pcm_seg : str) (pcm_segs : list str) (a : A) (segs : list A) :
  (forall a b c : A, truth a = true -> add a b = Done c -> truth c = true) ->
  Audio.load_audioseg_from_pcm audio_segment fs pcm_seg
    sample_rate channels bit_depth = Done a ->
  Forall2
    (fun p b =>
       Audio.load_audioseg_from_pcm audio_segment fs p
         sample_rate channels bit_depth = Done b) pcm_segs segs ->
  truth a = true ->
  Audio.merge_pcm_list_into_mp3 audio_segment add truth export fs
    (pcm_seg :: pcm_segs) mp3_path sample_rate channels bit_depth =
  match Audio.add_all add a segs with
  | Done audio_full =>
      match export audio_full mp3_path with
      | Done r => Done r
      | Raised e => Raised (LibraryError e)
      end
  | Raised e => Raised (LibraryError e)
  end.
Proof.
  intros Hgrow Hfirst Hload Ha.
  unfold Audio.merge_pcm_list_into_mp3. cbn [Audio.merge_loop].
  rewrite Hfirst.
  rewrite (merge_loop_adds audio_segment add truth fs sample_rate channels
             bit_depth pcm_segs segs Hgrow Hload a Ha).
  destruct (Audio.add_all add a segs); reflexivity.
Qed.

Lemma X20_witness :
  Audio.merge_pcm_list_into_mp3 (E := unit) (T := bytes)
    (fun data _ _ _ => Done data) (fun a b => Done (a ++ b))
    (fun a => negb (bool_decide (length a = 0%nat))) (fun a _ => Done a)
    (<[[0] := [x01; x02]]> (<[[1] := [x03; x04]]> ∅))
    ([0] :: [[1]]) [9] 24000 1 16 =
  Done [x01; x02; x03; x04].
Proof.
  apply (X20_merge_exports_the_segments_in_order (E := unit) (T := bytes)
           (fun data _ _ _ => Done data) (fun a b => Done (a ++ b))
           (fun a => negb (bool_decide (length a = 0%nat)))
           (fun a _ => Done a)
           (<[[0] := [x01; x02]]> (<[[1] := [x03; x04]]> ∅))
           [9] 24000 1 16 [0] [[1]] [x01; x02] [[x03; x04]]).
  - intros a b c Ha Hadd. injection Hadd as <-.
    destruct a; [discriminate Ha | reflexivity].
  - reflexivity.
  - repeat constructor.
  - reflexivity.
Defined.

(** X21.  The test [if not audio_full] is a test of truth, not of
    [None]: when the first segment loads as an audio that counts as false
    and other segments follow, the merge is the merge of the segments
    that follow; the first segment is left out of the result. *)
Theorem X21_a_first_segment_that_counts_as_false_is_left_out
    {E A T : Type} (audio_segment : bytes -> Z -> Z -> Z -> tried E A)
    (add : A -> A -> tried E A) (truth : A -> bool)
    (export : A -> str -> tried E T) (fs : gmap str bytes)
    (mp3_path : str) (sample_rate channels bit_depth : Z)
    (pcm_seg : str) (pcm_segs : list str) (a : A) :
  Audio.load_audioseg_from_pcm audio_segment fs pcm_seg
    sample_rate channels bit_depth = Done a ->
  truth a = false ->
  pcm_segs <> [] ->
  Audio.merge_pcm_list_into_mp3 audio_segment add truth export fs
    (pcm_seg :: pcm_segs) mp3_path sample_rate channels bit_depth =
  Audio.merge_pcm_list_into_mp3 audio_segment add truth export fs
    pcm_segs mp3_path sample_rate channels bit_depth.
Proof.
  intros Hfirst Ha Hne.
  unfold Audio.merge_pcm_list_into_mp3. cbn [Audio.merge_loop].
  rewrite Hfirst.
  rewrite (merge_loop_false audio_segment add truth fs sample_rate channels
             bit_depth pcm_segs a Ha Hne).
  reflexivity.
Qed.

Lemma X21_witness :
  Audio.merge_pcm_list_into_mp3 (E := unit) (T := bytes)
    (fun data _ _ _ => Done data) (fun a b => Done (a ++ b))
    (fun a => negb (bool_decide (length a = 0%nat))) (fun a _ => Done a)
    (<[[0] := []]> (<[[1] := [x03; x04]]> ∅))
    ([0] :: [[1]]) [9] 24000 1 16 =
  Audio.merge_pcm_list_into_mp3 (E := unit) (T := bytes)
    (fun data _ _ _ => Done data) (fun a b => Done (a ++ b))
    (fun a => negb (bool_decide (length a = 0%nat))) (fun a _ => Done a)
    (<[[0] := []]> (<[[1] := [x03; x04]]> ∅))
    [[1]] [9] 24000 1 16.
Proof.
  apply (X21_a_first_segment_that_counts_as_false_is_left_out
           (E := unit) (T := bytes)
           (fun data _ _ _ => Done data) (fun a b => Done (a ++ b))
           (fun a => negb (bool_decide (length a = 0%nat)))
           (fun a _ => Done a)
           (<[[0] := []]> (<[[1] := [x03; x04]]> ∅))
           [9] 24000 1 16 [0] [[1]] []).
  - reflexivity.
  - reflexivity.
  - discriminate.
Defined.

(** * The receive loop *)

(** ** Segments *)

Section Assembler.
Context `{Gzip} {P : Pydub}.
Variable seg_size : Z.
Variable resample : bytes -> result bytes.
Variables cur_path tts_id : str.

Lemma frames_of_app (segs segs' : list bytes) :
  frames_of resample (segs ++ segs') =
  frames_of resample segs ++ frames_of resample segs'.
Proof. unfold frames_of. rewrite fmap_app, concat_app. reflexivity. Qed.

Lemma frames_of_single (seg : bytes) :
  frames_of resample [seg] = frame_of resample seg.
Proof. unfold frames_of. cbn [fmap list_fmap concat]. apply app_nil_r. Qed.

Lemma session_inv_start : session_inv session_start.
Proof. split; [constructor | intros i _; apply lookup_empty]. Qed.

Lemma session_inv_after_parse (res : bytes) (s : session) :
  session_inv s -> session_inv (after_parse res s).
Proof.
  intros [Hseg Hfresh]. split; [exact Hseg|].
  intros i Hi. cbn [files after_parse idx] in *.
  rewrite lookup_insert_ne by lia. apply Hfresh. exact Hi.
Qed.

Lemma session_inv_close (content : bytes) (s : session) :
  session_inv s -> session_inv (after_close resample content s).
Proof.
  intros [Hseg Hfresh]. split; cbn [idx seg_list files after_close].
  - apply Forall_app. split.
    + eapply Forall_impl; [exact Hseg|]. cbn. intros; lia.
    + constructor; [lia | constructor].
  - intros i Hi. apply Hfresh. lia.
Qed.

Lemma current_after_parse (res : bytes) (s : session) :
  current (after_parse res s) = current s ++ audio_of res.
Proof.
  unfold current. cbn [files after_parse idx].
  rewrite lookup_insert_eq. reflexivity.
Qed.

(** Closing resets the buffer: the next segment file does not exist. *)
Lemma current_close (content : bytes) (s : session) :
  session_inv s -> current (after_close resample content s) = [].
Proof.
  intros [_ Hfresh]. unfold current. cbn [files after_close idx].
  rewrite Hfresh by lia. reflexivity.
Qed.

Lemma segments_after_parse (res : bytes) (s : session) :
  session_inv s -> segments (after_parse res s) = segments s.
Proof.
  intros [Hseg _]. unfold segments. cbn [files after_parse seg_list].
  apply Forall_fmap_ext. eapply Forall_impl; [exact Hseg|].
  cbn. intros p Hp. rewrite lookup_insert_ne by lia. reflexivity.
Qed.

Lemma segments_close (content : bytes) (s : session) :
  segments (after_close resample content s) = segments s ++ [current s].
Proof.
  unfold segments, current. cbn [files after_close seg_list].
  rewrite fmap_app. reflexivity.
Qed.

(** The session once a message has been written to the current segment
    and the segment closed. *)
Lemma after_close_parse (res : bytes) (s : session) :
  session_inv s ->
  session_inv
    (after_close resample (current s ++ audio_of res) (after_parse res s)) /\
  segments
    (after_close resample (current s ++ audio_of res) (after_parse res s)) =
    segments s ++ [current s ++ audio_of res] /\
  current
    (after_close resample (current s ++ audio_of res) (after_parse res s)) =
    [] /\
  yielded
    (after_close resample (current s ++ audio_of res) (after_parse res s)) =
    yielded s ++ frames_of resample [current s ++ audio_of res].
Proof.
  intros Hinv.
  pose proof (session_inv_after_parse res s Hinv) as Hinv1.
  split; [apply session_inv_close; assumption|].
  rewrite segments_close, current_close by assumption.
  rewrite segments_after_parse, current_after_parse by assumption.
  rewrite frames_of_single. repeat split; reflexivity.
Qed.


(** The messages [pre], on none of which [parse_response] returns
    [True]: either the resampling of no segment closed on the way raises,
    and the loop goes on with what follows; or one raises, and the loop
    ends there, on the segment just closed. *)
Lemma recv_open (pre rest : list bytes) (s : session) :
  session_inv s ->
  Forall (fun r => done_of r = Return false) pre ->
  exists (front : list bytes) (s1 : session),
    session_inv s1 /\
    segments s1 = segments s ++ front /\
    Forall (fun seg => seg_size < Z.of_nat (length seg)) front /\
    yielded s1 = yielded s ++ frames_of resample front /\
    ((Forall (fun seg => resample_error resample seg = None) front /\
      recv_loop seg_size resample cur_path tts_id (pre ++ rest) s =
        recv_loop seg_size resample cur_path tts_id rest s1 /\
      concat front ++ current s1 = current s ++ concat (audio_of <$> pre))
     \/
     (exists (e : exn) (front' : list bytes) (last later : bytes),
        front = front' ++ [last] /\
        Forall (fun seg => resample_error resample seg = None) front' /\
        resample_error resample last = Some e /\
        recv_loop seg_size resample cur_path tts_id (pre ++ rest) s =
          (Failed e, s1) /\
        concat front ++ later = current s ++ concat (audio_of <$> pre))).
Proof.
  intros Hinv Hpre. revert s Hinv.
  induction Hpre as [|r pre Hr _ IH]; intros s Hinv.
  - exists [], s. rewrite !app_nil_r.
    split; [exact Hinv|]. split; [reflexivity|]. split; [constructor|].
    split; [reflexivity|]. left.
    split; [constructor|]. split; reflexivity.
  - cbn [app fmap list_fmap concat].
    rewrite (recv_loop_more seg_size resample cur_path tts_id r (pre ++ rest) s Hr).
    destruct (after_close_parse r s Hinv) as (Hinv1 & Hseg1 & Hcur1 & Hy1).
    destruct (seg_size <? Z.of_nat (length (current s ++ audio_of r)))
      eqn:Hclose.
    + apply Z.ltb_lt in Hclose.
      destruct (resample_error resample (current s ++ audio_of r))
        as [e|] eqn:Herr.
      * exists [current s ++ audio_of r]. eexists.
        split; [exact Hinv1|]. split; [exact Hseg1|].
        split; [repeat constructor; exact Hclose|].
        split; [exact Hy1|]. right.
        exists e, [], (current s ++ audio_of r), (concat (audio_of <$> pre)).
        split; [reflexivity|]. split; [constructor|].
        split; [exact Herr|]. split; [reflexivity|].
        cbn [concat app]. rewrite app_nil_r, <- app_assoc. reflexivity.
      * destruct (IH _ Hinv1)
          as (front & s2 & Hinv2 & Hseg2 & Hbig & Hy2 & Hcase).
        exists ((current s ++ audio_of r) :: front), s2.
        split; [exact Hinv2|].
        split; [rewrite Hseg2, Hseg1, <- app_assoc; reflexivity|].
        split; [constructor; assumption|].
        split.
        { rewrite Hy2, Hy1, <- app_assoc. f_equal.
          change ((current s ++ audio_of r) :: front)
            with ([current s ++ audio_of r] ++ front).
          apply eq_sym, frames_of_app. }
        destruct Hcase
          as [(Hok & Hloop & Hcat)
             |(e & front' & last & later & -> & Hok & Hlast & Hloop & Hcat)].
        -- left. split; [constructor; assumption|].
           split; [exact Hloop|].
           cbn [concat]. rewrite <- !app_assoc, Hcat, Hcur1. reflexivity.
        -- right.
           exists e, ((current s ++ audio_of r) :: front'), last, later.
           split; [reflexivity|]. split; [constructor; assumption|].
           split; [exact Hlast|]. split; [exact Hloop|].
           cbn [concat]. rewrite <- !app_assoc.
           rewrite Hcur1 in Hcat. cbn [app] in Hcat.
           rewrite <- Hcat. reflexivity.
    + pose proof (session_inv_after_parse r s Hinv) as Hinv'.
      destruct (IH _ Hinv')
        as (front & s2 & Hinv2 & Hseg2 & Hbig & Hy2 & Hcase).
      rewrite segments_after_parse in Hseg2 by assumption.
      rewrite current_after_parse in Hcase.
      exists front, s2.
      split; [exact Hinv2|]. split; [exact Hseg2|].
      split; [exact Hbig|]. split; [exact Hy2|].
      destruct Hcase
        as [(Hok & Hloop & Hcat)
           |(e & front' & last & later & -> & Hok & Hlast & Hloop & Hcat)].
      * left. split; [exact Hok|]. split; [exact Hloop|].
        rewrite Hcat, <- app_assoc. reflexivity.
      * right. exists e, front', last, later.
        split; [reflexivity|]. split; [exact Hok|].
        split; [exact Hlast|]. split; [exact Hloop|].
        rewrite Hcat, <- app_assoc. reflexivity.
Qed.

(** The last iteration: the current segment is closed with the audio of
    the terminal message, and the loop ends. *)
Lemma recv_last (t : bytes) (post : list bytes) (s : session) :
  session_inv s ->
  done_of t = Return true ->
  exists (o : outcome) (s' : session),
    recv_loop seg_size resample cur_path tts_id (t :: post) s = (o, s') /\
    session_inv s' /\
    segments s' = segments s ++ [current s ++ audio_of t] /\
    yielded s' =
      yielded s ++ frames_of resample [current s ++ audio_of t] /\
    match resample_error resample (current s ++ audio_of t) with
    | Some e => o = Failed e
    | None =>
        match merge_seg_list cur_path tts_id s' with
        | Raised e => o = MergeFailed e
        | Done _ => o = Completed
        end
    end.
Proof.
  intros Hinv Ht. rewrite recv_loop_done by assumption.
  destruct (after_close_parse t s Hinv) as (Hinv1 & Hseg1 & _ & Hy1).
  destruct (resample_error resample (current s ++ audio_of t)) as [e|].
  { eexists _, _. split; [reflexivity|]. split; [exact Hinv1|].
    split; [exact Hseg1|]. split; [exact Hy1 | reflexivity]. }
  destruct (merge_seg_list cur_path tts_id _) as [r|e] eqn:Hmerge.
  - eexists _, _. split; [reflexivity|].
    rewrite merge_seg_list_returned, Hmerge.
    split; [exact Hinv1|]. split; [exact Hseg1|].
    split; [exact Hy1 | reflexivity].
  - eexists _, _. split; [reflexivity|]. rewrite Hmerge.
    split; [exact Hinv1|]. split; [exact Hseg1|].
    split; [exact Hy1 | reflexivity].
Qed.

(** The segments of a session that receives the messages [pre], on which
    [parse_response] returns [False], and then the message [t], on which
    it returns [True]. *)
Lemma recv_loop_trace (pre : list bytes) (t : bytes) (post : list bytes)
    (s : session) :
  session_inv s ->
  Forall (fun r => done_of r = Return false) pre ->
  done_of t = Return true ->
  exists (front : list bytes) (last : bytes) (o : outcome) (s' : session),
    recv_loop seg_size resample cur_path tts_id (pre ++ t :: post) s = (o, s') /\
    session_inv s' /\
    segments s' = segments s ++ front ++ [last] /\
    Forall (fun seg => seg_size < Z.of_nat (length seg)) front /\
    Forall (fun seg => resample_error resample seg = None) front /\
    yielded s' = yielded s ++ frames_of resample (front ++ [last]) /\
    (exists later : bytes,
        concat (front ++ [last]) ++ later =
        current s ++ concat (audio_of <$> (pre ++ [t]))) /\
    (resample_error resample last = None ->
     concat (front ++ [last]) =
       current s ++ concat (audio_of <$> (pre ++ [t])) /\
     match merge_seg_list cur_path tts_id s' with
     | Raised e => o = MergeFailed e
     | Done _ => o = Completed
     end) /\
    (forall e : exn, resample_error resample last = Some e -> o = Failed e).
Proof.
  intros Hinv Hpre Ht.
  destruct (recv_open pre (t :: post) s Hinv Hpre)
    as (front & s1 & Hinv1 & Hseg1 & Hbig & Hy1 & Hcase).
  rewrite fmap_app, concat_app. cbn [fmap list_fmap concat].
  rewrite app_nil_r.
  destruct Hcase
    as [(Hok & Hloop & Hcat)
       |(e & front' & last & later & -> & Hok & Hlast & Hloop & Hcat)].
  - destruct (recv_last t post s1 Hinv1 Ht)
      as (o & s' & Hlast & Hinv' & Hseg' & Hy' & Hout).
    exists front, (current s1 ++ audio_of t), o, s'.
    split; [rewrite Hloop; exact Hlast|]. split; [exact Hinv'|].
    split; [rewrite Hseg', Hseg1, <- app_assoc; reflexivity|].
    split; [exact Hbig|]. split; [exact Hok|].
    split; [rewrite Hy', Hy1, frames_of_app, <- app_assoc; reflexivity|].
    assert (Hall : concat (front ++ [current s1 ++ audio_of t]) =
                   current s ++ concat (audio_of <$> pre) ++ audio_of t).
    { rewrite concat_app. cbn [concat]. rewrite app_nil_r.
      rewrite (app_assoc (concat front)), Hcat, <- app_assoc.
      reflexivity. }
    split; [exists []; rewrite app_nil_r; exact Hall|]. split.
    + intros Hnone. rewrite Hnone in Hout. split; [exact Hall | exact Hout].
    + intros e He. rewrite He in Hout. exact Hout.
  - exists front', last, (Failed e), s1.
    split; [exact Hloop|]. split; [exact Hinv1|].
    split; [exact Hseg1|].
    apply Forall_app in Hbig. destruct Hbig as [Hbig _].
    split; [exact Hbig|]. split; [exact Hok|].
    split; [exact Hy1|].
    split; [exists (later ++ audio_of t);
            rewrite !app_assoc, Hcat; reflexivity|].
    split.
    + intros Hnone. congruence.
    + intros e' He'. congruence.
Qed.

End Assembler.




(** The session of the witness, by evaluation: two segments of four bytes
    closed on crossing the threshold, and the empty one closed by the
    terminal message. *)
Example segments_example :
  segments
    (snd (recv_loop (H := stored_gzip) (P := pydub_example) 3
            resample_example cur_path_example tts_id_example
            [audio_only_response 1 1 [x01; x02];
             audio_only_response 1 2 [x03; x04];
             audio_only_response 1 3 [x05; x06; x07; x08];
             audio_only_response 2 (-4) []] session_start)) =
  [[x01; x02; x03; x04]; [x05; x06; x07; x08]; []].
Proof. vm_compute. reflexivity. Qed.


(** ** What the loop keeps in order *)

Section LoopFacts.
Context `{Gzip} {P : Pydub}.
Variable seg_size : Z.
Variable resample : bytes -> result bytes.
Variables cur_path tts_id : str.

(** The segments listed are numbered from 0 and their files exist. *)
Lemma listed_after_parse (res : bytes) (s : session) :
  seg_list s = seq 0 (idx s) /\
  Forall (fun i => is_Some (files s !! i)) (seg_list s) ->
  seg_list (after_parse res s) = seq 0 (idx (after_parse res s)) /\
  Forall (fun i => is_Some (files (after_parse res s) !! i))
    (seg_list (after_parse res s)).
Proof.
  intros [Hseq Hex]. cbn [seg_list idx files after_parse].
  split; [exact Hseq|].
  eapply Forall_impl; [exact Hex|]. cbn. intros i Hi.
  apply lookup_insert_is_Some'. right. exact Hi.
Qed.

Lemma listed_after_close (res : bytes) (content : bytes) (s : session) :
  seg_list s = seq 0 (idx s) /\
  Forall (fun i => is_Some (files s !! i)) (seg_list s) ->
  seg_list (after_close resample content (after_parse res s)) =
    seq 0 (idx (after_close resample content (after_parse res s))) /\
  Forall
    (fun i =>
       is_Some (files (after_close resample content (after_parse res s)) !! i))
    (seg_list (after_close resample content (after_parse res s))).
Proof.
  intros Hs. destruct (listed_after_parse res s Hs) as [Hseq Hex].
  cbn [seg_list idx files after_close] in *. split.
  - rewrite Hseq, seq_S. reflexivity.
  - apply Forall_app. split; [exact Hex|].
    repeat constructor. cbn [after_parse idx files].
    rewrite lookup_insert_eq. eexists. reflexivity.
Qed.

(** Whatever is received: the closed segments are numbered from 0 and
    their files exist, the request sent is not touched, and the merge has
    returned exactly when the loop completed; it is called with at least
    one segment. *)
Lemma recv_loop_bookkeeping (incoming : list bytes) (s : session) :
  seg_list s = seq 0 (idx s) /\
  Forall (fun i => is_Some (files s !! i)) (seg_list s) ->
  merged s = None ->
  (seg_list (snd (recv_loop seg_size resample cur_path tts_id incoming s)) =
     seq 0 (idx (snd (recv_loop seg_size resample cur_path tts_id incoming s))) /\
   Forall
     (fun i =>
        is_Some
          (files (snd (recv_loop seg_size resample cur_path tts_id incoming s))
             !! i))
     (seg_list (snd (recv_loop seg_size resample cur_path tts_id incoming s)))) /\
  sent (snd (recv_loop seg_size resample cur_path tts_id incoming s)) = sent s /\
  match fst (recv_loop seg_size resample cur_path tts_id incoming s) with
  | Completed =>
      merged (snd (recv_loop seg_size resample cur_path tts_id incoming s)) =
        Some (seg_list
                (snd (recv_loop seg_size resample cur_path tts_id incoming s))) /\
      seg_list (snd (recv_loop seg_size resample cur_path tts_id incoming s))
        <> [] /\
      exists x : Exported,
        merge_seg_list cur_path tts_id
          (snd (recv_loop seg_size resample cur_path tts_id incoming s)) = Done x
  | MergeFailed e =>
      merged (snd (recv_loop seg_size resample cur_path tts_id incoming s)) =
        None /\
      seg_list (snd (recv_loop seg_size resample cur_path tts_id incoming s))
        <> [] /\
      merge_seg_list cur_path tts_id
        (snd (recv_loop seg_size resample cur_path tts_id incoming s)) = Raised e
  | Failed _ =>
      merged (snd (recv_loop seg_size resample cur_path tts_id incoming s)) = None
  end.
Proof.
  revert s. induction incoming as [|r incoming IH]; intros s Hs Hmerged.
  - cbn [recv_loop fst snd]. split; [exact Hs|]. split; [reflexivity|].
    exact Hmerged.
  - pose proof (listed_after_parse r s Hs) as Hs1.
    pose proof (listed_after_close r (current s ++ audio_of r) s Hs) as Hs2.
    assert (Hne : seg_list
                    (after_close resample (current s ++ audio_of r)
                       (after_parse r s)) <> []).
    { cbn [seg_list after_close]. intros Hnil.
      apply app_eq_nil in Hnil. destruct Hnil; discriminate. }
    destruct (done_of r) as [[|]|e] eqn:Hr.
    + rewrite recv_loop_done by assumption.
      destruct (resample_error resample _) as [e|].
      { cbn [fst snd]. split; [exact Hs2|]. split; [reflexivity|].
        exact Hmerged. }
      destruct (merge_seg_list cur_path tts_id _) as [x|e] eqn:Hmerge;
        cbn [fst snd].
      * split; [exact Hs2|]. split; [reflexivity|].
        split; [reflexivity|]. split; [exact Hne|].
        exists x. rewrite merge_seg_list_returned. exact Hmerge.
      * split; [exact Hs2|]. split; [reflexivity|].
        split; [exact Hmerged|]. split; [exact Hne | exact Hmerge].
    + rewrite recv_loop_more by assumption.
      destruct (seg_size <? _).
      * destruct (resample_error resample _) as [e|].
        { cbn [fst snd]. split; [exact Hs2|]. split; [reflexivity|].
          exact Hmerged. }
        destruct (IH _ Hs2 Hmerged) as (Ha & Hb & Hc).
        split; [exact Ha|]. split; [exact Hb | exact Hc].
      * destruct (IH _ Hs1 Hmerged) as (Ha & Hb & Hc).
        split; [exact Ha|]. split; [exact Hb | exact Hc].
    + rewrite recv_loop_raise with (e := e) by assumption.
      cbn [fst snd]. split; [exact Hs1|]. split; [reflexivity|].
      exact Hmerged.
Qed.

End LoopFacts.

(** ** The merge at the end of the loop *)

Section Merging.
Context {P : Pydub}.
Variables cur_path tts_id : str.

(** [load_audioseg_from_pcm] on the path of the segment numbered [i]
    reads the file of that segment. *)
Lemma load_segment (s : session) (i : nat) :
  Audio.load_audioseg_from_pcm pydub_segment (seg_files cur_path tts_id s)
    (seg_path_of (save_path_of cur_path tts_id) i) 24000 1 16 =
  match files s !! i with
  | None => Raised FileNotFoundError
  | Some data =>
      match pydub_segment data 2 24000 1 with
      | Done audio => Done audio
      | Raised e => Raised (LibraryError e)
      end
  end.
Proof.
  pose proof (seg_path_of_inj _ (save_path_of_mp3 cur_path tts_id)) as Hinj.
  unfold Audio.load_audioseg_from_pcm, seg_files.
  rewrite (lookup_kmap (seg_path_of (save_path_of cur_path tts_id))). reflexivity.
Qed.

(** Over segment files that exist, the loop of the merge raises nothing
    but what [pydub] raises, and it returns an audio as soon as there is
    a segment. *)
Lemma merge_loop_listed (s : session) (l : list nat)
    (audio_full : option AudioSegment) :
  Forall (fun i => is_Some (files s !! i)) l ->
  match Audio.merge_loop pydub_segment pydub_add pydub_truth
          (seg_files cur_path tts_id s) (seg_path_of (save_path_of cur_path tts_id) <$> l) audio_full
          24000 1 16 with
  | Done None => l = [] /\ audio_full = None
  | Done (Some _) => True
  | Raised e => exists e' : exn, e = LibraryError e'
  end.
Proof.
  intros Hl. revert audio_full.
  induction Hl as [|i l [data Hi] _ IH]; intros audio_full.
  - cbn [fmap list_fmap Audio.merge_loop].
    destruct audio_full; [exact I | split; reflexivity].
  - cbn [fmap list_fmap Audio.merge_loop]. rewrite load_segment, Hi.
    destruct (pydub_segment data 2 24000 1) as [audio_seg|e];
      [|eexists; reflexivity].
    assert (Hsome : forall a : AudioSegment,
      match Audio.merge_loop pydub_segment pydub_add pydub_truth
              (seg_files cur_path tts_id s) (seg_path_of (save_path_of cur_path tts_id) <$> l) (Some a)
              24000 1 16 with
      | Done None => i :: l = [] /\ audio_full = None
      | Done (Some _) => True
      | Raised e => exists e' : exn, e = LibraryError e'
      end).
    { intros a. specialize (IH (Some a)).
      destruct (Audio.merge_loop _ _ _ _ _ (Some a) _ _ _) as [[b|]|e];
        [exact I | destruct IH; discriminate | exact IH]. }
    destruct audio_full as [audio|]; [|apply Hsome].
    destruct (negb (pydub_truth audio)); [apply Hsome|].
    destruct (pydub_add audio audio_seg) as [audio'|e];
      [apply Hsome | eexists; reflexivity].
Qed.

(** The merge of [run_tts] finds every file it is given and is given at
    least one: when it raises, the exception is one of [pydub]. *)
Lemma merge_seg_list_listed (s : session) (e : audio_exn exn) :
  Forall (fun i => is_Some (files s !! i)) (seg_list s) ->
  seg_list s <> [] ->
  merge_seg_list cur_path tts_id s = Raised e ->
  exists e' : exn, e = LibraryError e'.
Proof.
  intros Hl Hne. unfold merge_seg_list, Audio.merge_pcm_list_into_mp3.
  pose proof (merge_loop_listed s (seg_list s) None Hl) as Hloop.
  destruct (Audio.merge_loop _ _ _ _ _ None _ _ _) as [[audio|]|e0].
  - destruct (pydub_export audio (save_path_of cur_path tts_id)) as [r|e0]; [discriminate|].
    intros Hr. injection Hr as <-. eexists. reflexivity.
  - destruct Hloop as [Hnil _]. contradiction.
  - intros Hr. injection Hr as <-. exact Hloop.
Qed.

(** The merge of empty segments: the audio that [pydub] builds from the
    empty data is exported.  With more than one segment this takes that
    the empty audio counts as false, so that it is replaced and nothing
    is added. *)
Lemma merge_loop_silence (s : session) (a : AudioSegment) (l : list nat)
    (audio_full : option AudioSegment) :
  pydub_segment [] 2 24000 1 = Done a ->
  Forall (fun i => files s !! i = Some []) l ->
  (audio_full = None /\ ((length l <= 1)%nat \/ pydub_truth a = false)) \/
  (audio_full = Some a /\ (l = [] \/ pydub_truth a = false)) ->
  Audio.merge_loop pydub_segment pydub_add pydub_truth
    (seg_files cur_path tts_id s) (seg_path_of (save_path_of cur_path tts_id) <$> l) audio_full
    24000 1 16 =
  Done (match l with [] => audio_full | _ :: _ => Some a end).
Proof.
  intros Ha Hl. revert audio_full.
  induction Hl as [|i l Hi _ IH]; intros audio_full Hcase; [reflexivity|].
  cbn [fmap list_fmap Audio.merge_loop]. rewrite load_segment, Hi, Ha.
  assert (Hnext : l = [] \/ pydub_truth a = false).
  { destruct Hcase as [[_ [Hlen|Hf]]|[_ [Hnil|Hf]]];
      [left | right; exact Hf | discriminate Hnil | right; exact Hf].
    destruct l; [reflexivity | cbn in Hlen; lia]. }
  assert (Hrec :
    Audio.merge_loop pydub_segment pydub_add pydub_truth
      (seg_files cur_path tts_id s) (seg_path_of (save_path_of cur_path tts_id) <$> l) (Some a)
      24000 1 16 = Done (Some a)).
  { rewrite IH by (right; split; [reflexivity | exact Hnext]).
    destruct l; reflexivity. }
  destruct Hcase as [[-> _]|[-> [Hnil|Hf]]];
    [exact Hrec | discriminate Hnil|].
  rewrite Hf. cbn [negb]. exact Hrec.
Qed.

Lemma merge_seg_list_silence (s : session) (a : AudioSegment)
    (r : Exported) :
  pydub_segment [] 2 24000 1 = Done a ->
  pydub_export a (save_path_of cur_path tts_id) = Done r ->
  Forall (fun i => files s !! i = Some []) (seg_list s) ->
  seg_list s <> [] ->
  (length (seg_list s) <= 1)%nat \/ pydub_truth a = false ->
  merge_seg_list cur_path tts_id s = Done r.
Proof.
  intros Ha Hr Hl Hne Hcase.
  unfold merge_seg_list, Audio.merge_pcm_list_into_mp3.
  rewrite (merge_loop_silence s a (seg_list s) None Ha Hl)
    by (left; split; [reflexivity | exact Hcase]).
  destruct (seg_list s); [contradiction|]. rewrite Hr. reflexivity.
Qed.

End Merging.

(** ** Sessions without audio *)

Lemma is_ack_effects `{Gzip} (res : bytes) :
  is_ack res = true -> done_of res = Return false /\ audio_of res = [].
Proof.
  unfold is_ack. intros Hack.
  destruct (header_of res) as [fr|e] eqn:Hfr; [|discriminate].
  apply andb_true_iff in Hack. destruct Hack as [Ht Hf].
  apply Z.eqb_eq in Ht, Hf.
  unfold done_of, audio_of.
  rewrite parse_response_dispatch, Hfr, dispatch_ack by assumption.
  split; reflexivity.
Qed.

Lemma frames_of_empty (resample : bytes -> result bytes)
    (segs : list bytes) :
  Forall (fun seg => seg = []) segs -> frames_of resample segs = [].
Proof.
  intros Hall. unfold frames_of.
  induction Hall as [|seg segs Hseg _ IH]; [reflexivity|].
  subst seg. cbn [fmap list_fmap concat]. exact IH.
Qed.

(** C9.  A session that receives only acknowledgements (audio-only
    responses with a zero flags nibble) and then a terminal message
    without audio yields no frame and completes: every segment it closes
    is empty, nothing is resampled, and the merge exports the audio that
    [pydub] builds from the empty data.  [pydub] is a library: that it
    builds and exports that audio (and, for a negative threshold, under
    which every acknowledgement closes a segment, that the empty audio
    counts as false) is what the library is taken to do.  The request is
    one that was sent: its compressed document fits the 4-byte length. *)
Theorem C9_zero_audio_session_completes
    `{Gzip} {P : Pydub} (seg_size : Z) (resample : bytes -> result bytes)
    (cur_path tts_id : str) (a : AudioSegment) (exported : Exported)
    (payload_bytes : bytes) (acks : list bytes) (t : bytes)
    (post : list bytes) :
  Z.of_nat (length (gzip_compress payload_bytes)) < 2 ^ 32 ->
  pydub_segment [] 2 24000 1 = Done a ->
  pydub_export a (save_path_of cur_path tts_id) = Done exported ->
  0 <= seg_size \/ pydub_truth a = false ->
  Forall (fun r => is_ack r = true) acks ->
  done_of t = Return true ->
  audio_of t = [] ->
  exists s' : session,
    run_tts seg_size resample cur_path tts_id payload_bytes
      (acks ++ t :: post) = (Completed, s') /\
    yielded s' = [] /\
    Forall (fun seg => seg = []) (segments s') /\
    merged s' = Some (seg_list s').
Proof.
  intros Hlen Ha Hexp Hsize Hacks Ht Haudio.
  unfold run_tts. rewrite full_client_request_ok by assumption.
  set (s0 := {| idx := 0; seg_list := []; files := ∅; logs := [];
                sent := [_]; yielded := []; merged := None |}).
  assert (Hinv : session_inv s0)
    by (split; [constructor | intros i _; apply lookup_empty]).
  assert (Hpre : Forall (fun r => done_of r = Return false) acks).
  { eapply Forall_impl; [exact Hacks|]. intros r Hr.
    apply (is_ack_effects r Hr). }
  destruct (recv_loop_trace seg_size resample cur_path tts_id acks t post s0
              Hinv Hpre Ht)
    as (front & last & o & s' & Hloop & _ & Hseg & Hbig & _ & Hy & Hlater
          & Hnone & _).
  destruct (recv_loop_bookkeeping seg_size resample cur_path tts_id
              (acks ++ t :: post) s0)
    as ((_ & Hex) & _ & Hout);
    [split; [reflexivity | constructor] | reflexivity |].
  rewrite Hloop in Hex, Hout. cbn [fst snd] in Hex, Hout.
  (* nothing but empty segments *)
  assert (Hsilent : concat (audio_of <$> (acks ++ [t])) = []).
  { apply concat_nil_Forall. rewrite fmap_app. apply Forall_app. split.
    - apply Forall_fmap. eapply Forall_impl; [exact Hacks|].
      intros r Hr. apply (is_ack_effects r Hr).
    - repeat constructor. exact Haudio. }
  change (segments s0) with (@nil bytes) in Hseg.
  change (current s0) with (@nil byte) in Hlater, Hnone.
  change (yielded s0) with (@nil pipeline_frame) in Hy.
  cbn [app] in Hseg, Hlater, Hnone, Hy.
  rewrite Hsilent in Hlater, Hnone.
  destruct Hlater as [later Hlater].
  apply app_eq_nil in Hlater. destruct Hlater as [Hempty _].
  apply concat_nil_Forall in Hempty.
  assert (Hlast : last = []).
  { apply Forall_app in Hempty. destruct Hempty as [_ Hl].
    apply Forall_cons in Hl. apply Hl. }
  subst last.
  destruct (Hnone eq_refl) as [_ Hmerge].
  (* the merge *)
  assert (Hfiles : Forall (fun i => files s' !! i = Some []) (seg_list s')).
  { unfold segments in Hseg. rewrite <- Hseg in Hempty.
    apply Forall_fmap in Hempty.
    apply Forall_forall. intros i Hi.
    pose proof (proj1 (Forall_forall _ _) Hex i Hi) as [data Hdata].
    pose proof (proj1 (Forall_forall _ _) Hempty i Hi) as Hnil.
    cbn in Hnil. rewrite Hdata in Hnil. cbn in Hnil. subst data.
    exact Hdata. }
  assert (Hlenseg : length (seg_list s') = length (front ++ [@nil byte])).
  { rewrite <- Hseg. unfold segments. rewrite length_fmap. reflexivity. }
  assert (Hne : seg_list s' <> []).
  { intros Hnil. rewrite Hnil, length_app in Hlenseg.
    cbn in Hlenseg. lia. }
  assert (Hone : (length (seg_list s') <= 1)%nat \/ pydub_truth a = false).
  { destruct Hsize as [Hpos|Hf]; [left | right; exact Hf].
    destruct front as [|seg front]; [rewrite Hlenseg; cbn; lia|].
    apply Forall_cons in Hbig. destruct Hbig as [Hbig _].
    apply Forall_app in Hempty. destruct Hempty as [Hempty _].
    apply Forall_cons in Hempty. destruct Hempty as [-> _].
    cbn in Hbig. lia. }
  rewrite (merge_seg_list_silence cur_path tts_id s' a exported Ha Hexp
             Hfiles Hne Hone) in Hmerge.
  subst o. exists s'. split; [exact Hloop|].
  split; [rewrite Hy; apply frames_of_empty; exact Hempty|].
  split; [rewrite Hseg; exact Hempty|]. apply Hout.
Qed.

Lemma C9_witness :
  exists s' : session,
    run_tts (H := stored_gzip) (P := pydub_example) 0 resample_example
      cur_path_example tts_id_example (bytes_of_string "{}")
      ([ack_response; ack_response] ++ audio_only_response 2 (-1) [] :: []) =
      (Completed, s') /\
    yielded s' = [] /\
    Forall (fun seg => seg = []) (segments s') /\
    merged s' = Some (seg_list s').
Proof.
  apply (C9_zero_audio_session_completes (H := stored_gzip)
           (P := pydub_example) 0 resample_example
           cur_path_example tts_id_example [] [] (bytes_of_string "{}")
           [ack_response; ack_response] (audio_only_response 2 (-1) []) []).
  - simpl. lia.
  - reflexivity.
  - reflexivity.
  - left. lia.
  - repeat constructor.
  - reflexivity.
  - reflexivity.
Defined.

(** ** Further properties of the receive loop *)

Section MoreLoopFacts.
Context `{Gzip} {P : Pydub}.
Variable seg_size : Z.
Variable resample : bytes -> result bytes.
Variables cur_path tts_id : str.

Lemma Forall_removelast {A} (Q : A -> Prop) (l : list A) :
  Forall Q l -> Forall Q (removelast l).
Proof.
  induction 1 as [|x l Hx Hl IH]; [constructor|].
  cbn [removelast]. destruct l; [constructor|].
  constructor; assumption.
Qed.

Lemma frame_of_resampled (seg : bytes) :
  resample_error resample seg = None ->
  if has_sample seg
  then exists out : bytes,
         resample seg = Return out /\
         frame_of resample seg = [AudioRawFrame out 16000 1]
  else frame_of resample seg = [].
Proof.
  unfold resample_error, frame_of. destruct (has_sample seg); [|reflexivity].
  destruct (resample seg) as [out|e]; [|discriminate].
  intros _. exists out. split; reflexivity.
Qed.

(** The frames of segments whose resampling raises nothing: one per
    segment that holds a sample. *)
Lemma frames_of_resampled (segs : list bytes) :
  Forall (fun seg => resample_error resample seg = None) segs ->
  Forall2
    (fun seg frame =>
       exists out : bytes,
         resample seg = Return out /\ frame = AudioRawFrame out 16000 1)
    (filter (fun seg => (2 <= length seg)%nat) segs)
    (frames_of resample segs).
Proof.
  induction 1 as [|seg segs Hseg _ IH]; [constructor|].
  change (seg :: segs) with ([seg] ++ segs).
  rewrite frames_of_app, frames_of_single, filter_app.
  apply frame_of_resampled in Hseg.
  destruct (has_sample seg) eqn:Hs.
  - destruct Hseg as (out & Hout & ->).
    apply has_sample_length in Hs.
    rewrite filter_cons_True by assumption. cbn [filter app].
    constructor; [exists out; split; [exact Hout | reflexivity] | exact IH].
  - rewrite Hseg.
    assert (Hshort : ~ (2 <= length seg)%nat).
    { intros Hlen. apply has_sample_length in Hlen. congruence. }
    rewrite filter_cons_False by assumption. exact IH.
Qed.

(** Whatever is received, the frames yielded are those of the closed
    segments, and no resampling has raised except, when the loop ended on
    it, that of the last segment closed. *)
Lemma recv_loop_frames (incoming : list bytes) (s : session) :
  session_inv s ->
  Forall (fun seg => resample_error resample seg = None) (segments s) ->
  yielded s = frames_of resample (segments s) ->
  yielded (snd (recv_loop seg_size resample cur_path tts_id incoming s)) =
    frames_of resample
      (segments (snd (recv_loop seg_size resample cur_path tts_id incoming s))) /\
  Forall (fun seg => resample_error resample seg = None)
    (removelast
       (segments (snd (recv_loop seg_size resample cur_path tts_id incoming s)))) /\
  ((forall e : exn,
       fst (recv_loop seg_size resample cur_path tts_id incoming s) <> Failed e) ->
   Forall (fun seg => resample_error resample seg = None)
     (segments (snd (recv_loop seg_size resample cur_path tts_id incoming s)))).
Proof.
  revert s. induction incoming as [|r incoming IH]; intros s Hinv Hok Hy.
  - cbn [recv_loop fst snd]. split; [exact Hy|].
    split; [apply Forall_removelast; exact Hok|]. intros _. exact Hok.
  - destruct (after_close_parse resample r s Hinv)
      as (Hinv2 & Hseg2 & _ & Hy2).
    pose proof (session_inv_after_parse r s Hinv) as Hinv1.
    pose proof (segments_after_parse r s Hinv) as Hseg1.
    assert (Hy2' :
      yielded (after_close resample (current s ++ audio_of r)
                 (after_parse r s)) =
      frames_of resample
        (segments (after_close resample (current s ++ audio_of r)
                     (after_parse r s)))).
    { rewrite Hy2, Hseg2, frames_of_app, Hy. reflexivity. }
    assert (Hlast :
      Forall (fun seg => resample_error resample seg = None)
        (removelast
           (segments (after_close resample (current s ++ audio_of r)
                        (after_parse r s))))).
    { rewrite Hseg2, removelast_last. exact Hok. }
    assert (Hall :
      resample_error resample (current s ++ audio_of r) = None ->
      Forall (fun seg => resample_error resample seg = None)
        (segments (after_close resample (current s ++ audio_of r)
                     (after_parse r s)))).
    { intros Hnone. rewrite Hseg2. apply Forall_app. split; [exact Hok|].
      repeat constructor. exact Hnone. }
    destruct (done_of r) as [[|]|e] eqn:Hr.
    + rewrite recv_loop_done by assumption.
      destruct (resample_error resample (current s ++ audio_of r))
        as [e|] eqn:Herr.
      { cbn [fst snd]. split; [exact Hy2'|]. split; [exact Hlast|].
        intros Hno. exfalso. exact (Hno e eq_refl). }
      destruct (merge_seg_list cur_path tts_id _) as [x|e]; cbn [fst snd].
      * split; [exact Hy2'|]. split; [exact Hlast|].
        intros _. exact (Hall eq_refl).
      * split; [exact Hy2'|]. split; [exact Hlast|].
        intros _. exact (Hall eq_refl).
    + rewrite recv_loop_more by assumption.
      destruct (seg_size <? _).
      * destruct (resample_error resample (current s ++ audio_of r))
          as [e|] eqn:Herr.
        { cbn [fst snd]. split; [exact Hy2'|]. split; [exact Hlast|].
          intros Hno. exfalso. exact (Hno e eq_refl). }
        apply IH; [exact Hinv2 | exact (Hall eq_refl) | exact Hy2'].
      * apply IH; [exact Hinv1 | rewrite Hseg1; exact Hok|].
        rewrite Hseg1. exact Hy.
    + rewrite recv_loop_raise with (e := e) by assumption.
      cbn [fst snd]. rewrite Hseg1.
      split; [exact Hy|].
      split; [apply Forall_removelast; exact Hok|].
      intros Hno. exfalso. exact (Hno e eq_refl).
Qed.

(** With the threshold 0, a message that carries audio closes a segment
    made of that audio alone. *)
Lemma recv_open_zero (pre rest : list bytes) (s : session) :
  session_inv s ->
  current s = [] ->
  Forall (fun r => done_of r = Return false) pre ->
  exists s1 : session,
    session_inv s1 /\
    current s1 = [] /\
    ((segments s1 =
        segments s ++ filter (fun a => (0 < length a)%nat) (audio_of <$> pre) /\
      recv_loop 0 resample cur_path tts_id (pre ++ rest) s =
        recv_loop 0 resample cur_path tts_id rest s1)
     \/
     (exists (e : exn) (front : list bytes) (last : bytes)
             (tail : list bytes),
        filter (fun a => (0 < length a)%nat) (audio_of <$> pre) =
          front ++ last :: tail /\
        segments s1 = segments s ++ front ++ [last] /\
        resample_error resample last = Some e /\
        recv_loop 0 resample cur_path tts_id (pre ++ rest) s = (Failed e, s1))).
Proof.
  intros Hinv Hcur Hpre. revert s Hinv Hcur.
  induction Hpre as [|r pre Hr _ IH]; intros s Hinv Hcur.
  - exists s. split; [exact Hinv|]. split; [exact Hcur|]. left.
    cbn. rewrite app_nil_r. split; reflexivity.
  - cbn [app fmap list_fmap].
    rewrite (recv_loop_more 0 resample cur_path tts_id r (pre ++ rest) s Hr).
    destruct (after_close_parse resample r s Hinv)
      as (Hinv2 & Hseg2 & Hcur2 & _).
    rewrite Hcur in *. cbn [app] in *.
    destruct (0 <? Z.of_nat (length (audio_of r))) eqn:Hclose.
    + apply Z.ltb_lt in Hclose.
      rewrite filter_cons_True by lia.
      destruct (resample_error resample (audio_of r)) as [e|] eqn:Herr.
      * eexists. split; [exact Hinv2|]. split; [exact Hcur2|]. right.
        exists e, [], (audio_of r),
          (filter (fun a => (0 < length a)%nat) (audio_of <$> pre)).
        split; [reflexivity|]. split; [exact Hseg2|].
        split; [exact Herr | reflexivity].
      * destruct (IH _ Hinv2 Hcur2) as (s1 & Hinv' & Hcur' & Hcase).
        exists s1. split; [exact Hinv'|]. split; [exact Hcur'|].
        destruct Hcase
          as [(Hseg' & Hloop)
             |(e & front & last & tail & Hcut & Hseg' & Hlast & Hloop)].
        -- left. split; [|exact Hloop].
           rewrite Hseg', Hseg2, <- app_assoc. reflexivity.
        -- right. exists e, (audio_of r :: front), last, tail.
           split; [rewrite Hcut; reflexivity|].
           split; [rewrite Hseg', Hseg2, <- app_assoc; reflexivity|].
           split; [exact Hlast | exact Hloop].
    + apply Z.ltb_ge in Hclose.
      assert (Hnil : audio_of r = [])
        by (destruct (audio_of r); [reflexivity | simpl in Hclose; lia]).
      rewrite filter_cons_False by (rewrite Hnil; simpl; lia).
      pose proof (session_inv_after_parse r s Hinv) as Hinv1.
      assert (Hcur1 : current (after_parse r s) = []).
      { rewrite current_after_parse, Hcur, Hnil. reflexivity. }
      destruct (IH _ Hinv1 Hcur1) as (s1 & Hinv' & Hcur' & Hcase).
      rewrite segments_after_parse in Hcase by assumption.
      exists s1. split; [exact Hinv'|]. split; [exact Hcur'|].
      exact Hcase.
Qed.

End MoreLoopFacts.

(** X1.  A message on which [parse_response] returns [True] ends the
    session, however it ends: what the connection would deliver after it
    is never received and has no influence on the outcome nor on what the
    session leaves behind. *)
Theorem X1_nothing_is_received_after_the_terminal_message
    `{Gzip} {P : Pydub} (seg_size : Z) (resample : bytes -> result bytes)
    (cur_path tts_id : str) (pre : list bytes) (t : bytes) (post : list bytes)
    (s : session) :
  done_of t = Return true ->
  recv_loop seg_size resample cur_path tts_id (pre ++ t :: post) s =
    recv_loop seg_size resample cur_path tts_id (pre ++ [t]) s.
Proof.
  intros Ht. revert s. induction pre as [|r pre IH]; intros s.
  - apply recv_loop_terminal. exact Ht.
  - cbn [app recv_loop].
    destruct (recv_step seg_size resample r s) as [[[|]|e] s1];
      [reflexivity | apply IH | reflexivity].
Qed.

Lemma X1_witness :
  recv_loop (H := stored_gzip) (P := pydub_example) 0 resample_example
    cur_path_example tts_id_example
    ([ack_response] ++ last_audio_example :: [short_audio_response])
    session_start =
  recv_loop (H := stored_gzip) (P := pydub_example) 0 resample_example
    cur_path_example tts_id_example ([ack_response] ++ [last_audio_example]) session_start.
Proof.
  apply (X1_nothing_is_received_after_the_terminal_message
           (H := stored_gzip) (P := pydub_example) 0 resample_example
           cur_path_example tts_id_example [ack_response]
           last_audio_example [short_audio_response] session_start).
  reflexivity.
Defined.

(** X2.  Whatever the connection delivers, the frames yielded are, in
    order, those of the closed segments: an [AudioRawFrame] at 16000 Hz,
    one channel, with the resampled content, for a segment of at least
    two bytes (one 16-bit sample) whose resampling returned, and nothing
    for a shorter segment.  No resampling has raised except, when the
    session ended on it, that of the last segment closed; so when the
    session does not end on such an exception there is exactly one frame
    per closed segment of at least two bytes. *)
Theorem X2_yielded_frames_are_the_resampled_segments
    `{Gzip} {P : Pydub} (seg_size : Z) (resample : bytes -> result bytes)
    (cur_path tts_id : str) (incoming : list bytes) :
  yielded (snd (recv_loop seg_size resample cur_path tts_id incoming
                  session_start)) =
    frames_of resample
      (segments (snd (recv_loop seg_size resample cur_path tts_id incoming
                        session_start))) /\
  Forall (fun seg => resample_error resample seg = None)
    (removelast
       (segments (snd (recv_loop seg_size resample cur_path tts_id incoming
                         session_start)))) /\
  ((forall e : exn,
       fst (recv_loop seg_size resample cur_path tts_id incoming session_start)
         <> Failed e) ->
   Forall2
     (fun seg frame =>
        exists out : bytes,
          resample seg = Return out /\ frame = AudioRawFrame out 16000 1)
     (filter (fun seg => (2 <= length seg)%nat)
        (segments (snd (recv_loop seg_size resample cur_path tts_id incoming
                          session_start))))
     (yielded (snd (recv_loop seg_size resample cur_path tts_id incoming
                      session_start)))).
Proof.
  destruct (recv_loop_frames seg_size resample cur_path tts_id incoming
              session_start (session_inv_start) (Forall_nil_2 _) eq_refl)
    as (Hy & Hlast & Hall).
  split; [exact Hy|]. split; [exact Hlast|].
  intros Hno. rewrite Hy. apply frames_of_resampled, Hall, Hno.
Qed.

(** A session of three segments, by evaluation: the second holds no
    sample and yields nothing. *)
Example yielded_example :
  recv_loop (H := stored_gzip) (P := pydub_example) 0 resample_example
    cur_path_example tts_id_example
    [audio_only_response 1 1 [x01; x02; x03; x04; x05; x06];
     audio_only_response 1 2 [x07];
     audio_only_response 1 (-3) [x08; x09; x0a; x0b]] session_start =
  (MergeFailed (LibraryError ValueError),
   {| idx := 3; seg_list := [0; 1; 2]%nat;
      files := <[0%nat := [x01; x02; x03; x04; x05; x06]]>
                 (<[1%nat := [x07]]>
                    (<[2%nat := [x08; x09; x0a; x0b]]> ∅));
      logs := []; sent := [];
      yielded := [AudioRawFrame [x01; x02; x03; x04] 16000 1;
                  AudioRawFrame [x08; x09] 16000 1];
      merged := None |}).
Proof. vm_compute. reflexivity. Qed.



(** X4.  The merge at the end of [run_tts] is never given an empty list
    nor the path of a file that does not exist: an exception that leaves
    the merge is one that [pydub] raised, in its constructor, its
    addition or its [export]; it is neither the [AttributeError] of the
    empty list nor a [FileNotFoundError]. *)
Theorem X4_the_merge_fails_only_in_pydub
    `{Gzip} {P : Pydub} (seg_size : Z) (resample : bytes -> result bytes)
    (cur_path tts_id : str) (incoming : list bytes) (e : audio_exn exn) :
  fst (recv_loop seg_size resample cur_path tts_id incoming session_start) =
    MergeFailed e ->
  exists e' : exn, e = LibraryError e'.
Proof.
  intros Hout.
  pose proof (recv_loop_bookkeeping seg_size resample cur_path tts_id incoming
                session_start (conj eq_refl (Forall_nil_2 _)) eq_refl)
    as ((_ & Hex) & _ & Hcase).
  rewrite Hout in Hcase. destruct Hcase as (_ & Hne & Hmerge).
  exact (merge_seg_list_listed cur_path tts_id _ e Hex Hne Hmerge).
Qed.

Lemma X4_witness :
  fst (recv_loop (H := stored_gzip) (P := pydub_example) 0 resample_example
         cur_path_example tts_id_example
         [audio_only_response 1 (-1) [x01; x02; x03; x04; x05]]
         session_start) = MergeFailed (LibraryError ValueError) /\
  exists e' : exn, LibraryError ValueError = LibraryError e'.
Proof.
  split; [vm_compute; reflexivity|].
  apply (X4_the_merge_fails_only_in_pydub (H := stored_gzip)
           (P := pydub_example) 0 resample_example cur_path_example tts_id_example
           [audio_only_response 1 (-1) [x01; x02; x03; x04; x05]]
           (LibraryError ValueError)).
  vm_compute. reflexivity.
Defined.

(** X5.  Whatever the connection delivers, the closed segments are
    numbered consecutively from 0: at the end [seg_list] is
    [0, 1, ..., idx - 1], without gap or repetition, and the request sent
    at the start is the only message sent. *)
Theorem X5_segment_indices_are_consecutive
    `{Gzip} {P : Pydub} (seg_size : Z) (resample : bytes -> result bytes)
    (cur_path tts_id : str)
    (payload_bytes : bytes) (incoming : list bytes) (req : bytes) :
  full_client_request payload_bytes = Return req ->
  let s' :=
    snd (run_tts seg_size resample cur_path tts_id payload_bytes incoming) in
  seg_list s' = seq 0 (idx s') /\
  length (segments s') = idx s' /\
  NoDup (seg_list s') /\
  sent s' = [req].
Proof.
  intros Hreq s'. subst s'. unfold run_tts. rewrite Hreq.
  set (s0 := {| idx := 0; seg_list := []; files := ∅; logs := [];
                sent := [req]; yielded := []; merged := None |}).
  destruct (recv_loop_bookkeeping seg_size resample cur_path tts_id
              incoming s0
              (conj eq_refl (Forall_nil_2 _)) eq_refl)
    as ((Hseq & _) & Hsent & _).
  split; [exact Hseq|]. split; [|split].
  - unfold segments. rewrite length_fmap, Hseq, length_seq. reflexivity.
  - rewrite Hseq. apply NoDup_ListNoDup, seq_NoDup.
  - exact Hsent.
Qed.

Lemma X5_witness :
  seg_list
    (snd (run_tts (H := stored_gzip) (P := pydub_example) 3 resample_example
            cur_path_example tts_id_example (bytes_of_string "{}")
            [audio_only_response 1 1 [x01; x02; x03; x04];
             audio_only_response 1 2 [x05; x06]; short_audio_response;
             [x11]])) = [0]%nat.
Proof.
  destruct (X5_segment_indices_are_consecutive (H := stored_gzip)
              (P := pydub_example) 3 resample_example
              cur_path_example tts_id_example (bytes_of_string "{}")
              [audio_only_response 1 1 [x01; x02; x03; x04];
               audio_only_response 1 2 [x05; x06]; short_audio_response;
               [x11]]
              ([x11; x10; x11; x00; x00; x00; x00; x19]
                 ++ stored_compress (bytes_of_string "{}")) eq_refl)
    as (Hseq & _).
  rewrite Hseq. reflexivity.
Defined.

(** X6.  With the default threshold [seg_size = 0] nothing is kept from
    one message to the next: every message that carries audio closes a
    segment made of exactly its audio, a message without audio closes
    none, and the terminal message closes the last segment with its own
    audio, empty or not.  The segments closed are these, in order, up to
    the first whose resampling raises, on which the session ends; when
    none raises they are all of them. *)
Theorem X6_default_threshold_closes_a_segment_per_audio_message
    `{Gzip} {P : Pydub} (resample : bytes -> result bytes)
    (cur_path tts_id : str)
    (pre : list bytes) (t : bytes) (post : list bytes) :
  Forall (fun r => done_of r = Return false) pre ->
  done_of t = Return true ->
  exists (o : outcome) (s' : session),
    recv_loop 0 resample cur_path tts_id (pre ++ t :: post) session_start =
      (o, s') /\
    segments s' `prefix_of`
      filter (fun a => (0 < length a)%nat) (audio_of <$> pre)
        ++ [audio_of t] /\
    (Forall (fun seg => resample_error resample seg = None) (segments s') ->
     segments s' =
       filter (fun a => (0 < length a)%nat) (audio_of <$> pre)
         ++ [audio_of t]).
Proof.
  intros Hpre Ht.
  destruct (recv_open_zero resample cur_path tts_id pre (t :: post) session_start
              session_inv_start eq_refl Hpre)
    as (s1 & Hinv & Hcur & Hcase).
  change (segments session_start) with (@nil bytes) in Hcase.
  cbn [app] in Hcase.
  destruct Hcase
    as [(Hseg & Hloop)
       |(e & front & last & tail & Hcut & Hseg & Hlast & Hloop)].
  - destruct (recv_last 0 resample cur_path tts_id t post s1 Hinv Ht)
      as (o & s' & Hend & _ & Hseg' & _).
    rewrite Hcur, Hseg in Hseg'. cbn [app] in Hseg'.
    exists o, s'. split; [rewrite Hloop; exact Hend|].
    rewrite Hseg'. split; [reflexivity|]. intros _. reflexivity.
  - exists (Failed e), s1. split; [exact Hloop|].
    rewrite Hseg, Hcut. split.
    + exists (tail ++ [audio_of t]).
      rewrite <- !app_assoc. reflexivity.
    + intros Hok. apply Forall_app in Hok. destruct Hok as [_ Hok].
      apply Forall_cons in Hok. destruct Hok as [Hok _]. congruence.
Qed.

Lemma X6_witness :
  exists (o : outcome) (s' : session),
    recv_loop (H := stored_gzip) (P := pydub_example) 0 resample_example
      cur_path_example tts_id_example
      ([audio_only_response 1 1 [x01; x02; x03; x04]; ack_response;
        audio_only_response 1 2 [x05; x06; x07; x08]]
         ++ audio_only_response 2 (-3) [] :: []) session_start = (o, s') /\
    segments s' = [[x01; x02; x03; x04]; [x05; x06; x07; x08]] ++ [[]].
Proof.
  destruct (X6_default_threshold_closes_a_segment_per_audio_message
              (H := stored_gzip) (P := pydub_example) resample_example
              cur_path_example tts_id_example
              [audio_only_response 1 1 [x01; x02; x03; x04]; ack_response;
               audio_only_response 1 2 [x05; x06; x07; x08]]
              (audio_only_response 2 (-3) []) [])
    as (o & s' & Hloop & _ & Hall).
  - repeat constructor.
  - reflexivity.
  - exists o, s'. split; [exact Hloop|]. apply Hall.
    pose proof (f_equal snd Hloop) as Hsnd. cbn [snd] in Hsnd.
    rewrite <- Hsnd. vm_compute. repeat constructor.
Defined.

(** X7.  A message on which [parse_response] raises leaves no trace:
    file and log are as before, and the session fails with that exception
    having closed no segment, yielded nothing and merged nothing; the
    messages behind it are not received. *)
Theorem X7_a_failing_message_leaves_no_trace
    `{Gzip} {P : Pydub} (seg_size : Z) (resample : bytes -> result bytes)
    (cur_path tts_id : str) (res : bytes) (e : exn) (w : world)
    (incoming : list bytes) (s : session) :
  session_inv s ->
  done_of res = Raise e ->
  parse_response res w = (Raise e, w) /\
  exists s' : session,
    recv_loop seg_size resample cur_path tts_id (res :: incoming) s =
      (Failed e, s') /\
    segments s' = segments s /\
    current s' = current s /\
    logs s' = logs s /\
    yielded s' = yielded s /\
    merged s' = merged s.
Proof.
  intros Hinv Hraise.
  destruct (raise_effects res e Hraise) as [Haudio Hlog].
  split.
  - rewrite parse_response_effects, Hraise, Haudio, Hlog, !app_nil_r.
    rewrite world_eta. reflexivity.
  - exists (after_parse res s).
    split; [apply recv_loop_raise; assumption|].
    rewrite segments_after_parse, current_after_parse by assumption.
    cbn [logs yielded merged after_parse].
    rewrite Haudio, Hlog, !app_nil_r. repeat split; reflexivity.
Qed.

Lemma X7_witness :
  parse_response (H := stored_gzip) [x11; xb1; x10] world_start =
    (Raise IndexError, world_start) /\
  exists s' : session,
    recv_loop (H := stored_gzip) (P := pydub_example) 0 resample_example
      cur_path_example tts_id_example
      ([x11; xb1; x10] :: [last_audio_example]) session_start =
      (Failed IndexError, s') /\
    segments s' = [] /\
    current s' = [] /\
    logs s' = [] /\
    yielded s' = [] /\
    merged s' = None.
Proof.
  apply (X7_a_failing_message_leaves_no_trace (H := stored_gzip)
           (P := pydub_example) 0 resample_example cur_path_example tts_id_example
           [x11; xb1; x10] IndexError world_start
           [last_audio_example] session_start).
  - split; [constructor | intros i _; apply lookup_empty].
  - reflexivity.
Defined.

(** X19.  Merging an empty list of segments fails with [AttributeError]
    ([audio_full] is still [None] when [export] is called on it), before
    any file is read.  [run_tts] never does that: a session that completes
    merges at least one segment. *)
Theorem X19_merge_of_no_segment_fails_and_run_tts_avoids_it
    {E A T : Type} (audio_segment : bytes -> Z -> Z -> Z -> tried E A)
    (add : A -> A -> tried E A) (truth : A -> bool)
    (export : A -> str -> tried E T) (fs : gmap str bytes)
    (mp3_path : str) (sample_rate channels bit_depth : Z)
    `{Gzip} {P : Pydub} (seg_size : Z) (resample : bytes -> result bytes)
    (cur_path tts_id : str) (incoming : list bytes) :
  Audio.merge_pcm_list_into_mp3 audio_segment add truth export fs []
    mp3_path sample_rate channels bit_depth = Raised AttributeError /\
  (fst (recv_loop seg_size resample cur_path tts_id incoming session_start) =
     Completed ->
   exists (seg_path : nat) (seg_paths : list nat),
     merged (snd (recv_loop seg_size resample cur_path tts_id incoming
                    session_start)) =
       Some (seg_paths ++ [seg_path])).
Proof.
  split; [reflexivity|]. intros Hdone.
  pose proof (recv_loop_bookkeeping seg_size resample cur_path tts_id incoming
                session_start (conj eq_refl (Forall_nil_2 _)) eq_refl)
    as (_ & _ & Hcase).
  rewrite Hdone in Hcase. destruct Hcase as (Hmerged & Hne & _).
  rewrite Hmerged.
  destruct (exists_last Hne) as (seg_paths & seg_path & ->).
  exists seg_path, seg_paths. reflexivity.
Qed.

Lemma X19_witness :
  exists (seg_path : nat) (seg_paths : list nat),
    merged (snd (recv_loop (H := stored_gzip) (P := pydub_example) 0
                   resample_example cur_path_example tts_id_example
                   [ack_response; last_audio_example] session_start)) =
      Some (seg_paths ++ [seg_path]).
Proof.
  apply (X19_merge_of_no_segment_fails_and_run_tts_avoids_it
           (E := unit) (A := bytes) (T := bytes)
           (fun data _ _ _ => Done data) (fun a b => Done (a ++ b))
           (fun a => negb (bool_decide (length a = 0%nat)))
           (fun a _ => Done a) ∅ [] 24000 1 16
           (H := stored_gzip) (P := pydub_example) 0 resample_example
           cur_path_example tts_id_example [ack_response; last_audio_example]).
  reflexivity.
Defined.

(** ** Where the libraries stop the session *)

(** X23.  [resampy] cannot resample a signal of one sample from 24000 to
    16000 Hz and raises [ValueError].  So a segment of two or three bytes
    ends the session with that exception as soon as it is closed, by a
    terminal message or by the threshold: the segment is counted and
    listed, nothing is yielded for it, nothing is merged, and the messages
    behind are not received. *)
Theorem X23_a_segment_of_one_sample_fails_the_session
    `{Gzip} {P : Pydub} (seg_size : Z) (resample : bytes -> result bytes)
    (cur_path tts_id : str) (res : bytes) (done : bool) (incoming : list bytes)
    (s : session) :
  (forall pcm : bytes,
      (2 <= length pcm <= 3)%nat -> resample pcm = Raise ValueError) ->
  done_of res = Return done ->
  done = true \/ seg_size < Z.of_nat (length (current s ++ audio_of res)) ->
  (2 <= length (current s ++ audio_of res) <= 3)%nat ->
  exists s' : session,
    recv_loop seg_size resample cur_path tts_id (res :: incoming) s =
      (Failed ValueError, s') /\
    idx s' = S (idx s) /\
    seg_list s' = seg_list s ++ [idx s] /\
    yielded s' = yielded s /\
    merged s' = merged s.
Proof.
  intros Hlaw Hdone Hclose Hlen.
  assert (Herr : resample_error resample (current s ++ audio_of res) =
                 Some ValueError).
  { unfold resample_error.
    destruct (has_sample (current s ++ audio_of res)) eqn:Hs.
    - rewrite Hlaw by exact Hlen. reflexivity.
    - assert (Hs' : has_sample (current s ++ audio_of res) = true)
        by (apply has_sample_length; lia).
      congruence. }
  assert (Hframe : frame_of resample (current s ++ audio_of res) = []).
  { unfold frame_of. rewrite Hlaw by exact Hlen.
    destruct (has_sample _); reflexivity. }
  exists (after_close resample (current s ++ audio_of res)
            (after_parse res s)).
  split.
  - destruct done.
    + rewrite recv_loop_done by assumption. rewrite Herr. reflexivity.
    + rewrite recv_loop_more by assumption. rewrite Herr.
      destruct Hclose as [Hd|Hbig]; [discriminate Hd|].
      apply Z.ltb_lt in Hbig. rewrite Hbig. reflexivity.
  - cbn [idx seg_list yielded merged after_close after_parse].
    rewrite Hframe, app_nil_r. repeat split; reflexivity.
Qed.

Lemma X23_witness :
  exists s' : session,
    recv_loop (H := stored_gzip) (P := pydub_example) 0 resample_example
      cur_path_example tts_id_example
      (audio_only_response 1 1 [x01; x02; x03] :: [last_audio_example])
      session_start = (Failed ValueError, s') /\
    idx s' = 1%nat /\
    seg_list s' = [0%nat] /\
    yielded s' = [] /\
    merged s' = None.
Proof.
  apply (X23_a_segment_of_one_sample_fails_the_session (H := stored_gzip)
           (P := pydub_example) 0 resample_example cur_path_example tts_id_example
           (audio_only_response 1 1 [x01; x02; x03]) false
           [last_audio_example] session_start).
  - intros pcm Hlen.
    destruct pcm as [|a [|b [|c [|d pcm]]]]; simpl in Hlen; try lia;
      reflexivity.
  - reflexivity.
  - right. vm_compute. reflexivity.
  - vm_compute. lia.
Defined.

Section Loaded.
Context {P : Pydub}.
Variables cur_path tts_id : str.

(** A loop of the merge that returns has built an audio from every file. *)
Lemma merge_loop_loaded (s : session) (l : list nat)
    (audio_full result : option AudioSegment) :
  Audio.merge_loop pydub_segment pydub_add pydub_truth
    (seg_files cur_path tts_id s) (seg_path_of (save_path_of cur_path tts_id) <$> l) audio_full
    24000 1 16 = Done result ->
  Forall
    (fun i =>
       exists (data : bytes) (audio : AudioSegment),
         files s !! i = Some data /\
         pydub_segment data 2 24000 1 = Done audio) l.
Proof.
  revert audio_full. induction l as [|i l IH]; intros audio_full;
    [constructor|].
  cbn [fmap list_fmap Audio.merge_loop].
  rewrite load_segment.
  destruct (files s !! i) as [data|] eqn:Hfile; [|discriminate].
  destruct (pydub_segment data 2 24000 1) as [audio_seg|e] eqn:Hseg;
    [|discriminate].
  assert (Hhere : exists (data' : bytes) (audio : AudioSegment),
             files s !! i = Some data' /\
             pydub_segment data' 2 24000 1 = Done audio)
    by (exists data, audio_seg; split; [exact Hfile | exact Hseg]).
  destruct audio_full as [audio|].
  - destruct (negb (pydub_truth audio)).
    + intros Hrest. constructor; [exact Hhere | exact (IH _ Hrest)].
    + destruct (pydub_add audio audio_seg) as [audio'|e]; [|discriminate].
      intros Hrest. constructor; [exact Hhere | exact (IH _ Hrest)].
  - intros Hrest. constructor; [exact Hhere | exact (IH _ Hrest)].
Qed.

End Loaded.

(** X24.  [pydub] refuses data that is no whole number of frames:
    [AudioSegment(data=...)] raises [ValueError] when the length of the
    data is odd.  So a session completes only if every segment it closed
    is a whole number of 16-bit samples; a segment with a byte too many,
    although resampled and yielded, makes the merge and the session
    fail. *)
Theorem X24_a_completed_session_has_whole_samples
    `{Gzip} {P : Pydub} (seg_size : Z) (resample : bytes -> result bytes)
    (cur_path tts_id : str) (incoming : list bytes) :
  (forall data : bytes,
      Z.of_nat (length data) mod 2 <> 0 ->
      pydub_segment data 2 24000 1 = Raised ValueError) ->
  fst (recv_loop seg_size resample cur_path tts_id incoming session_start) =
    Completed ->
  Forall (fun seg => Z.of_nat (length seg) mod 2 = 0)
    (segments (snd (recv_loop seg_size resample cur_path tts_id incoming
                      session_start))).
Proof.
  intros Hlaw Hdone.
  pose proof (recv_loop_bookkeeping seg_size resample cur_path tts_id incoming
                session_start (conj eq_refl (Forall_nil_2 _)) eq_refl)
    as (_ & _ & Hcase).
  rewrite Hdone in Hcase. destruct Hcase as (_ & _ & x & Hmerge).
  unfold merge_seg_list, Audio.merge_pcm_list_into_mp3 in Hmerge.
  destruct (Audio.merge_loop _ _ _ _ _ None _ _ _) as [result|e] eqn:Hloop;
    [|discriminate].
  pose proof (merge_loop_loaded cur_path tts_id _ _ _ _ Hloop) as Hloaded.
  unfold segments. apply Forall_fmap.
  eapply Forall_impl; [exact Hloaded|].
  cbn. intros i (data & audio & -> & Hseg). cbn.
  destruct (Z.eq_dec (Z.of_nat (length data) mod 2) 0) as [Heven|Hodd];
    [exact Heven|].
  rewrite (Hlaw data Hodd) in Hseg. discriminate Hseg.
Qed.

Lemma X24_witness :
  Forall (fun seg => Z.of_nat (length seg) mod 2 = 0)
    (segments
       (snd (recv_loop (H := stored_gzip) (P := pydub_example) 0
               resample_example cur_path_example tts_id_example
               [audio_only_response 1 1 [x01; x02; x03; x04];
                last_audio_example] session_start))).
Proof.
  apply (X24_a_completed_session_has_whole_samples (H := stored_gzip)
           (P := pydub_example) 0 resample_example cur_path_example tts_id_example
           [audio_only_response 1 1 [x01; x02; x03; x04];
            last_audio_example]).
  - intros data Hodd. cbn [pydub_segment pydub_example].
    change (2 * 1) with 2. apply Z.eqb_neq in Hodd. rewrite Hodd.
    reflexivity.
  - vm_compute. reflexivity.
Defined.

(** A byte too many, by evaluation: the five bytes are resampled as two
    samples and yielded, and the merge fails on them. *)
Example odd_segment_example :
  recv_loop (H := stored_gzip) (P := pydub_example) 0 resample_example
    cur_path_example tts_id_example
    [audio_only_response 1 (-1) [x01; x02; x03; x04; x05]] session_start =
  (MergeFailed (LibraryError ValueError),
   {| idx := 1; seg_list := [0%nat];
      files := <[0%nat := [x01; x02; x03; x04; x05]]> ∅;
      logs := []; sent := [];
      yielded := [AudioRawFrame [x01; x02] 16000 1];
      merged := None |}).
Proof. vm_compute. reflexivity. Qed.

(** * What a message is read for *)

(** X22.  [parse_response] reads a message for its message type, for
    whether its flags nibble is zero, for its compression nibble and for
    its payload.  The protocol version, the serialization method, the
    reserved byte, the header extension and the value of a non-zero flags
    nibble are never consulted: two messages that agree on the former are
    interpreted alike. *)
Theorem X22_version_serialization_and_reserved_are_never_checked
    `{Gzip} (res res' : bytes) (fr fr' : frame) (w : world) :
  header_of res = Return fr ->
  header_of res' = Return fr' ->
  message_type fr = message_type fr' ->
  (message_type_specific_flags fr = 0 <->
   message_type_specific_flags fr' = 0) ->
  message_compression fr = message_compression fr' ->
  payload fr = payload fr' ->
  parse_response res w = parse_response res' w.
Proof.
  intros Hfr Hfr' Ht Hf Hc Hp.
  rewrite !parse_response_dispatch, Hfr, Hfr'.
  unfold dispatch. rewrite Ht, Hc, Hp.
  destruct (message_type fr' =? 0xb); [|reflexivity].
  destruct (message_type_specific_flags fr =? 0) eqn:H0.
  - apply Z.eqb_eq in H0. apply Hf in H0. rewrite H0. reflexivity.
  - destruct (message_type_specific_flags fr' =? 0) eqn:H0'; [|reflexivity].
    apply Z.eqb_eq in H0'. apply Hf in H0'. apply Z.eqb_neq in H0.
    contradiction.
Qed.

Lemma X22_witness :
  parse_response (H := stored_gzip)
    (audio_only_response 2 7 [x01; x02]) world_start =
  parse_response (H := stored_gzip)
    ([xf3; xb1; xf0; xff; x00; x00; x00; x00; x09; x09; x09; x09]
       ++ be_digits 4 7 ++ be_digits 4 2 ++ [x01; x02]) world_start.
Proof.
  apply (X22_version_serialization_and_reserved_are_never_checked
           (H := stored_gzip)
           (audio_only_response 2 7 [x01; x02])
           ([xf3; xb1; xf0; xff; x00; x00; x00; x00; x09; x09; x09; x09]
              ++ be_digits 4 7 ++ be_digits 4 2 ++ [x01; x02])
           (Frame 1 1 0xb 2 1 0 0 []
              (be_digits 4 7 ++ be_digits 4 2 ++ [x01; x02]))
           (Frame 15 3 0xb 1 15 0 255
              [x00; x00; x00; x00; x09; x09; x09; x09]
              (be_digits 4 7 ++ be_digits 4 2 ++ [x01; x02]))
           world_start).
  - reflexivity.
  - reflexivity.
  - reflexivity.
  - split; discriminate.
  - reflexivity.
  - reflexivity.
Defined.

